(** * ResumeMash: the per-field text-classification core

    A shallow embedding of [ml_model.py] (model store, trainer, scorer) and of
    the two routes of [app.py] that drive it ([swipe] and [feedback]), with the
    properties of the specification stated over it.

    Conventions.
    - Python [int] is [Z]; Python [float] is the kernel's binary64 [float];
      [str] is [string] (UTF-8 bytes); [None] is [option]'s [None].
    - A call that may raise returns a [result]; code that also mutates the
      model directory, the database or the session is written in the
      state-and-exception monad [M].
    - scikit-learn is not part of the repository: its four entry points used
      by the source form the interface [Sklearn], and the properties that
      rest on its documented behaviour name the law they use. *)

From Stdlib Require Import ZArith String Ascii List Lia Bool.
From Stdlib Require Import Floats.
From stdpp Require Import gmap strings list fin_maps fin_sets.

Local Open Scope string_scope.
Local Open Scope Z_scope.

(** ** Exceptions and results *)

Inductive exn : Type :=
| ValueError
| TypeError
| IndexError
| KeyError
| OverflowError
| OSError
| OtherError (name : string).

Inductive result (A : Type) : Type :=
| Returned (a : A)
| Raised (e : exn).
Arguments Returned {A} a.
Arguments Raised {A} e.

(** The monad of the handlers: a state [S] threaded through, and an exception
    that stops the computation with the state as mutated so far. *)
Definition M (S A : Type) : Type := S -> result A * S.

Definition ret {S A} (a : A) : M S A := fun s => (Returned a, s).
Definition raise {S A} (e : exn) : M S A := fun s => (Raised e, s).
Definition bind {S A B} (c : M S A) (k : A -> M S B) : M S B :=
  fun s => match c s with
           | (Returned a, s') => k a s'
           | (Raised e, s') => (Raised e, s')
           end.
Definition gets {S A} (f : S -> A) : M S A := fun s => (Returned (f s), s).
Definition modify {S} (f : S -> S) : M S unit := fun s => (Returned tt, f s).
Definition lift {S A} (r : result A) : M S A := fun s => (r, s).

Notation "'let*' x ':=' c 'in' k" := (bind c (fun x => k))
  (at level 10, x name, c at level 100, k at level 200).
Notation "c ';;' k" := (bind c (fun _ => k))
  (at level 100, k at level 200, right associativity).

(** [l[i]] on a Python sequence: a negative index counts from the end, and an
    index out of range raises [IndexError]. *)
Definition getitem {A} (l : list A) (i : Z) : result A :=
  let n := Z.of_nat (length l) in
  let j := if i <? 0 then i + n else i in
  if (0 <=? j) && (j <? n)
  then match l !! Z.to_nat j with
       | Some x => Returned x
       | None => Raised IndexError
       end
  else Raised IndexError.

(** ** The database (the three tables of [app.py])

    [swipes.created_at] is a wall-clock default that no query reads; it is
    left out. [resumes.uploaded_at] is read by one [ORDER BY] only, and is
    kept as a clock reading. *)

Record User : Type := {
  u_id : Z;
  u_first_name : string;
  u_last_name : string
}.

Record Resume : Type := {
  r_id : Z;
  r_user_id : Z;
  r_filename : string;
  r_text : string;
  r_job_field : string;
  r_uploaded_at : Z
}.

Record Swipe : Type := {
  s_id : Z;
  s_resume_id : Z;
  s_user_id : Z;
  s_label : Z   (* 1 = like / Mash, 0 = pass *)
}.

Record DB : Type := {
  users : list User;
  resumes : list Resume;
  swipes : list Swipe
}.

(** [FROM swipes JOIN resumes ON swipes.resume_id = resumes.id
     WHERE resumes.job_field = ?]: the joined pairs, swipe-major. SQLite
    compares TEXT with the BINARY collation, so the match on the field is
    exact and case-sensitive. *)
Definition swipes_join_resumes (db : DB) (job_field : string)
  : list (Swipe * Resume) :=
  s ← swipes db;
  r ← filter (fun r => s_resume_id s = r_id r /\ r_job_field r = job_field)
             (resumes db);
  [(s, r)].

(** One row of the training query: [resumes.text AS text, swipes.label AS label]. *)
Record Row : Type := { text : string; label : Z }.

Definition select_training_rows (db : DB) (job_field : string) : list Row :=
  (fun sr => {| text := r_text sr.2; label := s_label sr.1 |})
    <$> swipes_join_resumes db job_field.

(** [SELECT COUNT( * ) AS n] over the same join. *)
Definition select_swipe_count (db : DB) (job_field : string) : Z :=
  Z.of_nat (length (swipes_join_resumes db job_field)).

(** ** scikit-learn, as the source calls it *)

Record TfidfParams : Type := {
  stop_words : option string;
  max_features : option Z
}.

Record LogRegParams : Type := {
  max_iter : Z;
  class_weight : option string
}.

(** The interface of the library. [Matrix] is the type of feature matrices
    ([n_samples] rows, [n_features] columns); [Vectorizer] and [Classifier]
    are the fitted states of [TfidfVectorizer] and [LogisticRegression], with
    the attributes the properties below speak of: the size of the fitted
    vocabulary, the number of features the classifier was fitted on, and
    [classes_], the labels seen by [fit] in the column order of
    [predict_proba]. Every call can raise. *)
Class Sklearn : Type := {
  Vectorizer : Type;
  Classifier : Type;
  Matrix : Type;
  n_samples : Matrix -> nat;
  n_features : Matrix -> nat;
  vocabulary_size : Vectorizer -> nat;
  n_features_in_ : Classifier -> nat;
  classes_ : Classifier -> list Z;
  fit_transform : TfidfParams -> list string -> result (Vectorizer * Matrix);
  transform : Vectorizer -> list string -> result Matrix;
  fit : LogRegParams -> Matrix -> list Z -> result Classifier;
  predict_proba : Classifier -> Matrix -> result (list (list float))
}.

(** [numpy.unique]: the distinct values, in increasing order. *)
Fixpoint insert_unique (x : Z) (l : list Z) : list Z :=
  match l with
  | [] => [x]
  | y :: l' =>
      if x <? y then x :: l
      else if x =? y then l
      else y :: insert_unique x l'
  end.

Definition unique (y : list Z) : list Z := foldr insert_unique [] y.

Definition is_probability (p : float) : bool :=
  (0 <=? p)%float && (p <=? 1)%float.

(** The documented behaviour of the four calls that the properties of the
    scorer rest on: shapes agree, a fitted vectorizer transforms any
    documents (a term outside the vocabulary adds nothing to the row),
    [classes_] is [numpy.unique] of the labels, and [predict_proba] on a
    matrix of the fitted width returns one row of class probabilities per
    sample. *)
Class SklearnLaws (sk : Sklearn) : Prop := {
  fit_transform_shape : forall p docs v X,
    fit_transform p docs = Returned (v, X) ->
    n_samples X = length docs /\ n_features X = vocabulary_size v;
  transform_shape : forall v docs,
    exists X, transform v docs = Returned X /\
              n_samples X = length docs /\ n_features X = vocabulary_size v;
  fit_attributes : forall p X y m,
    fit p X y = Returned m ->
    n_features_in_ m = n_features X /\ classes_ m = unique y;
  predict_proba_shape : forall m X,
    n_features X = n_features_in_ m ->
    exists P, predict_proba m X = Returned P /\
              length P = n_samples X /\
              Forall (fun row => length row = length (classes_ m) /\
                                 forallb is_probability row = true) P
}.

(** ** [ml_model.py] *)

Definition MODEL_DIR : string := "models".

(** [str.replace] with a one-character pattern and replacement. *)
Fixpoint replace (old new : ascii) (s : string) : string :=
  match s with
  | EmptyString => EmptyString
  | String c s' =>
      String (if Ascii.eqb c old then new else c) (replace old new s')
  end.

(** [os.path.join(MODEL_DIR, f"model_{safe}.pkl")]; the second component
    never starts with a separator, so the join is a plain concatenation. *)
Definition _model_path (job_field : string) : string :=
  let safe := replace " "%char "_"%char (replace "/"%char "_"%char job_field) in
  MODEL_DIR +:+ "/" +:+ ("model_" +:+ safe +:+ ".pkl").

(** [open(path, "wb")] for a file of an existing directory. Python refuses a
    path that holds a NUL byte ([ValueError: embedded null byte]); the file
    system refuses a last component that is empty (the path names the
    directory) or longer than [NAME_MAX] bytes ([OSError]). Nothing is
    written when it raises. What depends on the machine rather than on the
    path (a full disk, permissions) is not modelled. *)
Definition NAME_MAX : nat := 255.

Fixpoint has_char (c : ascii) (s : string) : bool :=
  match s with
  | EmptyString => false
  | String c' s' => Ascii.eqb c' c || has_char c s'
  end.

(** [os.path.basename] *)
Fixpoint basename (path : string) : string :=
  match path with
  | EmptyString => EmptyString
  | String c rest =>
      if has_char "/"%char rest then basename rest
      else if Ascii.eqb c "/"%char then rest
      else path
  end.

Definition open_wb (path : string) : result unit :=
  if has_char "000"%char path then Raised ValueError
  else if String.eqb (basename path) ""
          || (NAME_MAX <? String.length (basename path))%nat
  then Raised OSError
  else Returned tt.

(** A field name that needs no replacement: neither a slash nor a space. *)
Definition plain (job_field : string) : Prop :=
  replace " "%char "_"%char (replace "/"%char "_"%char job_field) = job_field.

Section MlModel.
Context `{sk : Sklearn}.

(** The pickled dictionary [{"vectorizer": ..., "model": ...}]. *)
Record Bundle : Type := {
  vectorizer : Vectorizer;
  model : Classifier
}.

(** A line printed on standard output. *)
Inductive LogLine : Type :=
| NotTraining (job_field : string) (n_labels : Z)
| Retrained (job_field : string) (used count : Z).

(** What the process can see and change: the database, the files of
    [MODEL_DIR] (path to unpickled content), and standard output. The file
    system is a map on exact paths; opening, pickling and unpickling are
    taken to succeed and to round-trip a bundle.
    [train_calls] is a ghost trace of the calls of [train_model], by field. *)
Record World : Type := {
  db : DB;
  files : gmap string Bundle;
  stdout : list LogLine;
  train_calls : list string
}.

Definition set_db (f : DB -> DB) (w : World) : World :=
  {| db := f (db w); files := files w; stdout := stdout w;
     train_calls := train_calls w |}.
Definition set_files (f : gmap string Bundle -> gmap string Bundle)
           (w : World) : World :=
  {| db := db w; files := f (files w); stdout := stdout w;
     train_calls := train_calls w |}.
Definition print (l : LogLine) (w : World) : World :=
  {| db := db w; files := files w; stdout := stdout w ++ [l];
     train_calls := train_calls w |}.
Definition note_train_call (job_field : string) (w : World) : World :=
  {| db := db w; files := files w; stdout := stdout w;
     train_calls := train_calls w ++ [job_field] |}.

Definition tfidf_params : TfidfParams :=
  {| stop_words := Some "english"; max_features := Some 5000 |}.
Definition logreg_params : LogRegParams :=
  {| max_iter := 1000; class_weight := Some "balanced" |}.

(** [len(set(labels))] *)
Definition len_set (labels : list Z) : Z :=
  Z.of_nat (size (list_to_set labels : gset Z)).

Definition train_model (job_field : string) : M World Z :=
  modify (note_train_call job_field);;
  let* rows := gets (fun w => select_training_rows (db w) job_field) in
  match rows with
  | [] => ret 0
  | _ =>
    let texts := text <$> rows in
    let labels := label <$> rows in
    if len_set labels <? 2 then
      modify (print (NotTraining job_field (Z.of_nat (length labels))));;
      ret 0
    else
      let* fitted := lift (fit_transform tfidf_params texts) in
      let (vectorizer, X) := fitted in
      let* model := lift (fit logreg_params X labels) in
      let bundle := {| vectorizer := vectorizer; model := model |} in
      let path := _model_path job_field in
      lift (open_wb path);;
      modify (set_files <[path := bundle]>);;
      ret (Z.of_nat (length texts))
  end.

Definition _load_model_bundle (job_field : string) : M World (option Bundle) :=
  let path := _model_path job_field in
  gets (fun w => files w !! path).

Definition score_text (text : string) (job_field : string)
  : M World (option float) :=
  let* bundle := _load_model_bundle job_field in
  match bundle with
  | None => ret None
  | Some bundle =>
    let vectorizer := vectorizer bundle in
    let model := model bundle in
    let* X := lift (transform vectorizer [text]) in
    let* proba := lift (predict_proba model X) in
    let* row := lift (getitem proba 0) in
    let* prob := lift (getitem row 1) in
    ret (Some prob)
  end.

(** ** [app.py]: sessions, requests and responses *)

Record Session : Type := {
  user_id : option Z;
  role : option string;
  swipe_field : option string;
  swipe_order : option (list Z);
  swipe_index : option Z;
  flashes : list string
}.

Inductive Method : Type := GET | POST.

(** The form of a POST to [/swipe]: [request.form.get("choice")], and the
    outcome of [int(request.form.get("resume_id"))], which raises on a
    missing or malformed value. *)
Record Form : Type := {
  choice : option string;
  resume_id : result Z
}.

(** The row the swipe page shows. *)
Record Card : Type := {
  c_id : Z;
  c_filename : string;
  c_job_field : string;
  c_first_name : string;
  c_last_name : string
}.

Inductive Message : Type :=
| NotEnoughData
| Favorable
| Mixed
| NeedsImprovement.

Inductive Response : Type :=
| redirect (endpoint : string)
| render_swipe_done
| render_swipe (resume : Card)
| render_feedback (resume : Resume) (score_pct : option Z)
                  (feedback_message : string).

(** The state of one request: the caller's session and the shared world. *)
Record App : Type := {
  session : Session;
  world : World
}.

Definition on_world {A} (c : M World A) : M App A :=
  fun a => let (r, w) := c (world a) in
           (r, {| session := session a; world := w |}).

Definition set_session (f : Session -> Session) : M App unit :=
  modify (fun a => {| session := f (session a); world := world a |}).

Definition with_flash (msg : string) (s : Session) : Session :=
  {| user_id := user_id s; role := role s; swipe_field := swipe_field s;
     swipe_order := swipe_order s; swipe_index := swipe_index s;
     flashes := flashes s ++ [msg] |}.

Definition with_swipe_order (order : list Z) (s : Session) : Session :=
  {| user_id := user_id s; role := role s; swipe_field := swipe_field s;
     swipe_order := Some order; swipe_index := swipe_index s;
     flashes := flashes s |}.

Definition with_swipe_index (index : Z) (s : Session) : Session :=
  {| user_id := user_id s; role := role s; swipe_field := swipe_field s;
     swipe_order := swipe_order s; swipe_index := Some index;
     flashes := flashes s |}.

Definition flash (msg : string) : M App unit :=
  set_session (with_flash msg).

(** [session["swipe_order"] = order] and [session["swipe_index"] = index] *)
Definition set_swipe_order (order : list Z) : M App unit :=
  set_session (with_swipe_order order).

Definition set_swipe_index (index : Z) : M App unit :=
  set_session (with_swipe_index index).

(** [session[key]]: a missing key raises [KeyError]. *)
Definition session_item {A} (get : Session -> option A) : M App A :=
  let* v := gets (fun a => get (session a)) in
  match v with
  | Some x => ret x
  | None => raise KeyError
  end.

(** The decorator [login_required]. *)
Definition login_required (f : M App Response) : M App Response :=
  let* uid := gets (fun a => user_id (session a)) in
  match uid with
  | None => flash "Please log in first.";; ret (redirect "login")
  | Some _ => f
  end.

(** *** The queries of the two routes *)

(** [INSERT INTO swipes (resume_id, user_id, label)]: the id is the
    AUTOINCREMENT key, one more than the largest one in the table. *)
Definition next_swipe_id (d : DB) : Z :=
  1 + fold_right Z.max 0 (s_id <$> swipes d).

Definition insert_swipe (resume_id user_id label : Z) (d : DB) : DB :=
  {| users := users d;
     resumes := resumes d;
     swipes := swipes d ++ [{| s_id := next_swipe_id d;
                               s_resume_id := resume_id;
                               s_user_id := user_id;
                               s_label := label |}] |}.

(** [SELECT id FROM swipes WHERE resume_id = ? AND user_id = ?] *)
Definition select_existing_swipe (d : DB) (resume_id user_id : Z) : list Z :=
  s_id <$> filter (fun s => s_resume_id s = resume_id /\ s_user_id s = user_id)
                  (swipes d).

(** [SELECT id FROM resumes WHERE job_field = ?] *)
Definition select_resume_ids (d : DB) (job_field : string) : list Z :=
  r_id <$> filter (fun r => r_job_field r = job_field) (resumes d).

(** The resume of the swipe page: [resumes JOIN users ON resumes.user_id =
    users.id WHERE resumes.id = ?]. *)
Definition select_card (d : DB) (id : Z) : list Card :=
  r ← filter (fun r => r_id r = id) (resumes d);
  u ← filter (fun u => r_user_id r = u_id u) (users d);
  [{| c_id := r_id r; c_filename := r_filename r;
      c_job_field := r_job_field r;
      c_first_name := u_first_name u; c_last_name := u_last_name u |}].

(** [WHERE user_id = ? ORDER BY uploaded_at DESC, id DESC LIMIT 1] *)
Definition later (a b : Resume) : bool :=
  (r_uploaded_at b <? r_uploaded_at a)
  || ((r_uploaded_at a =? r_uploaded_at b) && (r_id b <? r_id a)).

Definition select_latest_resume (d : DB) (user_id : Z) : list Resume :=
  match filter (fun r => r_user_id r = user_id) (resumes d) with
  | [] => []
  | r :: rs => [fold_left (fun best x => if later x best then x else best) rs r]
  end.

(** *** [swipe] *)

(** The outcome of [random.shuffle] on the list of ids. *)
Variable shuffle : list Z -> list Z.

(** [choice in ("mash", "like")] *)
Definition is_like (choice : option string) : bool :=
  match choice with
  | Some c => String.eqb c "mash" || String.eqb c "like"
  | None => false
  end.

(** The POST branch: records the swipe, retrains on every tenth swipe of the
    field, and moves to the next resume. Returns the new index. *)
Definition swipe_post (job_field : string) (form : Form) (index : Z)
  : M App Z :=
  let choice := choice form in
  let* resume_id := lift (resume_id form) in
  let label := if is_like choice then 1 else 0 in
  let* recruiter_id := session_item user_id in
  let* existing_swipe :=
    gets (fun a => select_existing_swipe (db (world a)) resume_id recruiter_id) in
  match existing_swipe with
  | [] =>
    on_world (modify (set_db (insert_swipe resume_id recruiter_id label)));;
    let* count := gets (fun a => select_swipe_count (db (world a)) job_field) in
    if count mod 10 =? 0 then
      let* used := on_world (train_model job_field) in
      on_world (modify (print (Retrained job_field used count)))
    else ret tt
  | _ :: _ => ret tt
  end;;
  let index := index + 1 in
  set_swipe_index index;;
  ret index.

(** The part of [swipe] that builds the order of the session when it has
    none; [Some r] is an early return. *)
Definition swipe_init_order (job_field : string) : M App (option Response) :=
  let* known := gets (fun a => swipe_order (session a)) in
  match known with
  | Some _ => ret None
  | None =>
    let* rows := gets (fun a => select_resume_ids (db (world a)) job_field) in
    match rows with
    | [] =>
      flash "No resumes available yet for this field.";;
      ret (Some (redirect "swipe_select"))
    | _ :: _ =>
      let order := shuffle rows in
      set_swipe_order order;;
      set_swipe_index 0;;
      ret None
    end
  end.

(** The end of [swipe]: the page shown for position [index] of [order]. *)
Definition swipe_render (order : list Z) (index : Z) : M App Response :=
  if Z.of_nat (length order) <=? index then ret render_swipe_done
  else
    let* current_resume_id := lift (getitem order index) in
    let* rows := gets (fun a => select_card (db (world a)) current_resume_id) in
    let* resume := lift (getitem rows 0) in
    ret (render_swipe resume).

Definition swipe (method : Method) (form : Form) : M App Response :=
  login_required (
    let* role := gets (fun a => role (session a)) in
    if negb (bool_decide (role = Some "recruiter")) then
      flash "Only recruiters can swipe resumes.";;
      ret (redirect "index")
    else
    let* job_field := gets (fun a => swipe_field (session a)) in
    match job_field with
    | None | Some "" =>
      flash "Please choose a job field first.";;
      ret (redirect "swipe_select")
    | Some job_field =>
      let* early := swipe_init_order job_field in
      match early with
      | Some response => ret response
      | None =>
        let* order := session_item swipe_order in
        let* index := gets (fun a => default 0 (swipe_index (session a))) in
        let* index :=
          match method with
          | POST => swipe_post job_field form index
          | GET => ret index
          end in
        swipe_render order index
      end
    end).

(** *** [feedback] *)

(** [round(x)] on a float: the nearest integer, ties to the even one; it
    raises on an infinity or a NaN. *)
Definition round (x : float) : result Z :=
  match Prim2SF x with
  | S754_zero _ => Returned 0
  | S754_infinity _ => Raised OverflowError
  | S754_nan => Raised ValueError
  | S754_finite s m e =>
    let m := Z.pos m in
    let n :=
      if 0 <=? e then m * 2 ^ e
      else
        let d := 2 ^ (- e) in
        let q := m / d in
        let r := m mod d in
        if 2 * r <? d then q
        else if d <? 2 * r then q + 1
        else if Z.even q then q else q + 1 in
    Returned (if s then - n else n)
  end.

Definition message_text (m : Message) : string :=
  match m with
  | NotEnoughData =>
    "Our AI doesn't have enough recruiter swipe data yet to give " +:+
    "reliable feedback. Ask recruiters to swipe more resumes, then try again."
  | Favorable =>
    "Your resume currently scores very well. Recruiters whose swipes " +:+
    "trained this model tend to like resumes like yours."
  | Mixed =>
    "Your resume is in a solid range, but there’s room to improve. " +:+
    "Tighten bullets, quantify impact, and make sure your strongest " +:+
    "experiences and skills are front and center."
  | NeedsImprovement =>
    "Right now, the model predicts your resume might not perform as well " +:+
    "with recruiters. Focus on clearer structure, stronger action verbs, " +:+
    "and concrete numbers that show what you actually achieved."
  end.

(** The bucketed message of an integer percentage. *)
Definition bucket (score_pct : Z) : Message :=
  if 80 <=? score_pct then Favorable
  else if 50 <=? score_pct then Mixed
  else NeedsImprovement.

(** The two outputs of the route, from the result of [score_text]. *)
Definition feedback_outputs (raw_score : option float)
  : result (option Z * Message) :=
  match raw_score with
  | None => Returned (None, NotEnoughData)
  | Some raw_score =>
    match round (raw_score * 100)%float with
    | Returned score_pct => Returned (Some score_pct, bucket score_pct)
    | Raised e => Raised e
    end
  end.

Definition feedback : M App Response :=
  login_required (
    let* role := gets (fun a => role (session a)) in
    if negb (bool_decide (role = Some "candidate")) then
      flash "Only candidates can view resume feedback.";;
      ret (redirect "index")
    else
    let* user_id := session_item user_id in
    let* rows := gets (fun a => select_latest_resume (db (world a)) user_id) in
    match rows with
    | [] =>
      flash "Upload a resume first to get feedback.";;
      ret (redirect "upload")
    | resume :: _ =>
      let* raw_score :=
        on_world (score_text (r_text resume) (r_job_field resume)) in
      let* out := lift (feedback_outputs raw_score) in
      ret (render_feedback resume out.1 (message_text out.2))
    end).

End MlModel.

(** ** Worlds the application can be in *)

Section Reachability.
Context `{sk : Sklearn}.

(** Rows added by [register] and by [upload] or the bulk import. *)
Definition add_user (u : User) (d : DB) : DB :=
  {| users := users d ++ [u]; resumes := resumes d; swipes := swipes d |}.
Definition add_resume (r : Resume) (d : DB) : DB :=
  {| users := users d; resumes := resumes d ++ [r]; swipes := swipes d |}.

(** A fresh deployment: no swipe recorded, no model file written. *)
Definition initial (w : World) : Prop :=
  files w = ∅ /\ swipes (db w) = [].

(** One request, or one direct call of the trainer. *)
Inductive step : World -> World -> Prop :=
| step_add_user w u : step w (set_db (add_user u) w)
| step_add_resume w r : step w (set_db (add_resume r) w)
| step_swipe shuffle method form s w :
    step w (world (swipe shuffle method form {| session := s; world := w |}).2)
| step_feedback s w :
    step w (world (feedback {| session := s; world := w |}).2)
| step_train job_field w :
    step w (train_model job_field w).2.

Inductive reachable : World -> Prop :=
| reachable_initial w : initial w -> reachable w
| reachable_step w w' : reachable w -> step w w' -> reachable w'.

(** Every recorded label is 0 or 1. *)
Definition binary_labels (d : DB) : Prop :=
  Forall (fun s => s_label s = 0 \/ s_label s = 1) (swipes d).

(** A stored pair fits together: the classifier was fitted on the width of
    its vectorizer's vocabulary, and on both labels. *)
Definition coherent (b : Bundle) : Prop :=
  n_features_in_ (model b) = vocabulary_size (vectorizer b)
  /\ classes_ (model b) = [0; 1].

(** Every model file is the file of a field that has a recorded swipe. *)
Definition files_have_swipes (w : World) : Prop :=
  forall path, is_Some (files w !! path) ->
    exists g, _model_path g = path /\ 0 < select_swipe_count (db w) g.

Definition world_ok (w : World) : Prop :=
  binary_labels (db w) /\ map_Forall (fun _ b => coherent b) (files w).

End Reachability.

(** [preserves I c]: running [c] keeps the property [I] of the world, whether
    [c] returns or raises. *)
Definition preserves `{sk : Sklearn} {A} (I : World -> Prop) (c : M App A)
  : Prop :=
  forall a, I (world a) -> I (world (c a).2).

(** [keeps_session J c]: running [c] keeps the property [J] of the session. *)
Definition keeps_session `{sk : Sklearn} {A} (J : Session -> Prop)
           (c : M App A) : Prop :=
  forall a, J (session a) -> J (session (c a).2).

(** ** [app.py]: the other routes *)

(** The swipe table never holds two rows of one recruiter on one resume. *)
Definition no_duplicate_swipes (d : DB) : Prop :=
  NoDup ((fun s => (s_resume_id s, s_user_id s)) <$> swipes d).

(** [needle in hay] on strings. *)
Fixpoint contains (needle hay : string) : bool :=
  String.prefix needle hay
  || match hay with
     | EmptyString => false
     | String _ hay' => contains needle hay'
     end.

(** [s.rsplit(sep, 1)] for a one-character separator: the string itself when
    the separator does not occur, else what is before and after its last
    occurrence. *)
Fixpoint rsplit1 (sep : ascii) (s : string) : list string :=
  match s with
  | EmptyString => [EmptyString]
  | String c s' =>
      match rsplit1 sep s' with
      | [head; tail] => [String c head; tail]
      | _ => if Ascii.eqb c sep then [EmptyString; s'] else [s]
      end
  end.

Definition UPLOAD_FOLDER : string := "uploads".
Definition ALLOWED_EXTENSIONS : list string := ["pdf"].

(** The answers of the routes that show neither the swipe page nor the
    feedback page. *)
Inductive Reply : Type :=
| respond (response : Response)
| render_template (template : string)
| render_swipe_select (fields : list (string * string))
| send_from_directory (directory filename : string).

Definition with_swipe_field (job_field : string) (s : Session) : Session :=
  {| user_id := user_id s; role := role s; swipe_field := Some job_field;
     swipe_order := swipe_order s; swipe_index := swipe_index s;
     flashes := flashes s |}.

(** [session.pop("swipe_order", None)] and [session.pop("swipe_index", None)] *)
Definition pop_swipe_order (s : Session) : Session :=
  {| user_id := user_id s; role := role s; swipe_field := swipe_field s;
     swipe_order := None; swipe_index := swipe_index s;
     flashes := flashes s |}.

Definition pop_swipe_index (s : Session) : Session :=
  {| user_id := user_id s; role := role s; swipe_field := swipe_field s;
     swipe_order := swipe_order s; swipe_index := None;
     flashes := flashes s |}.

(** [session.clear()]: every key goes, the pending flashes with them. *)
Definition clear (s : Session) : Session :=
  {| user_id := None; role := None; swipe_field := None;
     swipe_order := None; swipe_index := None; flashes := [] |}.

Section Routes.
Context `{sk : Sklearn}.

(** Python's [str.lower], which knows all of Unicode. *)
Variable lower : string -> string.

(** [allowed_file]: the second operand of [and] is evaluated only when the
    name holds a dot. *)
Definition allowed_file (filename : string) : result bool :=
  if contains "." filename then
    match getitem (rsplit1 "."%char filename) 1 with
    | Returned ext => Returned (bool_decide (lower ext ∈ ALLOWED_EXTENSIONS))
    | Raised e => Raised e
    end
  else Returned false.

(** The decorator [login_required] around a route with another answer type. *)
Definition login_required_as {A} (wrap : Response -> A) (f : M App A)
  : M App A :=
  let* uid := gets (fun a => user_id (session a)) in
  match uid with
  | None => flash "Please log in first.";; ret (wrap (redirect "login"))
  | Some _ => f
  end.

Definition index : M App Reply := ret (render_template "index.html").

Definition logout : M App Reply :=
  set_session clear;;
  flash "You have been logged out.";;
  ret (respond (redirect "index")).

Definition swipe_select_fields : list (string * string) :=
  [("software", "Software / Engineering");
   ("data", "Data / Analytics");
   ("finance", "Finance");
   ("consulting", "Consulting");
   ("marketing", "Marketing");
   ("product", "Product Management");
   ("general", "General / Other")].

(** [chosen] is [request.form.get("job_field")]. *)
Definition swipe_select (method : Method) (chosen : option string)
  : M App Reply :=
  login_required_as respond (
    let* role := gets (fun a => role (session a)) in
    if negb (bool_decide (role = Some "recruiter")) then
      flash "Only recruiters can swipe resumes.";;
      ret (respond (redirect "index"))
    else
    let fields := swipe_select_fields in
    match method with
    | POST =>
      match chosen with
      | None | Some "" =>
        flash "Please select a field.";;
        ret (respond (redirect "swipe_select"))
      | Some chosen =>
        set_session (with_swipe_field chosen);;
        set_session pop_swipe_order;;
        set_session pop_swipe_index;;
        ret (respond (redirect "swipe"))
      end
    | GET => ret (render_swipe_select fields)
    end).

Definition swipe_reset : M App Reply :=
  login_required_as respond (
    let* role := gets (fun a => role (session a)) in
    if negb (bool_decide (role = Some "recruiter")) then
      flash "Only recruiters can reset swipes.";;
      ret (respond (redirect "index"))
    else
    set_session pop_swipe_index;;
    set_session pop_swipe_order;;
    ret (respond (redirect "swipe"))).

(** [SELECT id, user_id FROM resumes WHERE filename = ? LIMIT 1] *)
Definition select_resume_by_filename (d : DB) (filename : string)
  : list (Z * Z) :=
  take 1 ((fun r => (r_id r, r_user_id r))
            <$> filter (fun r => r_filename r = filename) (resumes d)).

(** Whether the file is on disk is for [send_from_directory] to find out;
    the route decides who may ask for it. *)
Definition uploaded_file (filename : string) : M App Reply :=
  login_required_as respond (
    let* rows :=
      gets (fun a => select_resume_by_filename (db (world a)) filename) in
    match rows with
    | [] =>
      flash "File not found.";;
      ret (respond (redirect "index"))
    | row :: _ =>
      let owner_id := row.2 in
      let* current_id := gets (fun a => user_id (session a)) in
      let* role := gets (fun a => role (session a)) in
      if negb (bool_decide (role = Some "recruiter"))
         && negb (bool_decide (current_id = Some owner_id)) then
        flash "You do not have permission to view this resume.";;
        ret (respond (redirect "index"))
      else ret (send_from_directory UPLOAD_FOLDER filename)
    end).

End Routes.

(** ** [bulk_import_resumes.py]: the guess of the job field *)

(** [sep.join(parts)] *)
Fixpoint join (sep : string) (parts : list string) : string :=
  match parts with
  | [] => EmptyString
  | [p] => p
  | p :: rest => p +:+ sep +:+ join sep rest
  end.

Definition software_keywords : list string :=
  ["software engineer"; "software developer"; "developer"; "programmer";
   "python"; "java"; "c++"; "c#"; "javascript"; "typescript"; "react";
   "node"; "api"; "backend"; "front end"; "frontend";
   "computer science"; "cs major"; "git"; "github"].

Definition data_keywords : list string :=
  ["data scientist"; "data science"; "data analyst"; "analytics";
   "machine learning"; "ml engineer"; "pandas"; "numpy"; "sql";
   "statistics"; "regression"; "tableau"; "power bi"; "ga4"].

Definition finance_keywords : list string :=
  ["investment banking"; "investment banker"; "private equity";
   "hedge fund"; "trading"; "trader"; "financial analyst";
   "equity research"; "valuation"; "dcf"; "discounted cash flow";
   "leveraged buyout"; "lbo"; "m&a"; "capital markets"].

Definition consulting_keywords : list string :=
  ["consultant"; "consulting"; "strategy consultant"; "management consulting";
   "mckinsey"; "bain"; "bcg"; "case interview"; "client engagement"].

Definition marketing_keywords : list string :=
  ["marketing"; "social media"; "seo"; "sem"; "campaign"; "digital ads";
   "content creator"; "brand"; "branding"; "advertising"; "copywriting"].

Definition product_keywords : list string :=
  ["product manager"; "product management"; "product owner";
   "product roadmap"; "user stories"; "requirements gathering";
   "feature prioritization"; "a/b test"; "ab test"; "user research"].

(** The dictionary [scores], in insertion order (the order [max] walks it). *)
Definition initial_scores : list (string * Z) :=
  [("software", 0); ("data", 0); ("finance", 0); ("consulting", 0);
   ("marketing", 0); ("product", 0)].

(** [scores[field] += weight] *)
Fixpoint add_score (field : string) (weight : Z) (scores : list (string * Z))
  : list (string * Z) :=
  match scores with
  | [] => []
  | (k, v) :: rest =>
      if String.eqb k field then (k, v + weight) :: rest
      else (k, v) :: add_score field weight rest
  end.

(** The helper [bump], with the dictionary it closes over passed along. *)
Definition bump (combined : string) (field : string) (kws : list string)
           (weight : Z) (scores : list (string * Z)) : list (string * Z) :=
  foldl (fun scores kw =>
           if contains kw combined then add_score field weight scores
           else scores)
        scores kws.

(** [scores.get(key)] on a key of the dictionary. *)
Definition score_of (scores : list (string * Z)) (key : string) : Z :=
  match filter (fun kv => kv.1 = key) scores with
  | (_, v) :: _ => v
  | [] => 0
  end.

(** [max(scores, key=scores.get)]: the first key with the largest value. *)
Definition max_key (scores : list (string * Z)) : result string :=
  match scores with
  | [] => Raised ValueError
  | (k, _) :: rest =>
      Returned (foldl (fun best kv =>
                         if score_of scores best <? score_of scores kv.1
                         then kv.1 else best)
                      k rest)
  end.

Section Importer.

(** Python's [str.lower] and [str.strip], which know all of Unicode. *)
Variable lower : string -> string.
Variable strip : string -> string.

Definition scores_for (combined : string) : list (string * Z) :=
  let scores := initial_scores in
  let scores := bump combined "software" software_keywords 2 scores in
  let scores := bump combined "data" data_keywords 2 scores in
  let scores := bump combined "finance" finance_keywords 2 scores in
  let scores := bump combined "consulting" consulting_keywords 2 scores in
  let scores := bump combined "marketing" marketing_keywords 2 scores in
  let scores := bump combined "product" product_keywords 2 scores in
  scores.

Definition guess_job_field (text filename pdf_title : option string)
  : result string :=
  let combined :=
    lower (join " " [default "" text; default "" filename;
                     default "" pdf_title]) in
  if String.eqb (strip combined) "" then Returned "general"
  else
    let scores := scores_for combined in
    match max_key scores with
    | Raised e => Raised e
    | Returned best_field =>
        if score_of scores best_field =? 0 then Returned "general"
        else Returned best_field
    end.

End Importer.

(** The keys of [scores] in order, the keywords bumped for each, and the
    number of keywords of a list that occur in a text. *)
Definition job_fields : list string :=
  ["software"; "data"; "finance"; "consulting"; "marketing"; "product"].

Definition keywords_of (field : string) : list string :=
  if String.eqb field "software" then software_keywords
  else if String.eqb field "data" then data_keywords
  else if String.eqb field "finance" then finance_keywords
  else if String.eqb field "consulting" then consulting_keywords
  else if String.eqb field "marketing" then marketing_keywords
  else if String.eqb field "product" then product_keywords
  else [].

Definition hits (combined : string) (kws : list string) : Z :=
  Z.of_nat (length (filter (fun kw => contains kw combined = true) kws)).

(** ** [app.py]: accounts and uploads

    The table [users] has more columns than the record [User] keeps. The
    others live in [accounts], row for row under the same id: an insert into
    [users] adds a row to both. The key [username] of the session, which
    [register] and [login] write and no route reads, is not kept. *)

Record Account : Type := {
  a_id : Z;
  a_username : string;
  a_hash : string;
  a_role : string;
  a_email : string;
  a_phone : string
}.

(** The form of [/register]. *)
Record RegisterForm : Type := {
  reg_username : option string;
  reg_password : option string;
  reg_confirmation : option string;
  reg_role : option string;
  reg_first_name : option string;
  reg_last_name : option string;
  reg_email : option string;
  reg_phone : option string
}.

(** A form value is truthy when it is there and not empty. *)
Definition truthy (v : option string) : bool :=
  match v with
  | Some (String _ _) => true
  | _ => false
  end.

Definition with_user_id (uid : Z) (s : Session) : Session :=
  {| user_id := Some uid; role := role s; swipe_field := swipe_field s;
     swipe_order := swipe_order s; swipe_index := swipe_index s;
     flashes := flashes s |}.

Definition with_role (r : string) (s : Session) : Session :=
  {| user_id := user_id s; role := Some r; swipe_field := swipe_field s;
     swipe_order := swipe_order s; swipe_index := swipe_index s;
     flashes := flashes s |}.

Section Accounts.
Context `{sk : Sklearn}.

(** werkzeug's password hashing and file-name cleaning, PyPDF2's reader
    (the texts of the pages, or the exception it raised), and Python's
    Unicode-aware [str.lower] and [str.strip]. The salt that
    [generate_password_hash] draws is not kept: the hash is a function of
    the password. [secure_filename] returns no name that starts with a
    slash, so that [os.path.join] puts the name behind [UPLOAD_FOLDER]. *)
Variable generate_password_hash : string -> string.
Variable check_password_hash : string -> string -> bool.
Variable secure_filename : string -> string.
Context {Pdf : Type}.
Variable extract_pages : Pdf -> result (list string).
Variable lower : string -> string.
Variable strip : string -> string.

(** The state a request runs in: the session and the world, the other
    columns of [users], and the files of [UPLOAD_FOLDER]. *)
Record Site : Type := {
  site_app : App;
  accounts : list Account;
  uploads : gmap string Pdf
}.

Definition on_app {A} (c : M App A) : M Site A :=
  fun s => let (r, a) := c (site_app s) in
           (r, {| site_app := a; accounts := accounts s;
                  uploads := uploads s |}).

Definition site_db (s : Site) : DB := db (world (site_app s)).

(** [INSERT INTO users (username, hash, role, first_name, last_name, email,
    phone)], under the next id. *)
Definition next_user_id (d : DB) : Z :=
  1 + fold_right Z.max 0 (u_id <$> users d).

Definition insert_user (username hash role first_name last_name email phone
                        : string) (s : Site) : Site :=
  let id := next_user_id (site_db s) in
  {| site_app := {| session := session (site_app s);
               world := set_db (add_user {| u_id := id;
                                            u_first_name := first_name;
                                            u_last_name := last_name |})
                               (world (site_app s)) |};
     accounts := accounts s ++ [{| a_id := id; a_username := username;
                                   a_hash := hash; a_role := role;
                                   a_email := email; a_phone := phone |}];
     uploads := uploads s |}.

(** [SELECT ... FROM users WHERE username = ?] *)
Definition select_accounts (s : Site) (username : string) : list Account :=
  filter (fun a => a_username a = username) (accounts s).

Definition register (method : Method) (form : RegisterForm) : M Site Reply :=
  match method with
  | POST =>
    let username := reg_username form in
    let password := reg_password form in
    let confirmation := reg_confirmation form in
    let role := reg_role form in
    let first_name := reg_first_name form in
    let last_name := reg_last_name form in
    let email := reg_email form in
    let phone := reg_phone form in
    if negb (forallb truthy [username; password; confirmation; role;
                             first_name; last_name; email; phone]) then
      on_app (flash "Please fill out all fields.");;
      ret (respond (redirect "register"))
    else if negb (bool_decide (password = confirmation)) then
      on_app (flash "Passwords do not match.");;
      ret (respond (redirect "register"))
    else if negb (bool_decide (role = Some "candidate"
                               \/ role = Some "recruiter")) then
      on_app (flash "Invalid role selected.");;
      ret (respond (redirect "register"))
    else
    let username := default "" username in
    let* rows := gets (fun s => select_accounts s username) in
    match rows with
    | _ :: _ =>
      on_app (flash "Username already taken.");;
      ret (respond (redirect "register"))
    | [] =>
      let hash_ := generate_password_hash (default "" password) in
      modify (insert_user username hash_ (default "" role)
                (default "" first_name) (default "" last_name)
                (default "" email) (default "" phone));;
      let* rows := gets (fun s => select_accounts s username) in
      let* user := lift (getitem rows 0) in
      on_app (set_session (with_user_id (a_id user)));;
      on_app (set_session (with_role (a_role user)));;
      on_app (flash "Account created. You are now logged in.");;
      ret (respond (redirect "index"))
    end
  | GET => ret (render_template "register.html")
  end.

Definition login (method : Method) (username password : option string)
  : M Site Reply :=
  on_app (set_session clear);;
  match method with
  | POST =>
    if negb (truthy username) || negb (truthy password) then
      on_app (flash "Please provide username and password.");;
      ret (respond (redirect "login"))
    else
    let* rows := gets (fun s => select_accounts s (default "" username)) in
    match rows with
    | [user] =>
      if negb (check_password_hash (a_hash user) (default "" password)) then
        on_app (flash "Invalid username and/or password.");;
        ret (respond (redirect "login"))
      else
        on_app (set_session (with_user_id (a_id user)));;
        on_app (set_session (with_role (a_role user)));;
        on_app (flash "Logged in successfully.");;
        ret (respond (redirect "index"))
    | _ =>
      on_app (flash "Invalid username and/or password.");;
      ret (respond (redirect "login"))
    end
  | GET => ret (render_template "login.html")
  end.

(** *** [upload] *)

(** [request.files["resume"]]: the name the browser sent, and the content. *)
Record FileStorage : Type := {
  fs_filename : string;
  fs_content : Pdf
}.

(** [INSERT INTO resumes (user_id, filename, text, job_field)]: the next id,
    and the clock for [uploaded_at]. *)
Definition next_resume_id (d : DB) : Z :=
  1 + fold_right Z.max 0 (r_id <$> resumes d).

Definition insert_resume (user_id : Z) (filename text job_field : string)
           (now : Z) (d : DB) : DB :=
  add_resume {| r_id := next_resume_id d; r_user_id := user_id;
                r_filename := filename; r_text := text;
                r_job_field := job_field; r_uploaded_at := now |} d.

(** [SELECT id FROM resumes WHERE user_id = ? AND text = ? AND job_field = ?] *)
Definition select_same_resume (d : DB) (user_id : Z) (text job_field : string)
  : list Z :=
  r_id <$> filter (fun r => r_user_id r = user_id /\ r_text r = text
                            /\ r_job_field r = job_field) (resumes d).

(** [resume_file.save(path)]: the path is opened for writing, which may
    raise, and the content copied. *)
Definition save (path : string) (content : Pdf) : M Site unit :=
  lift (open_wb path);;
  modify (fun s => {| site_app := site_app s; accounts := accounts s;
                      uploads := <[path := content]> (uploads s) |}).

Definition NO_TEXT : string := "(No text could be extracted from this PDF.)".

(** The text of the file: the non-empty page texts joined by line feeds and
    stripped; empty when the reader raised. (The line the handler prints in
    that case is not kept: [stdout] holds the lines of the trainer.) *)
Definition extract_text (content : Pdf) : string :=
  match extract_pages content with
  | Returned pages =>
      strip (join (String "010"%char "")
                  (filter (fun page_text => page_text <> "") pages))
  | Raised _ => ""
  end.

Definition upload (method : Method) (resume : option FileStorage)
           (job_field : option string) (now : Z) : M Site Reply :=
  let* uid := gets (fun s => user_id (session (site_app s))) in
  match uid with
  | None =>
    on_app (flash "Please log in first.");;
    ret (respond (redirect "login"))
  | Some _ =>
    let* role := gets (fun s => role (session (site_app s))) in
    if negb (bool_decide (role = Some "candidate")) then
      on_app (flash "Only candidates can upload resumes.");;
      ret (respond (redirect "index"))
    else
    match method with
    | POST =>
      match resume with
      | None =>
        on_app (flash "No file part in the request.");;
        ret (respond (redirect "upload"))
      | Some resume_file =>
        if String.eqb (fs_filename resume_file) "" then
          on_app (flash "Please choose a file before submitting.");;
          ret (respond (redirect "upload"))
        else if negb (truthy job_field) then
          on_app (flash "Please select what kind of job you're targeting.");;
          ret (respond (redirect "upload"))
        else
        let job_field := default "" job_field in
        let* allowed := lift (allowed_file lower (fs_filename resume_file)) in
        if negb allowed then
          on_app (flash "Only PDF files are allowed.");;
          ret (respond (redirect "upload"))
        else
        let filename := secure_filename (fs_filename resume_file) in
        let filepath := UPLOAD_FOLDER +:+ "/" +:+ filename in
        save filepath (fs_content resume_file);;
        let full_text := extract_text (fs_content resume_file) in
        let full_text :=
          if String.eqb full_text "" then NO_TEXT else full_text in
        let* user_id := on_app (session_item user_id) in
        let* existing :=
          gets (fun s => select_same_resume (site_db s) user_id full_text
                                            job_field) in
        match existing with
        | _ :: _ =>
          on_app (flash ("You already uploaded this resume for this job " +:+
                         "field. Try uploading an updated version instead."));;
          ret (respond (redirect "feedback"))
        | [] =>
          on_app (on_world (modify (set_db
            (insert_resume user_id filename full_text job_field now))));;
          on_app (flash "Resume uploaded!");;
          ret (respond (redirect "feedback"))
        end
      end
    | GET => ret (render_template "upload.html")
    end
  end.

(** *** The whole application, request by request *)

(** A request to one of the routes. *)
Inductive Request : Type :=
| ToIndex
| ToRegister (method : Method) (form : RegisterForm)
| ToLogin (method : Method) (username password : option string)
| ToLogout
| ToUpload (method : Method) (resume : option FileStorage)
         (job_field : option string) (now : Z)
| ToSwipe (shuffle : list Z -> list Z) (method : Method) (form : Form)
| ToSwipeSelect (method : Method) (chosen : option string)
| ToSwipeReset
| ToUploadedFile (filename : string)
| ToFeedback.

(** The state a request leaves behind, whatever it answered. *)
Definition serve (r : Request) (s : Site) : Site :=
  match r with
  | ToIndex => (on_app index s).2
  | ToRegister method form => (register method form s).2
  | ToLogin method username password => (login method username password s).2
  | ToLogout => (on_app logout s).2
  | ToUpload method resume job_field now =>
      (upload method resume job_field now s).2
  | ToSwipe shuffle method form => (on_app (swipe shuffle method form) s).2
  | ToSwipeSelect method chosen => (on_app (swipe_select method chosen) s).2
  | ToSwipeReset => (on_app swipe_reset s).2
  | ToUploadedFile filename => (on_app (uploaded_file filename) s).2
  | ToFeedback => (on_app feedback s).2
  end.

(** The server and its clients. A session is a signed cookie that the client
    keeps: [cookies] holds every session the server has handed out, and a
    request may come with any of them, and with no other. (The key that signs
    them is the constant "dev" of [app.py]; a session that a client signs
    itself is outside [served].) *)
Record System : Type := {
  cookies : list Session;
  server : Site
}.

Definition no_session : Session :=
  {| user_id := None; role := None; swipe_field := None;
     swipe_order := None; swipe_index := None; flashes := [] |}.

Definition with_cookie (c : Session) (s : Site) : Site :=
  {| site_app := {| session := c; world := world (site_app s) |};
     accounts := accounts s; uploads := uploads s |}.

(** A fresh deployment: empty tables, no model file, and clients without a
    session. *)
Definition fresh (S : System) : Prop :=
  cookies S = [no_session]
  /\ users (site_db (server S)) = []
  /\ resumes (site_db (server S)) = []
  /\ swipes (site_db (server S)) = []
  /\ accounts (server S) = []
  /\ files (world (site_app (server S))) = ∅.

Inductive served : System -> Prop :=
| served_fresh S : fresh S -> served S
| served_request S c r :
    served S -> c ∈ cookies S ->
    served {| cookies :=
                session (site_app (serve r (with_cookie c (server S))))
                :: cookies S;
              server := serve r (with_cookie c (server S)) |}.

(** The two halves of [users] agree; user names and ids are unique; a role
    is "candidate" or "recruiter". *)
Definition accounts_ok (s : Site) : Prop :=
  u_id <$> users (site_db s) = a_id <$> accounts s
  /\ NoDup (a_username <$> accounts s)
  /\ NoDup (a_id <$> accounts s)
  /\ Forall (fun a => a_role a = "candidate" \/ a_role a = "recruiter")
            (accounts s).

(** A session is nobody's, or carries the id and the role of an account. *)
Definition session_ok (accs : list Account) (c : Session) : Prop :=
  match user_id c with
  | None => True
  | Some uid => exists a, a ∈ accs /\ a_id a = uid /\ role c = Some (a_role a)
  end.

Definition has_role (accs : list Account) (uid : Z) (r : string) : Prop :=
  exists a, a ∈ accs /\ a_id a = uid /\ a_role a = r.

(** Every swipe is a recruiter's and every resume a candidate's. *)
Definition rows_ok (s : Site) : Prop :=
  Forall (fun sw => has_role (accounts s) (s_user_id sw) "recruiter")
         (swipes (site_db s))
  /\ Forall (fun r => has_role (accounts s) (r_user_id r) "candidate")
            (resumes (site_db s)).

(** [quiet s s']: from [s] to [s'] nothing changed but, at most, the parts of
    the session that do not say who is logged in. *)
Definition quiet (s s' : Site) : Prop :=
  accounts s' = accounts s
  /\ uploads s' = uploads s
  /\ world (site_app s') = world (site_app s)
  /\ user_id (session (site_app s')) = user_id (session (site_app s))
  /\ role (session (site_app s')) = role (session (site_app s)).

End Accounts.

(** ** A small instance of the library interface

    Used to run the definitions on concrete data. The vectorizer keeps the
    documents it was fitted on and refuses documents that are all empty (an
    empty vocabulary); the classifier keeps the width and the classes, and
    predicts one half for every class. *)

Definition toy_fit_transform (p : TfidfParams) (docs : list string)
  : result (list string * (nat * nat)) :=
  if forallb (String.eqb "") docs then Raised ValueError
  else Returned (docs, (length docs, length docs)).

Definition toy_fit (p : LogRegParams) (X : nat * nat) (y : list Z)
  : result (nat * list Z) :=
  if (length (unique y) <? 2)%nat then Raised ValueError
  else Returned (X.2, unique y).

Definition toy_predict_proba (m : nat * list Z) (X : nat * nat)
  : result (list (list float)) :=
  if (X.2 =? m.1)%nat
  then Returned (replicate X.1 (replicate (length m.2) 0.5%float))
  else Raised ValueError.

#[local] Instance toy : Sklearn := {|
  Vectorizer := list string;
  Classifier := nat * list Z;
  Matrix := nat * nat;
  n_samples := fst;
  n_features := snd;
  vocabulary_size := length;
  n_features_in_ := fst;
  classes_ := snd;
  fit_transform := toy_fit_transform;
  transform := fun v docs => Returned (length docs, length v);
  fit := toy_fit;
  predict_proba := toy_predict_proba
|}.

Definition no_shuffle (ids : list Z) : list Z := ids.

(** A recruiter (user 1) who chose [job_field] and holds the order [order]
    at position [index]. *)
Definition recruiter_session (job_field : string) (order : list Z) (index : Z)
  : Session :=
  {| user_id := Some 1; role := Some "recruiter";
     swipe_field := Some job_field;
     swipe_order := Some order; swipe_index := Some index; flashes := [] |}.

Definition resume_of (id : Z) (job_field : string) (text : string) : Resume :=
  {| r_id := id; r_user_id := 2; r_filename := "cv.pdf"; r_text := text;
     r_job_field := job_field; r_uploaded_at := id |}.

Definition swipe_of (id resume_id user_id label : Z) : Swipe :=
  {| s_id := id; s_resume_id := resume_id; s_user_id := user_id;
     s_label := label |}.

Definition world_of (d : DB) : World (sk := toy) :=
  {| db := d; files := ∅; stdout := []; train_calls := [] |}.

(** Sample databases. User 1 is the recruiter, user 2 the candidate. *)
Definition sample_users : list User :=
  [{| u_id := 1; u_first_name := "Rae"; u_last_name := "Cruz" |};
   {| u_id := 2; u_first_name := "Sam"; u_last_name := "Diaz" |}].

(** One liked resume in "software". *)
Definition db_single : DB :=
  {| users := sample_users;
     resumes := [resume_of 1 "software" "python developer"];
     swipes := [swipe_of 1 1 1 1] |}.

(** One liked and one passed resume in "software". *)
Definition db_mixed : DB :=
  {| users := sample_users;
     resumes := [resume_of 1 "software" "python developer";
                 resume_of 2 "software" "sales intern"];
     swipes := [swipe_of 1 1 1 1; swipe_of 2 2 1 0] |}.

(** As [db_mixed], with resumes whose text is empty. *)
Definition db_blank : DB :=
  {| users := sample_users;
     resumes := [resume_of 1 "software" ""; resume_of 2 "software" ""];
     swipes := [swipe_of 1 1 1 1; swipe_of 2 2 1 0] |}.

(** Two resumes in each of the fields "data science" and "data_science",
    each field with one like and one pass. *)
Definition db_two_fields : DB :=
  {| users := sample_users;
     resumes := [resume_of 1 "data science" "sql and statistics";
                 resume_of 2 "data science" "forklift operator";
                 resume_of 3 "data_science" "pandas and numpy";
                 resume_of 4 "data_science" "line cook"];
     swipes := [swipe_of 1 1 1 1; swipe_of 2 2 1 0;
                swipe_of 3 3 1 1; swipe_of 4 4 1 0] |}.

(** Ten resumes in "data science", none swiped yet. *)
Definition ten : list Z := [1; 2; 3; 4; 5; 6; 7; 8; 9; 10].

Definition db_ten : DB :=
  {| users := sample_users;
     resumes := (fun id => resume_of id "data science" "sql and statistics")
                  <$> ten;
     swipes := [] |}.

(** The recruiter likes the even resumes and passes the odd ones. *)
Definition like_even (id : Z) : Form :=
  {| choice := Some (if Z.even id then "like" else "pass");
     resume_id := Returned id |}.

(** The state after a sequence of POSTs to [/swipe]. *)
Definition post_swipes (forms : list Form) (a : App) : App :=
  fold_left (fun a form => (swipe no_shuffle POST form a).2) forms a.

Definition before_ten_swipes : App :=
  {| session := recruiter_session "data science" ten 0;
     world := world_of db_ten |}.

Definition after_nine_swipes : App :=
  post_swipes (like_even <$> take 9 ten) before_ten_swipes.

Definition after_ten_swipes : App :=
  post_swipes (like_even <$> ten) before_ten_swipes.

(** A recruiter who chose "finance" and posts a swipe for resume 1, which is
    a "software" resume. *)
Definition db_cross : DB :=
  {| users := sample_users;
     resumes := [resume_of 1 "software" "python developer";
                 resume_of 5 "finance" "equity analyst"];
     swipes := [] |}.

Definition cross_field_post : App :=
  (swipe no_shuffle POST {| choice := Some "like"; resume_id := Returned 1 |}
         {| session := recruiter_session "finance" [5] 0;
            world := world_of db_cross |}).2.

(** A session with nobody logged in. *)
Definition anonymous_session : Session :=
  clear (recruiter_session "data science" ten 0).

(** The state [cross_field_post] starts from. *)
Definition cross_field_before : App :=
  {| session := recruiter_session "finance" [5] 0;
     world := world_of db_cross |}.

(** Ten "software" resumes without text, nine of them swiped: the tenth
    swipe sets off a training that the small vectorizer refuses. *)
Definition db_blank_nine : DB :=
  {| users := sample_users;
     resumes := (fun id => resume_of id "software" "") <$> ten;
     swipes := (fun id => swipe_of id id 1 (if Z.even id then 1 else 0))
                 <$> take 9 ten |}.

Definition blank_nine : App :=
  {| session := recruiter_session "software" ten 9;
     world := world_of db_blank_nine |}.

(** A candidate (user 2, the uploader of the sample resumes). *)
Definition candidate_session : Session :=
  {| user_id := Some 2; role := Some "candidate"; swipe_field := None;
     swipe_order := None; swipe_index := None; flashes := [] |}.

(** [str.lower] on ASCII letters, other bytes kept. *)
Definition ascii_lower (s : string) : string :=
  string_of_list_ascii
    ((fun c => let n := nat_of_ascii c in
               if (65 <=? n)%nat && (n <=? 90)%nat
               then ascii_of_nat (n + 32) else c)
       <$> list_ascii_of_string s).

(** [str.strip] for the ASCII white space (space, tab, line feed, vertical
    tab, form feed, carriage return). *)
Definition ascii_space (c : ascii) : bool :=
  let n := nat_of_ascii c in
  (n =? 32)%nat || ((9 <=? n)%nat && (n <=? 13)%nat).

Definition ascii_strip (s : string) : string :=
  let drop := fix drop (l : list ascii) : list ascii :=
    match l with
    | c :: l' => if ascii_space c then drop l' else l
    | [] => []
    end in
  string_of_list_ascii
    (rev (drop (rev (drop (list_ascii_of_string s))))).

(** A password hash that can be checked, a PDF as the list of its page
    texts, and a file name that needs no cleaning. *)
Definition toy_hash (password : string) : string := "hash:" +:+ password.

Definition toy_check (hash password : string) : bool :=
  String.eqb hash (toy_hash password).

Definition toy_pages (pdf : list string) : result (list string) :=
  Returned pdf.

Definition empty_db : DB := {| users := []; resumes := []; swipes := [] |}.

(** A fresh deployment, and the first visitor's registration. *)
Definition fresh_site : Site (sk := toy) (Pdf := list string) :=
  {| site_app := {| session := no_session; world := world_of empty_db |};
     accounts := []; uploads := ∅ |}.

Definition ada_form : RegisterForm :=
  {| reg_username := Some "ada"; reg_password := Some "pw";
     reg_confirmation := Some "pw"; reg_role := Some "candidate";
     reg_first_name := Some "Ada"; reg_last_name := Some "Lovelace";
     reg_email := Some "ada@example.org"; reg_phone := Some "1" |}.

Definition ada_site : Site (sk := toy) (Pdf := list string) :=
  (register toy_hash POST ada_form fresh_site).2.

Definition ada_cv : FileStorage (Pdf := list string) :=
  {| fs_filename := "cv.PDF"; fs_content := ["Python"; ""; " SQL "] |}.

Definition fresh_system : System (sk := toy) (Pdf := list string) :=
  {| cookies := [no_session]; server := fresh_site |}.

Definition toy_serve (r : Request (Pdf := list string))
  : Site (sk := toy) (Pdf := list string) -> Site :=
  serve toy_hash toy_check id toy_pages ascii_lower ascii_strip r.

(** The system after the first visitor has registered. *)
Definition ada_system : System (sk := toy) (Pdf := list string) :=
  let s := toy_serve (ToRegister POST ada_form)
                     (with_cookie no_session fresh_site) in
  {| cookies := session (site_app s) :: cookies fresh_system;
     server := s |}.

(** The system after the first visitor has uploaded a resume. *)
Definition ada_upload_system : System (sk := toy) (Pdf := list string) :=
  let c := session (site_app (server ada_system)) in
  let s := toy_serve (ToUpload POST (Some ada_cv) (Some "data") 0)
                     (with_cookie c (server ada_system)) in
  {| cookies := session (site_app s) :: cookies ada_system;
     server := s |}.

(** A field name of 246 bytes. [/upload] and [/swipe/select] take any
    non-empty name from the form; the model file of this one would be named
    with 256 bytes. Two of its resumes are swiped, one liked, one passed. *)
Definition long_field : string :=
  string_of_list_ascii (repeat "a"%char 246).

Definition db_long : DB :=
  {| users := sample_users;
     resumes := [resume_of 1 long_field "python developer";
                 resume_of 2 long_field "sales intern"];
     swipes := [swipe_of 1 1 1 1; swipe_of 2 2 1 0] |}.

(** Ten "software" resumes, nine of them swiped by the recruiter, and one
    "finance" resume. The recruiter has since chosen "finance" on
    [/swipe/select] and now posts, from a page of "software" that is still
    open, a like for resume 10. *)
Definition db_stale : DB :=
  {| users := sample_users;
     resumes := ((fun id => resume_of id "software" "python developer")
                   <$> ten)
                ++ [resume_of 11 "finance" "equity analyst"];
     swipes := (fun id => swipe_of id id 1 (if Z.even id then 1 else 0))
                 <$> take 9 ten |}.

Definition stale_before : App :=
  {| session := recruiter_session "finance" [11] 0;
     world := world_of db_stale |}.

Definition stale_post : App :=
  (swipe no_shuffle POST {| choice := Some "like"; resume_id := Returned 10 |}
         stale_before).2.

(** * Properties *)

(** Closed goals on the sample data are settled by evaluation. *)
Ltac by_compute := vm_compute; first [reflexivity | discriminate | done].
Ltac in_list := apply list_elem_of_In; vm_compute; tauto.

(** ** The trainer *)

Section TrainerFacts.
Context `{sk : Sklearn}.
Implicit Types (w : World) (job_field : string).

(** Both labels present means at least two distinct values. *)
Lemma len_set_both (labels : list Z) :
  0 ∈ labels -> 1 ∈ labels -> 2 <= len_set labels.
Proof.
  intros H0 H1. unfold len_set.
  assert (Hsub : ({[0; 1]} : gset Z) ⊆ list_to_set labels).
  { intros x Hx. apply elem_of_list_to_set.
    apply elem_of_union in Hx as [Hx | Hx];
      apply elem_of_singleton in Hx; subst; assumption. }
  apply subseteq_size in Hsub.
  rewrite size_union in Hsub by set_solver.
  rewrite !size_singleton in Hsub. lia.
Qed.

(** The trainer reads the database and never writes it; each call adds its
    field to the ghost trace, whatever the outcome. *)
Lemma train_model_frame job_field w :
  db (train_model job_field w).2 = db w
  /\ train_calls (train_model job_field w).2
     = (train_calls w ++ [job_field])%list.
Proof.
  unfold train_model, bind, modify, gets, ret, lift. simpl.
  destruct (select_training_rows (db w) job_field) as [|r rows]; simpl; [done|].
  destruct (len_set _ <? 2); simpl; [done|].
  destruct (fit_transform _ _) as [[v X]|e]; simpl; [|done].
  destruct (fit _ _ _) as [m|e]; simpl; [|done].
  by destruct (open_wb _).
Qed.

(** The only file the trainer can touch is the one of its field's path. *)
Lemma train_model_other_paths job_field w path :
  path <> _model_path job_field ->
  files (train_model job_field w).2 !! path = files w !! path.
Proof.
  intros Hne.
  unfold train_model, bind, modify, gets, ret, lift. simpl.
  destruct (select_training_rows (db w) job_field) as [|r rows]; simpl; [done|].
  destruct (len_set _ <? 2); simpl; [done|].
  destruct (fit_transform _ _) as [[v X]|e]; simpl; [|done].
  destruct (fit _ _ _) as [m|e]; simpl; [|done].
  destruct (open_wb _); simpl; [|done].
  by rewrite lookup_insert_ne.
Qed.

(** C1. With no training row for the field, or fewer than two distinct
    labels among the rows, [train_model] returns 0 without raising and
    leaves every model file (and the database) as it was. *)
Theorem train_model_degenerate job_field w :
  select_training_rows (db w) job_field = []
  \/ len_set (label <$> select_training_rows (db w) job_field) < 2 ->
  exists w', train_model job_field w = (Returned 0, w')
             /\ files w' = files w /\ db w' = db w.
Proof.
  intros Hdeg.
  unfold train_model, bind, modify, gets, ret, lift. simpl.
  destruct (select_training_rows (db w) job_field) as [|r rows] eqn:Hrows.
  - eexists; split; [reflexivity|]. done.
  - destruct Hdeg as [Hnil | Hlt]; [discriminate|].
    apply Z.ltb_lt in Hlt. rewrite Hlt. simpl.
    eexists; split; [reflexivity|]. done.
Qed.

(** What holds of a successful training. With a non-empty sequence holding
    both labels, the two fits returning, and a model file that can be opened
    for writing (its name [model_<field>.pkl] holds no NUL byte and is at
    most [NAME_MAX] bytes long), [train_model] fits the vectorizer on all the texts and the
    balanced classifier on the resulting matrix and the labels, writes the
    pair at the field's path in place of whatever was there, and returns the
    number of rows. *)
Theorem train_model_success job_field w v X m :
  let rows := select_training_rows (db w) job_field in
  rows <> [] ->
  0 ∈ (label <$> rows) -> 1 ∈ (label <$> rows) ->
  open_wb (_model_path job_field) = Returned tt ->
  fit_transform {| stop_words := Some "english"; max_features := Some 5000 |}
                (text <$> rows) = Returned (v, X) ->
  fit {| max_iter := 1000; class_weight := Some "balanced" |}
      X (label <$> rows) = Returned m ->
  exists w',
    train_model job_field w = (Returned (Z.of_nat (length rows)), w')
    /\ files w' = <[_model_path job_field :=
                     {| vectorizer := v; model := m |}]> (files w)
    /\ _load_model_bundle job_field w'
       = (Returned (Some {| vectorizer := v; model := m |}), w')
    /\ db w' = db w.
Proof.
  intros rows Hne H0 H1 Hopen Hv Hm.
  pose proof (len_set_both _ H0 H1) as Hlen.
  unfold train_model, _load_model_bundle, bind, modify, gets, ret, lift.
  cbn [note_train_call db fst snd]. fold rows.
  destruct rows as [|r rs]; [done|].
  apply Z.ltb_ge in Hlen. rewrite Hlen.
  unfold tfidf_params, logreg_params. rewrite Hv, Hm, Hopen.
  eexists; split; [by rewrite length_fmap|].
  split; [reflexivity|]. split; [|reflexivity].
  cbn [set_files files]. by rewrite lookup_insert_eq.
Qed.

(** C7. Past the two guards, an exception raised by either fit leaves
    [train_model] by that exception, and no model file has changed. *)
Theorem train_model_fit_failure job_field w e :
  let rows := select_training_rows (db w) job_field in
  rows <> [] ->
  2 <= len_set (label <$> rows) ->
  (fit_transform tfidf_params (text <$> rows) = Raised e
   \/ exists v X, fit_transform tfidf_params (text <$> rows) = Returned (v, X)
                  /\ fit logreg_params X (label <$> rows) = Raised e) ->
  exists w', train_model job_field w = (Raised e, w')
             /\ files w' = files w /\ db w' = db w.
Proof.
  intros rows Hne Hlen Hfail.
  unfold train_model, bind, modify, gets, ret, lift.
  cbn [note_train_call db fst snd]. fold rows.
  destruct rows as [|r rs]; [done|].
  apply Z.ltb_ge in Hlen. rewrite Hlen.
  destruct Hfail as [Hv | (v & X & Hv & Hm)]; rewrite Hv.
  - eexists; split; [reflexivity|]. done.
  - rewrite Hm. eexists; split; [reflexivity|]. done.
Qed.

End TrainerFacts.

Lemma train_model_degenerate_witness :
  exists w', train_model "software" (world_of db_single) = (Returned 0, w')
             /\ files w' = ∅ /\ db w' = db_single.
Proof.
  apply (train_model_degenerate "software" (world_of db_single)).
  right. by_compute.
Defined.

Lemma train_model_success_witness :
  exists w', train_model "software" (world_of db_mixed) = (Returned 2, w').
Proof.
  destruct (train_model_success (sk := toy) "software" (world_of db_mixed)
              ["python developer"; "sales intern"] (2%nat, 2%nat)
              (2%nat, [0; 1]))
    as (w' & Hrun & _).
  - by_compute.
  - in_list.
  - in_list.
  - by_compute.
  - by_compute.
  - by_compute.
  - exists w'. exact Hrun.
Defined.

(** C3, at the input where the code departs from it: the field
    [long_field] has a non-empty training sequence with both labels and both
    fits return, yet [train_model] raises [OSError] from [open], because the
    file name [model_<field>.pkl] is longer than [NAME_MAX] bytes, and no
    bundle is stored. *)
Theorem train_model_long_field :
  String.length long_field = 246%nat
  /\ label <$> select_training_rows db_long long_field = [1; 0]
  /\ (exists v X m,
        fit_transform tfidf_params
                      (text <$> select_training_rows db_long long_field)
        = Returned (v, X)
        /\ fit logreg_params X
               (label <$> select_training_rows db_long long_field)
           = Returned m)
  /\ open_wb (_model_path long_field) = Raised OSError
  /\ (train_model long_field (world_of db_long)).1 = Raised OSError
  /\ files (train_model long_field (world_of db_long)).2 = ∅.
Proof.
  split; [by_compute|]. split; [by_compute|]. split.
  { exists ["python developer"; "sales intern"], (2%nat, 2%nat),
           (2%nat, [0; 1]).
    split; by_compute. }
  repeat split; by_compute.
Qed.

Lemma train_model_fit_failure_witness :
  exists w', train_model "software" (world_of db_blank) = (Raised ValueError, w')
             /\ files w' = ∅ /\ db w' = db_blank.
Proof.
  apply (train_model_fit_failure (sk := toy) "software" (world_of db_blank)).
  - by_compute.
  - by_compute.
  - left. by_compute.
Defined.

(** ** The model store and the scorer *)

Section ScorerFacts.
Context `{sk : Sklearn}.
Implicit Types (w : World) (job_field text : string).

(** The scorer is a pure read: whatever it returns, the world is as before. *)
Lemma score_text_pure text job_field w :
  (score_text text job_field w).2 = w.
Proof.
  unfold score_text, _load_model_bundle, bind, gets, ret, lift.
  destruct (files w !! _model_path job_field) as [b|]; [|done].
  destruct (transform _ _) as [X|e]; [|done].
  destruct (predict_proba _ _) as [P|e]; [|done].
  destruct (getitem P 0) as [row|e]; [|done].
  destruct (getitem row 1) as [p|e]; done.
Qed.

(** [None] is returned exactly when no file exists at the field's path. *)
Lemma score_text_absent_iff text job_field w :
  (score_text text job_field w).1 = Returned None
  <-> files w !! _model_path job_field = None.
Proof.
  unfold score_text, _load_model_bundle, bind, gets, ret, lift.
  destruct (files w !! _model_path job_field) as [b|]; [|done].
  split; [|done].
  destruct (transform _ _) as [X|e]; [|done].
  destruct (predict_proba _ _) as [P|e]; [|done].
  destruct (getitem P 0) as [row|e]; [|done].
  destruct (getitem row 1) as [p|e]; done.
Qed.

(** A save by the trainer for one field is invisible to the scorer of any
    field with another path. *)
Lemma train_model_score_frame job_field other text w :
  _model_path other <> _model_path job_field ->
  (score_text text other (train_model job_field w).2).1
  = (score_text text other w).1.
Proof.
  intros Hne.
  pose proof (train_model_other_paths job_field w _ Hne) as Hsame.
  unfold score_text, _load_model_bundle, bind, gets, ret, lift.
  rewrite Hsame.
  destruct (files w !! _model_path other) as [b|]; [|done].
  destruct (transform _ _) as [X|e]; [|done].
  destruct (predict_proba _ _) as [P|e]; [|done].
  destruct (getitem P 0) as [row|e]; [|done].
  destruct (getitem row 1) as [p|e]; done.
Qed.

End ScorerFacts.

(** *** File names *)

Lemma string_app_length (s1 s2 : string) :
  String.length (s1 +:+ s2) = (String.length s1 + String.length s2)%nat.
Proof. induction s1 as [|c s1 IH]; simpl; [done|]. by rewrite IH. Qed.

Lemma string_app_inj_r (s1 s2 x : string) :
  s1 +:+ x = s2 +:+ x -> s1 = s2.
Proof.
  revert s2. induction s1 as [|c s1 IH]; intros [|c2 s2] Heq.
  - done.
  - apply (f_equal String.length) in Heq.
    rewrite !string_app_length in Heq. simpl in Heq. lia.
  - apply (f_equal String.length) in Heq.
    rewrite !string_app_length in Heq. simpl in Heq. lia.
  - injection Heq as -> Heq. f_equal. by apply IH.
Qed.

(** *** When the model file can be written *)

Lemma string_app_cons (c : ascii) (s t : string) :
  String c s +:+ t = String c (s +:+ t).
Proof. reflexivity. Qed.

Lemma has_char_app (c : ascii) (s t : string) :
  has_char c (s +:+ t) = has_char c s || has_char c t.
Proof.
  induction s as [|c' s IH]; [reflexivity|].
  rewrite string_app_cons. cbn [has_char]. by rewrite IH, orb_assoc.
Qed.

Lemma has_char_replace (c old new : ascii) (s : string) :
  c <> old -> c <> new -> has_char c (replace old new s) = has_char c s.
Proof.
  intros Hold Hnew. induction s as [|c' s IH]; [reflexivity|].
  cbn [replace has_char]. rewrite IH. f_equal.
  destruct (Ascii.eqb_spec c' old) as [->|Hc'].
  - rewrite (proj2 (Ascii.eqb_neq new c)), (proj2 (Ascii.eqb_neq old c));
      congruence.
  - reflexivity.
Qed.

Lemma has_char_replaced (old new : ascii) (s : string) :
  old <> new -> has_char old (replace old new s) = false.
Proof.
  intros Hne. induction s as [|c s IH]; [reflexivity|].
  cbn [replace has_char]. rewrite IH, orb_false_r.
  destruct (Ascii.eqb_spec c old) as [->|Hc].
  - apply Ascii.eqb_neq. congruence.
  - by apply Ascii.eqb_neq.
Qed.

Lemma replace_length (old new : ascii) (s : string) :
  String.length (replace old new s) = String.length s.
Proof. induction s as [|c s IH]; [reflexivity|]. cbn. by rewrite IH. Qed.

Lemma basename_join (dir name : string) :
  has_char "/"%char name = false ->
  basename (dir +:+ "/" +:+ name) = name.
Proof.
  intros Hname. induction dir as [|c dir IH].
  - change ("" +:+ "/" +:+ name) with (String "/"%char name).
    cbn [basename]. by rewrite Hname.
  - rewrite string_app_cons. cbn [basename].
    rewrite has_char_app. change (has_char "/"%char ("/" +:+ name)) with true.
    by rewrite orb_true_r.
Qed.

(** [open] accepts the model file of a field exactly when the field holds no
    NUL byte and has at most 245 bytes: the file name adds ten. *)
Lemma open_wb_model_path job_field :
  open_wb (_model_path job_field) = Returned tt
  <-> has_char "000"%char job_field = false
      /\ (String.length job_field <= 245)%nat.
Proof.
  unfold _model_path, MODEL_DIR, open_wb.
  set (safe := replace " "%char "_"%char (replace "/"%char "_"%char job_field)).
  assert (Hslash : has_char "/"%char ("model_" +:+ safe +:+ ".pkl") = false).
  { rewrite !has_char_app. subst safe.
    rewrite has_char_replace by discriminate.
    by rewrite has_char_replaced by discriminate. }
  assert (Hnul : has_char "000"%char
                   ("models" +:+ "/" +:+ ("model_" +:+ safe +:+ ".pkl"))
                 = has_char "000"%char job_field).
  { rewrite !has_char_app. subst safe.
    rewrite !has_char_replace by discriminate.
    change (has_char "000"%char "models") with false.
    change (has_char "000"%char "/") with false.
    change (has_char "000"%char "model_") with false.
    change (has_char "000"%char ".pkl") with false.
    by rewrite orb_false_r. }
  rewrite Hnul, (basename_join "models" _ Hslash).
  assert (Hlen : String.length ("model_" +:+ safe +:+ ".pkl")
                 = (String.length job_field + 10)%nat).
  { rewrite !string_app_length. subst safe. rewrite !replace_length.
    cbn [String.length]. lia. }
  rewrite Hlen. change ("model_" +:+ safe +:+ ".pkl" =? "")%string with false.
  cbn [orb]. unfold NAME_MAX.
  destruct (has_char "000"%char job_field); [by split; [|intros [? _]]|].
  destruct (Nat.ltb_spec 255 (String.length job_field + 10)).
  - split; [done|]. intros [_ ?]. lia.
  - split; [|done]. intros _. split; [done|lia].
Qed.


(** Two fields share a file exactly when their sanitized names agree. *)
Lemma _model_path_eq_iff (f g : string) :
  _model_path f = _model_path g
  <-> replace " "%char "_"%char (replace "/"%char "_"%char f)
      = replace " "%char "_"%char (replace "/"%char "_"%char g).
Proof.
  unfold _model_path, MODEL_DIR. split; [|by intros ->].
  intros Heq. simpl in Heq.
  repeat (injection Heq as Heq).
  apply (inj (String.app "")) in Heq.
  by apply string_app_inj_r in Heq.
Qed.

(** On plain names the path is one-to-one (and case-sensitive, as equality
    of strings is). *)
Lemma _model_path_plain_inj (f g : string) :
  plain f -> plain g -> _model_path f = _model_path g -> f = g.
Proof.
  unfold plain. intros Hf Hg Heq.
  apply _model_path_eq_iff in Heq. congruence.
Qed.

(** Between plain names the slots are independent: training one field never
    changes what the scorer of another field returns. *)
Lemma train_model_plain_frame `{sk : Sklearn} (f g text : string)
      (w : World) :
  plain f -> plain g -> f <> g ->
  (score_text text g (train_model f w).2).1 = (score_text text g w).1.
Proof.
  intros Hf Hg Hne. apply train_model_score_frame.
  intros Heq. apply Hne. symmetry. by apply _model_path_plain_inj.
Qed.

(** ** What a request can do to the world *)

Section Preservation.
Context `{sk : Sklearn}.
Variable I : World -> Prop.

Lemma preserves_ret {A} (x : A) : preserves I (ret x).
Proof. intros a Ha. exact Ha. Qed.

Lemma preserves_raise {A} (e : exn) : preserves I (raise (A := A) e).
Proof. intros a Ha. exact Ha. Qed.

Lemma preserves_gets {A} (f : App -> A) : preserves I (gets f).
Proof. intros a Ha. exact Ha. Qed.

Lemma preserves_lift {A} (r : result A) : preserves I (lift r).
Proof. intros a Ha. exact Ha. Qed.

Lemma preserves_set_session (f : Session -> Session) :
  preserves I (set_session f).
Proof. intros a Ha. exact Ha. Qed.

Lemma preserves_bind {A B} (c : M App A) (k : A -> M App B) :
  preserves I c -> (forall x, preserves I (k x)) -> preserves I (bind c k).
Proof.
  intros Hc Hk a Ha. unfold bind.
  specialize (Hc a Ha).
  destruct (c a) as [[x|e] a']; simpl in *; [by apply Hk | done].
Qed.

Lemma preserves_on_world {A} (c : M World A) :
  (forall w, I w -> I (c w).2) -> preserves I (on_world c).
Proof.
  intros Hc a Ha. unfold on_world.
  specialize (Hc (world a) Ha).
  destruct (c (world a)) as [r w']. exact Hc.
Qed.

Lemma preserves_session_item {A} (get : Session -> option A) :
  preserves I (session_item get).
Proof.
  apply preserves_bind; [apply preserves_gets|].
  intros [x|]; [apply preserves_ret | apply preserves_raise].
Qed.

Lemma preserves_swipe_render order index :
  preserves I (swipe_render order index).
Proof.
  unfold swipe_render.
  destruct (_ <=? _); [apply preserves_ret|].
  apply preserves_bind; [apply preserves_lift|]. intros rid.
  apply preserves_bind; [apply preserves_gets|]. intros rows.
  apply preserves_bind; [apply preserves_lift|]. intros card.
  apply preserves_ret.
Qed.

Lemma preserves_swipe_init_order shuffle job_field :
  preserves I (swipe_init_order shuffle job_field).
Proof.
  unfold swipe_init_order, flash, set_swipe_order, set_swipe_index.
  apply preserves_bind; [apply preserves_gets|]. intros [order|].
  { apply preserves_ret. }
  apply preserves_bind; [apply preserves_gets|]. intros [|id ids].
  - apply preserves_bind; [apply preserves_set_session|]. intros _.
    apply preserves_ret.
  - apply preserves_bind; [apply preserves_set_session|]. intros _.
    apply preserves_bind; [apply preserves_set_session|]. intros _.
    apply preserves_ret.
Qed.

(** The three things a request can do to the world. *)
Hypothesis I_insert : forall rid uid label w,
  label = 0 \/ label = 1 -> I w -> I (set_db (insert_swipe rid uid label) w).
Hypothesis I_train : forall job_field w, I w -> I (train_model job_field w).2.
Hypothesis I_print : forall l w, I w -> I (print l w).

Lemma preserves_swipe_post job_field form index :
  preserves I (swipe_post job_field form index).
Proof.
  unfold swipe_post, set_swipe_index.
  apply preserves_bind; [apply preserves_lift|]. intros rid.
  apply preserves_bind; [apply preserves_session_item|]. intros uid.
  apply preserves_bind; [apply preserves_gets|]. intros existing.
  apply preserves_bind.
  - destruct existing as [|x xs]; [|apply preserves_ret].
    apply preserves_bind.
    { apply preserves_on_world. intros w Hw. apply I_insert; [|done].
      destruct (is_like _); auto. }
    intros _. apply preserves_bind; [apply preserves_gets|]. intros count.
    destruct (_ =? _); [|apply preserves_ret].
    apply preserves_bind.
    { apply preserves_on_world. intros w Hw. by apply I_train. }
    intros used. apply preserves_on_world. intros w Hw. by apply I_print.
  - intros _. apply preserves_bind; [apply preserves_set_session|].
    intros _. apply preserves_ret.
Qed.

Lemma preserves_swipe shuffle method form :
  preserves I (swipe shuffle method form).
Proof.
  unfold swipe, login_required, flash.
  apply preserves_bind; [apply preserves_gets|]. intros [uid|]; cycle 1.
  { apply preserves_bind; [apply preserves_set_session|]. intros _.
    apply preserves_ret. }
  apply preserves_bind; [apply preserves_gets|]. intros role.
  destruct (negb _).
  { apply preserves_bind; [apply preserves_set_session|]. intros _.
    apply preserves_ret. }
  apply preserves_bind; [apply preserves_gets|]. intros [[|c f]|];
    try (apply preserves_bind; [apply preserves_set_session|]; intros _;
         apply preserves_ret).
  apply preserves_bind; [apply preserves_swipe_init_order|].
  intros [response|]; [apply preserves_ret|].
  apply preserves_bind; [apply preserves_session_item|]. intros order.
  apply preserves_bind; [apply preserves_gets|]. intros index.
  apply preserves_bind; [|intros; apply preserves_swipe_render].
  destruct method; [apply preserves_ret | apply preserves_swipe_post].
Qed.

Lemma preserves_feedback : preserves I feedback.
Proof.
  unfold feedback, login_required, flash.
  apply preserves_bind; [apply preserves_gets|]. intros [uid|]; cycle 1.
  { apply preserves_bind; [apply preserves_set_session|]. intros _.
    apply preserves_ret. }
  apply preserves_bind; [apply preserves_gets|]. intros role.
  destruct (negb _).
  { apply preserves_bind; [apply preserves_set_session|]. intros _.
    apply preserves_ret. }
  apply preserves_bind; [apply preserves_session_item|]. intros user.
  apply preserves_bind; [apply preserves_gets|]. intros [|resume rows].
  { apply preserves_bind; [apply preserves_set_session|]. intros _.
    apply preserves_ret. }
  apply preserves_bind.
  { apply preserves_on_world. intros w Hw. by rewrite score_text_pure. }
  intros raw. apply preserves_bind; [apply preserves_lift|]. intros out.
  apply preserves_ret.
Qed.

End Preservation.

(** ** Stored bundles fit together *)

Lemma elem_of_insert_unique (x' x : Z) (l : list Z) :
  x' ∈ insert_unique x l <-> x' = x \/ x' ∈ l.
Proof.
  induction l as [|a l IH]; simpl.
  - rewrite list_elem_of_singleton, elem_of_nil. tauto.
  - destruct (x <? a); [by rewrite elem_of_cons|].
    destruct (x =? a) eqn:E.
    + apply Z.eqb_eq in E. subst a. rewrite elem_of_cons. tauto.
    + rewrite !elem_of_cons, IH. tauto.
Qed.

Lemma elem_of_unique (x : Z) (y : list Z) : x ∈ unique y <-> x ∈ y.
Proof.
  induction y as [|a y IH]; simpl; [done|].
  rewrite elem_of_insert_unique, elem_of_cons, IH. tauto.
Qed.

Lemma unique_binary_cases (y : list Z) :
  Forall (fun l => l = 0 \/ l = 1) y ->
  unique y = [] \/ unique y = [0] \/ unique y = [1] \/ unique y = [0; 1].
Proof.
  induction 1 as [|x y Hx Hy IH]; simpl; [by left|].
  destruct Hx as [-> | ->];
    destruct IH as [-> | [-> | [-> | ->]]]; vm_compute; tauto.
Qed.

Lemma binary_singleton_size (y : list Z) (a b : Z) :
  Forall (fun l => l = a \/ l = b) y -> a ∉ y ->
  (size (list_to_set y : gset Z) <= 1)%nat.
Proof.
  intros Hbin Ha.
  assert (Hsub : (list_to_set y : gset Z) ⊆ {[b]}).
  { intros x Hx. apply elem_of_list_to_set in Hx.
    rewrite Forall_forall in Hbin.
    destruct (Hbin x Hx) as [-> | ->]; [done | by apply elem_of_singleton]. }
  apply subseteq_size in Hsub. by rewrite size_singleton in Hsub.
Qed.

(** With labels in {0, 1}, passing the guard of the trainer means both
    labels are there, and [numpy.unique] lists them as [0; 1]. *)
Lemma unique_binary (y : list Z) :
  Forall (fun l => l = 0 \/ l = 1) y ->
  2 <= len_set y ->
  unique y = [0; 1].
Proof.
  intros Hbin Hlen. unfold len_set in Hlen.
  assert (H0 : 0 ∈ y).
  { destruct (decide (0 ∈ y)) as [|Hn]; [done|].
    pose proof (binary_singleton_size y 0 1 Hbin Hn). lia. }
  assert (H1 : 1 ∈ y).
  { destruct (decide (1 ∈ y)) as [|Hn]; [done|].
    assert (Hbin' : Forall (fun l => l = 1 \/ l = 0) y).
    { eapply Forall_impl; [exact Hbin|]. simpl. tauto. }
    pose proof (binary_singleton_size y 1 0 Hbin' Hn). lia. }
  apply elem_of_unique in H0, H1.
  destruct (unique_binary_cases y Hbin) as [Hu | [Hu | [Hu | Hu]]];
    rewrite Hu in H0, H1; [| | |done].
  - by apply elem_of_nil in H0.
  - apply list_elem_of_singleton in H1. discriminate.
  - apply list_elem_of_singleton in H0. discriminate.
Qed.

(** The labels the trainer sees are labels of recorded swipes. *)
Lemma training_labels_binary (d : DB) (job_field : string) :
  binary_labels d ->
  Forall (fun l => l = 0 \/ l = 1)
         (label <$> select_training_rows d job_field).
Proof.
  unfold binary_labels, select_training_rows, swipes_join_resumes.
  rewrite !Forall_forall. intros Hbin l Hl.
  apply list_elem_of_fmap in Hl as (row & -> & Hrow).
  apply list_elem_of_fmap in Hrow as ([s r] & -> & Hsr).
  apply list_elem_of_bind in Hsr as (s' & Hsr & Hs').
  apply list_elem_of_bind in Hsr as (r' & Hsr & Hr').
  apply list_elem_of_singleton in Hsr. injection Hsr as -> ->.
  simpl. by apply Hbin.
Qed.

Section Invariant.
Context `{sk : Sklearn} {laws : SklearnLaws sk}.
Implicit Types (w : World) (job_field text : string).

(** A bundle written by the trainer is coherent. *)
Lemma train_model_world_ok job_field w :
  world_ok w -> world_ok (train_model job_field w).2.
Proof.
  intros [Hbin Hfiles]. split.
  { by rewrite (proj1 (train_model_frame job_field w)). }
  pose proof (training_labels_binary (db w) job_field Hbin) as Hlab.
  unfold train_model, bind, modify, gets, ret, lift.
  cbn [note_train_call db fst snd].
  remember (select_training_rows (db w) job_field) as rows eqn:Hrows.
  destruct rows as [|r rs]; [done|].
  destruct (len_set _ <? 2) eqn:Hlen; [done|].
  apply Z.ltb_ge in Hlen.
  destruct (fit_transform _ _) as [[v X]|e] eqn:Hv; [|done].
  destruct (fit _ _ _) as [m|e] eqn:Hm; [|done].
  destruct (open_wb _); [|done].
  cbn [set_files files snd].
  apply map_Forall_insert_2; [|done].
  apply fit_transform_shape in Hv as [_ Hwidth].
  apply fit_attributes in Hm as [Hin Hclasses].
  split; cbn [model vectorizer]; [congruence|].
  rewrite Hclasses. by apply unique_binary.
Qed.

Lemma insert_swipe_world_ok rid uid label w :
  label = 0 \/ label = 1 ->
  world_ok w -> world_ok (set_db (insert_swipe rid uid label) w).
Proof.
  intros Hlabel [Hbin Hfiles]. split; [|done].
  unfold binary_labels in *. cbn [set_db db insert_swipe swipes].
  apply Forall_app. split; [done|]. by apply Forall_singleton.
Qed.

(** Every world the application can reach satisfies the invariant. *)
Lemma reachable_world_ok w : reachable w -> world_ok w.
Proof.
  induction 1 as [w [Hfiles Hswipes] | w w' _ IH Hstep].
  - split.
    + unfold binary_labels. rewrite Hswipes. constructor.
    + rewrite Hfiles. apply map_Forall_empty.
  - destruct Hstep as [w u | w r | shuffle method form s w | s w | f w].
    + destruct IH as [Hbin Hfiles]. by split.
    + destruct IH as [Hbin Hfiles]. by split.
    + apply (preserves_swipe world_ok insert_swipe_world_ok
               train_model_world_ok (fun l w Hw => Hw) shuffle method form
               {| session := s; world := w |} IH).
    + apply (preserves_feedback world_ok {| session := s; world := w |} IH).
    + by apply train_model_world_ok.
Qed.

(** On a coherent bundle the scorer returns, for any text, the second entry
    of the one row that [predict_proba] gives for the transformed text, and
    that entry is a probability. *)
Lemma score_text_column text job_field w b :
  coherent b ->
  files w !! _model_path job_field = Some b ->
  exists X p0 p,
    transform (vectorizer b) [text] = Returned X
    /\ predict_proba (model b) X = Returned [[p0; p]]
    /\ score_text text job_field w = (Returned (Some p), w)
    /\ is_probability p = true.
Proof.
  intros [Hwidth Hclasses] Hb.
  destruct (transform_shape (vectorizer b) [text]) as (X & HX & Hn & Hf).
  destruct (predict_proba_shape (model b) X) as (P & HP & HlenP & Hrows);
    [congruence|].
  rewrite Hn in HlenP.
  destruct P as [|row [|row' P]]; try discriminate.
  apply Forall_singleton in Hrows as [Hlen Hprob].
  rewrite Hclasses in Hlen.
  destruct row as [|p0 [|p1 [|p2 row]]]; try discriminate.
  exists X, p0, p1. split; [exact HX|]. split; [exact HP|]. split.
  - unfold score_text, _load_model_bundle, bind, gets, ret, lift.
    rewrite Hb, HX, HP. reflexivity.
  - simpl in Hprob. by destruct (is_probability p0), (is_probability p1).
Qed.

Lemma score_text_stored text job_field w b :
  coherent b ->
  files w !! _model_path job_field = Some b ->
  exists p, score_text text job_field w = (Returned (Some p), w)
            /\ is_probability p = true.
Proof.
  intros Hcoh Hb.
  destruct (score_text_column text job_field w b Hcoh Hb)
    as (X & p0 & p & _ & _ & Hrun & Hp).
  by exists p.
Qed.

(** C6. In a reachable world with a bundle at the field's path, the stored
    classifier knows the classes 0 and 1 in that order, [predict_proba] on
    the transformed text gives one row with one estimate per class, and
    [score_text] returns the estimate of that row for the class 1: one float
    between 0 and 1. (That the columns of [predict_proba] follow [classes_]
    is scikit-learn's documented behaviour.) The call changes nothing, so a
    second call returns the same. *)
Theorem score_text_probability text job_field w b :
  reachable w ->
  files w !! _model_path job_field = Some b ->
  exists X p0 p,
    classes_ (model b) = [0; 1]
    /\ transform (vectorizer b) [text] = Returned X
    /\ predict_proba (model b) X = Returned [[p0; p]]
    /\ score_text text job_field w = (Returned (Some p), w)
    /\ ((0 <=? p)%float = true /\ (p <=? 1)%float = true)
    /\ score_text text job_field (score_text text job_field w).2
       = score_text text job_field w.
Proof.
  intros Hreach Hb.
  pose proof (reachable_world_ok w Hreach) as [_ Hfiles].
  pose proof (Hfiles _ _ Hb) as Hcoh.
  destruct (score_text_column text job_field w b Hcoh Hb)
    as (X & p0 & p & HX & HP & Hrun & Hp).
  exists X, p0, p. split; [by destruct Hcoh|].
  split; [exact HX|]. split; [exact HP|]. split; [exact Hrun|]. split.
  - by apply andb_prop in Hp.
  - by rewrite score_text_pure.
Qed.

(** C8. In a reachable world with a bundle at the field's path,
    [score_text] raises for no text: the text is transformed into one row of
    the vocabulary's width, and a probability is returned. *)
Theorem score_text_never_raises text job_field w :
  reachable w ->
  is_Some (files w !! _model_path job_field) ->
  exists b X p,
    files w !! _model_path job_field = Some b
    /\ transform (vectorizer b) [text] = Returned X
    /\ n_samples X = 1%nat
    /\ n_features X = vocabulary_size (vectorizer b)
    /\ score_text text job_field w = (Returned (Some p), w)
    /\ is_probability p = true.
Proof.
  intros Hreach [b Hb].
  pose proof (reachable_world_ok w Hreach) as [_ Hfiles].
  pose proof (Hfiles _ _ Hb) as Hcoh.
  destruct (transform_shape (vectorizer b) [text]) as (X & HX & Hn & Hf).
  destruct (score_text_stored text job_field w b Hcoh Hb) as (p & Hrun & Hp).
  by exists b, X, p.
Qed.

End Invariant.

(** ** The small instance obeys the laws; the sample runs *)

Lemma toy_laws : SklearnLaws toy.
Proof.
  split.
  - intros p docs v X. simpl. unfold toy_fit_transform.
    destruct (forallb _ _); [discriminate|]. by intros [= <- <-].
  - intros v docs. by exists (length docs, length v).
  - intros p X y m. simpl. unfold toy_fit.
    destruct (_ <? _)%nat; [discriminate|]. by intros [= <-].
  - intros m X Hwidth. simpl in *. unfold toy_predict_proba.
    rewrite Hwidth, Nat.eqb_refl. eexists. split; [reflexivity|].
    split; [apply length_replicate|].
    apply Forall_forall. intros row Hrow.
    apply elem_of_replicate in Hrow as [-> _].
    split; [apply length_replicate|].
    apply forallb_forall. intros p Hp.
    apply list_elem_of_In, elem_of_replicate in Hp as [-> _]. reflexivity.
Qed.

Lemma post_swipes_reachable (forms : list Form) (a : App) :
  reachable (world a) -> reachable (world (post_swipes forms a)).
Proof.
  revert a. induction forms as [|form forms IH]; intros a Ha; [done|].
  apply IH. destruct a as [s w].
  eapply reachable_step; [exact Ha|]. apply step_swipe.
Qed.

Lemma after_ten_swipes_reachable : reachable (world after_ten_swipes).
Proof. apply post_swipes_reachable, reachable_initial. by split. Qed.

Lemma score_text_probability_witness :
  exists p, score_text "welder" "data science" (world after_ten_swipes)
            = (Returned (Some p), world after_ten_swipes).
Proof.
  edestruct (score_text_probability (sk := toy) (laws := toy_laws)
               "welder" "data science" (world after_ten_swipes))
    as (X & p0 & p & _ & _ & _ & Hrun & _).
  - exact after_ten_swipes_reachable.
  - vm_compute. reflexivity.
  - exists p. exact Hrun.
Defined.

Lemma score_text_never_raises_witness :
  exists p, score_text "" "data science" (world after_ten_swipes)
            = (Returned (Some p), world after_ten_swipes).
Proof.
  destruct (score_text_never_raises (sk := toy) (laws := toy_laws)
              "" "data science" (world after_ten_swipes))
    as (b & X & p & _ & _ & _ & _ & Hrun & _).
  - exact after_ten_swipes_reachable.
  - eexists. vm_compute. reflexivity.
  - exists p. exact Hrun.
Defined.

(** C5, at the input where the code departs from it: the fields
    "data science" and "data_science" are different strings with one model
    file, and training the first replaces the bundle the second one loads. *)
Theorem train_model_replaces_other_field :
  "data science" <> "data_science"
  /\ _model_path "data science" = _model_path "data_science"
  /\ let w1 := (train_model "data_science" (world_of db_two_fields)).2 in
     let w2 := (train_model "data science" w1).2 in
     (_load_model_bundle "data_science" w1).1
     = Returned (Some {| vectorizer := ["pandas and numpy"; "line cook"];
                         model := (2%nat, [0; 1]) |})
     /\ (_load_model_bundle "data_science" w2).1
        = Returned (Some {| vectorizer := ["sql and statistics";
                                           "forklift operator"];
                            model := (2%nat, [0; 1]) |}).
Proof.
  split; [discriminate|]. split; [reflexivity|].
  split; vm_compute; reflexivity.
Qed.

(** C4, at the input where the code departs from it: after ten swipes in
    "data science" (five likes, five passes) the field "data_science" has no
    swipe and was never trained, yet its score is a probability. *)
Theorem score_text_without_swipes :
  reachable (world after_ten_swipes)
  /\ select_swipe_count (db (world after_ten_swipes)) "data_science" = 0
  /\ train_calls (world after_ten_swipes) = ["data science"]
  /\ (score_text "welder" "data_science" (world after_ten_swipes)).1
     = Returned (Some 0.5%float).
Proof.
  split; [exact after_ten_swipes_reachable|].
  repeat split; vm_compute; reflexivity.
Qed.

(** ** The swipe route *)

Section SwipeFacts.
Context `{sk : Sklearn}.
Variable shuffle : list Z -> list Z.
Implicit Types (a : App) (job_field : string) (form : Form).

(** Showing the page changes nothing. *)
Lemma swipe_render_state order index a :
  (swipe_render order index a).2 = a.
Proof.
  unfold swipe_render, bind, lift, gets, ret.
  destruct (_ <=? _); [done|].
  destruct (getitem order index); [|done].
  destruct (getitem _ 0); done.
Qed.

(** A swipe the recruiter has already recorded: only the index moves. *)
Lemma swipe_post_duplicate job_field form index a uid rid :
  user_id (session a) = Some uid ->
  resume_id form = Returned rid ->
  select_existing_swipe (db (world a)) rid uid <> [] ->
  swipe_post job_field form index a
  = (Returned (index + 1),
     {| session := with_swipe_index (index + 1) (session a);
        world := world a |}).
Proof.
  intros Huid Hrid Hdup.
  unfold swipe_post, session_item, set_swipe_index, set_session,
    bind, lift, gets, ret, modify.
  rewrite Hrid, Huid.
  destruct (select_existing_swipe _ _ _); [done|]. reflexivity.
Qed.

(** A new swipe: the row is inserted, the count is taken over the table
    with the new row, and the trainer runs when ten divides the count. *)
Lemma swipe_post_fresh job_field form index a uid rid :
  user_id (session a) = Some uid ->
  resume_id form = Returned rid ->
  select_existing_swipe (db (world a)) rid uid = [] ->
  let label := if is_like (choice form) then 1 else 0 in
  let w1 := set_db (insert_swipe rid uid label) (world a) in
  let count := select_swipe_count (db w1) job_field in
  swipe_post job_field form index a
  = if count mod 10 =? 0 then
      match train_model job_field w1 with
      | (Returned used, w2) =>
          (Returned (index + 1),
           {| session := with_swipe_index (index + 1) (session a);
              world := print (Retrained job_field used count) w2 |})
      | (Raised e, w2) => (Raised e, {| session := session a; world := w2 |})
      end
    else
      (Returned (index + 1),
       {| session := with_swipe_index (index + 1) (session a);
          world := w1 |}).
Proof.
  intros Huid Hrid Hnew label w1 count.
  unfold swipe_post, session_item, set_swipe_index, set_session, on_world,
    bind, lift, gets, ret, modify.
  rewrite Hrid, Huid, Hnew. cbn [world session].
  fold label. fold w1. fold count.
  destruct (count mod 10 =? 0); cbn [world session]; [|reflexivity].
  destruct (train_model job_field w1) as [[used|e] w2]; reflexivity.
Qed.

Ltac run_swipe Huid Hrole Hfield :=
  unfold swipe, login_required, swipe_init_order, session_item,
    set_swipe_order, set_swipe_index, set_session, flash,
    bind, gets, ret, modify;
  rewrite Huid; cbv beta iota; rewrite Hrole;
  rewrite bool_decide_eq_true_2 by done; cbv beta iota; cbn [negb];
  rewrite Hfield; cbv beta iota.

(** A POST by a recruiter who chose a field and holds an order ends in the
    state [swipe_post] leaves. *)
Lemma swipe_POST_known_order form a uid c f order :
  user_id (session a) = Some uid ->
  role (session a) = Some "recruiter" ->
  swipe_field (session a) = Some (String c f) ->
  swipe_order (session a) = Some order ->
  (swipe shuffle POST form a).2
  = (swipe_post (String c f) form (default 0 (swipe_index (session a))) a).2.
Proof.
  intros Huid Hrole Hfield Horder.
  run_swipe Huid Hrole Hfield. rewrite Horder. cbv beta iota.
  rewrite Horder. cbv beta iota.
  destruct (swipe_post _ _ _ _) as [[index|e] a1]; [|done].
  apply swipe_render_state.
Qed.

(** With or without an order in the session, the world after such a POST is
    the world [swipe_post] leaves, run from the same world by the same user. *)
Lemma swipe_POST_world form a uid c f :
  user_id (session a) = Some uid ->
  role (session a) = Some "recruiter" ->
  swipe_field (session a) = Some (String c f) ->
  (swipe_order (session a) = None ->
   select_resume_ids (db (world a)) (String c f) <> []) ->
  exists s0 index,
    user_id s0 = Some uid
    /\ (swipe shuffle POST form a).2
       = (swipe_post (String c f) form index
            {| session := s0; world := world a |}).2.
Proof.
  intros Huid Hrole Hfield Hids.
  destruct (swipe_order (session a)) as [order|] eqn:Horder.
  - exists (session a), (default 0 (swipe_index (session a))).
    split; [done|].
    rewrite (swipe_POST_known_order form a uid c f order) by done.
    by destruct a.
  - specialize (Hids eq_refl).
    run_swipe Huid Hrole Hfield. rewrite Horder. cbv beta iota.
    destruct (select_resume_ids _ _) as [|r0 ids]; [done|].
    cbv beta iota.
    cbn [session world swipe_order swipe_index with_swipe_index
         with_swipe_order default from_option].
    exists (with_swipe_index 0 (with_swipe_order (shuffle (r0 :: ids))
                                                 (session a))), 0.
    split; [exact Huid|]. change (Datatypes.id 0) with 0.
    destruct (swipe_post _ _ _ _) as [[index|e] a1]; [|reflexivity].
    apply swipe_render_state.
Qed.

(** The count taken after the insert includes the new swipe when its resume
    is in the field. *)
Lemma swipe_count_insert (d : DB) rid uid label job_field (r : Resume) :
  r ∈ resumes d -> r_id r = rid -> r_job_field r = job_field ->
  select_swipe_count d job_field + 1
  <= select_swipe_count (insert_swipe rid uid label d) job_field.
Proof.
  intros Hr Hid Hfield.
  unfold select_swipe_count, swipes_join_resumes, insert_swipe.
  cbn [swipes resumes].
  rewrite bind_app, length_app, bind_singleton. cbn [s_resume_id].
  match goal with
  | |- context [length (?l ≫= ?k)] =>
      assert (Hin : (l ≫= k) <> []); [|destruct (l ≫= k); [done|simpl; lia]]
  end.
  intros Hnil.
  assert (Hmem : r ∈ filter (fun r0 => rid = r_id r0 /\ r_job_field r0 = job_field)
                            (resumes d)).
  { apply list_elem_of_filter. by repeat split. }
  eapply (elem_of_nil (_, r)). rewrite <- Hnil.
  apply list_elem_of_bind. exists r. split; [|exact Hmem].
  apply list_elem_of_singleton. reflexivity.
Qed.

Lemma multiple_of_ten (count : Z) :
  1 <= count -> (count mod 10 = 0 <-> exists k, 0 < k /\ count = 10 * k).
Proof.
  intros Hpos. split.
  - intros Hmod. exists (count / 10).
    pose proof (Z.div_mod count 10 ltac:(lia)). lia.
  - intros (k & _ & ->). rewrite Z.mul_comm. by apply Z.mod_mul.
Qed.

(** What holds of the tenth-swipe rule. When a recruiter's POST records a
    new swipe on a resume of the chosen field (which the route does not
    check), the count taken after the insert includes that swipe, and
    [train_model] is called for the field during the request exactly when
    the count is a positive multiple of 10. *)
Theorem swipe_retrains_every_tenth form a uid job_field rid (r : Resume) :
  user_id (session a) = Some uid ->
  role (session a) = Some "recruiter" ->
  swipe_field (session a) = Some job_field ->
  resume_id form = Returned rid ->
  select_existing_swipe (db (world a)) rid uid = [] ->
  r ∈ resumes (db (world a)) -> r_id r = rid -> r_job_field r = job_field ->
  job_field <> "" ->
  let label := if is_like (choice form) then 1 else 0 in
  let w1 := set_db (insert_swipe rid uid label) (world a) in
  let count := select_swipe_count (db w1) job_field in
  let a' := (swipe shuffle POST form a).2 in
  db (world a') = db w1
  /\ select_swipe_count (db (world a)) job_field + 1 <= count
  /\ (count mod 10 = 0 <-> exists k, 0 < k /\ count = 10 * k)
  /\ train_calls (world a')
     = (train_calls (world a)
        ++ if count mod 10 =? 0 then [job_field] else [])%list
  /\ files (world a')
     = if count mod 10 =? 0 then files (train_model job_field w1).2
       else files (world a).
Proof.
  intros Huid Hrole Hfield Hrid Hnew Hr Hid Hrfield Hne label w1 count a'.
  assert (Hcount : select_swipe_count (db (world a)) job_field + 1 <= count).
  { by apply (swipe_count_insert _ _ _ _ _ r). }
  assert (Hpos : 1 <= count).
  { unfold select_swipe_count in Hcount |- *. lia. }
  destruct job_field as [|c f]; [done|].
  destruct (swipe_POST_world form a uid c f Huid Hrole Hfield)
    as (s0 & index & Hs0 & Hrun).
  { intros _ Hnil. apply fmap_nil_inv in Hnil.
    eapply (elem_of_nil r). rewrite <- Hnil.
    by apply list_elem_of_filter. }
  subst a'. rewrite Hrun.
  rewrite (swipe_post_fresh (String c f) form index
             {| session := s0; world := world a |} uid rid Hs0 Hrid Hnew).
  cbn [world session]. fold label. fold w1. fold count.
  pose proof (train_model_frame (String c f) w1) as [Hdb Htrace].
  split; [|split; [exact Hcount|split; [by apply multiple_of_ten|]]].
  - destruct (count mod 10 =? 0); [|reflexivity].
    destruct (train_model _ w1) as [[used|e] w2]; exact Hdb.
  - destruct (count mod 10 =? 0).
    + destruct (train_model _ w1) as [[used|e] w2]; by split.
    + split; [|reflexivity]. cbn. by rewrite app_nil_r.
Qed.

(** C10. A POST by a recruiter for a resume that recruiter has already
    swiped leaves the world as it was (no row inserted, no call of the
    trainer, no file written, whatever the count of the field) and moves
    the index of the session by one. *)
Theorem swipe_duplicate_only_advances form a uid job_field order rid :
  user_id (session a) = Some uid ->
  role (session a) = Some "recruiter" ->
  swipe_field (session a) = Some job_field ->
  job_field <> "" ->
  swipe_order (session a) = Some order ->
  resume_id form = Returned rid ->
  select_existing_swipe (db (world a)) rid uid <> [] ->
  (swipe shuffle POST form a).2
  = {| session := with_swipe_index (default 0 (swipe_index (session a)) + 1)
                                   (session a);
       world := world a |}.
Proof.
  intros Huid Hrole Hfield Hne Horder Hrid Hdup.
  destruct job_field as [|c f]; [done|].
  rewrite (swipe_POST_known_order form a uid c f order) by done.
  by rewrite (swipe_post_duplicate _ form _ a uid rid).
Qed.

End SwipeFacts.

Lemma swipe_retrains_every_tenth_witness :
  let first := (swipe no_shuffle POST (like_even 1) before_ten_swipes).2 in
  let tenth := (swipe no_shuffle POST (like_even 10) after_nine_swipes).2 in
  train_calls (world first) = []
  /\ train_calls (world tenth) = ["data science"].
Proof.
  split.
  - destruct (swipe_retrains_every_tenth (sk := toy) no_shuffle (like_even 1)
                before_ten_swipes 1 "data science" 1
                (resume_of 1 "data science" "sql and statistics"))
      as (_ & _ & _ & Htrace & _);
      [reflexivity | reflexivity | reflexivity | reflexivity | by_compute
      | in_list | reflexivity | reflexivity | discriminate | exact Htrace].
  - destruct (swipe_retrains_every_tenth (sk := toy) no_shuffle (like_even 10)
                after_nine_swipes 1 "data science" 10
                (resume_of 10 "data science" "sql and statistics"))
      as (_ & _ & _ & Htrace & _);
      [by_compute | by_compute | by_compute | reflexivity | by_compute
      | in_list | reflexivity | reflexivity | discriminate | ].
    vm_compute in Htrace. exact Htrace.
Defined.

Lemma swipe_duplicate_only_advances_witness :
  select_swipe_count (db (world after_ten_swipes)) "data science" = 10
  /\ (swipe no_shuffle POST (like_even 3) after_ten_swipes).2
     = {| session := recruiter_session "data science" ten 11;
          world := world after_ten_swipes |}.
Proof.
  split; [by_compute|].
  rewrite (swipe_duplicate_only_advances (sk := toy) no_shuffle (like_even 3)
             after_ten_swipes 1 "data science" ten 3).
  - by_compute.
  - by_compute.
  - by_compute.
  - by_compute.
  - discriminate.
  - by_compute.
  - reflexivity.
  - by_compute.
Defined.

(** C2, at the input where the code departs from it: the recruiter's
    session says "finance" and the posted resume is the tenth "software"
    resume to be swiped. The swipe is recorded and "software" now counts ten
    swipes, but the trainer is not called for "software"; it is called for
    "finance", whose count is zero, and no model file is written. *)
Theorem swipe_tenth_of_other_field :
  select_swipe_count (db (world stale_before)) "software" = 9
  /\ select_swipe_count (db (world stale_post)) "software" = 10
  /\ select_swipe_count (db (world stale_post)) "finance" = 0
  /\ train_calls (world stale_post) = ["finance"]
  /\ stdout (world stale_post) = [Retrained "finance" 0 0]
  /\ files (world stale_post) = ∅.
Proof. repeat split; by_compute. Qed.

(** The route does not check that the posted resume is of the chosen field.
    When it is not, the new swipe is not in the count, and a count of zero
    also sets off the trainer. *)
Example swipe_cross_field_trains_at_zero :
  select_swipe_count (db (world cross_field_post)) "finance" = 0
  /\ length (swipes (db (world cross_field_post))) = 1%nat
  /\ train_calls (world cross_field_post) = ["finance"]
  /\ stdout (world cross_field_post) = [Retrained "finance" 0 0].
Proof. repeat split; vm_compute; reflexivity. Qed.

(** ** The feedback route *)

Lemma message_text_inj (m1 m2 : Message) :
  message_text m1 = message_text m2 -> m1 = m2.
Proof.
  destruct m1, m2; intros Heq; try reflexivity;
    vm_compute in Heq; discriminate.
Qed.

Lemma bucket_ranges (score_pct : Z) :
  (80 <= score_pct -> bucket score_pct = Favorable)
  /\ (50 <= score_pct <= 79 -> bucket score_pct = Mixed)
  /\ (score_pct < 50 -> bucket score_pct = NeedsImprovement).
Proof.
  unfold bucket. repeat split; intros Hrange.
  - destruct (80 <=? score_pct) eqn:H80; [done|]. apply Z.leb_gt in H80. lia.
  - destruct (80 <=? score_pct) eqn:H80; [apply Z.leb_le in H80; lia|].
    destruct (50 <=? score_pct) eqn:H50; [done|]. apply Z.leb_gt in H50. lia.
  - destruct (80 <=? score_pct) eqn:H80; [apply Z.leb_le in H80; lia|].
    destruct (50 <=? score_pct) eqn:H50; [apply Z.leb_le in H50; lia|]. done.
Qed.

(** The percentage is rounded before the buckets apply: the float nearest
    to 0.495 times 100 is 49.5, which rounds to the even 50. *)
Example feedback_rounds_before_bucketing :
  feedback_outputs (Some 0x1.fae147ae147aep-2%float)
  = Returned (Some 50, Mixed).
Proof. vm_compute. reflexivity. Qed.

Section FeedbackFacts.
Context `{sk : Sklearn}.

(** The route shows the two outputs for the candidate's latest resume. *)
Lemma feedback_route (a : App) uid resume rows raw_score :
  user_id (session a) = Some uid ->
  role (session a) = Some "candidate" ->
  select_latest_resume (db (world a)) uid = resume :: rows ->
  (score_text (r_text resume) (r_job_field resume) (world a)).1
  = Returned raw_score ->
  feedback a
  = (match feedback_outputs raw_score with
     | Returned out =>
         Returned (render_feedback resume out.1 (message_text out.2))
     | Raised e => Raised e
     end, a).
Proof.
  intros Huid Hrole Hlatest Hscore.
  pose proof (score_text_pure (r_text resume) (r_job_field resume) (world a))
    as Hpure.
  unfold feedback, login_required, session_item, on_world,
    bind, gets, ret, lift.
  rewrite Huid. cbv beta iota. rewrite Hrole.
  rewrite bool_decide_eq_true_2 by done. cbv beta iota. cbn [negb].
  rewrite Huid. cbv beta iota. rewrite Hlatest. cbv beta iota.
  destruct (score_text _ _ _) as [r w']. simpl in Hscore, Hpure. subst r w'.
  destruct a as [s w]. cbn [session world].
  destruct (feedback_outputs raw_score); reflexivity.
Qed.

(** C9. For a candidate with a resume, [feedback] shows, besides the latest
    resume: with no score, no percentage and the not-enough-data message;
    with a score, the integer percentage [round(raw_score * 100)] and the
    message chosen by it, the favorable one from 80 up, the mixed one from 50
    to 79 and the needs-improvement one below 50. *)
Theorem feedback_three_buckets (a : App) uid resume rows raw_score :
  user_id (session a) = Some uid ->
  role (session a) = Some "candidate" ->
  select_latest_resume (db (world a)) uid = resume :: rows ->
  (score_text (r_text resume) (r_job_field resume) (world a)).1
  = Returned raw_score ->
  match raw_score with
  | None =>
      (feedback a).1
      = Returned (render_feedback resume None
          ("Our AI doesn't have enough recruiter swipe data yet to give " +:+
           "reliable feedback. Ask recruiters to swipe more resumes, " +:+
           "then try again."))
  | Some raw =>
      match round (raw * 100)%float with
      | Raised e => (feedback a).1 = Raised e
      | Returned score_pct =>
          exists feedback_message,
            (feedback a).1
            = Returned (render_feedback resume (Some score_pct)
                                        feedback_message)
            /\ (80 <= score_pct ->
                feedback_message
                = "Your resume currently scores very well. Recruiters " +:+
                  "whose swipes trained this model tend to like resumes " +:+
                  "like yours.")
            /\ (50 <= score_pct <= 79 ->
                feedback_message
                = "Your resume is in a solid range, but there’s room to " +:+
                  "improve. Tighten bullets, quantify impact, and make " +:+
                  "sure your strongest experiences and skills are front " +:+
                  "and center.")
            /\ (score_pct < 50 ->
                feedback_message
                = "Right now, the model predicts your resume might not " +:+
                  "perform as well with recruiters. Focus on clearer " +:+
                  "structure, stronger action verbs, and concrete numbers " +:+
                  "that show what you actually achieved.")
      end
  end.
Proof.
  intros Huid Hrole Hlatest Hscore.
  rewrite (feedback_route a uid resume rows raw_score Huid Hrole Hlatest
             Hscore).
  destruct raw_score as [raw|]; [|reflexivity].
  unfold feedback_outputs.
  destruct (round _) as [score_pct|e]; [|reflexivity].
  cbn [fst snd].
  exists (message_text (bucket score_pct)). split; [reflexivity|].
  destruct (bucket_ranges score_pct) as (Hhigh & Hmid & Hlow).
  repeat split; intros Hrange.
  - by rewrite Hhigh.
  - by rewrite Hmid.
  - by rewrite Hlow.
Qed.

End FeedbackFacts.

Lemma feedback_three_buckets_witness :
  (feedback {| session := candidate_session;
               world := world after_ten_swipes |}).1
  = Returned (render_feedback
                (resume_of 10 "data science" "sql and statistics") (Some 50)
                ("Your resume is in a solid range, but there’s room to " +:+
                 "improve. Tighten bullets, quantify impact, and make " +:+
                 "sure your strongest experiences and skills are front " +:+
                 "and center.")).
Proof.
  set (a := {| session := candidate_session;
               world := world after_ten_swipes |}).
  set (r := resume_of 10 "data science" "sql and statistics").
  assert (Huid : user_id (session a) = Some 2) by reflexivity.
  assert (Hrole : role (session a) = Some "candidate") by reflexivity.
  assert (Hlatest : select_latest_resume (db (world a)) 2 = [r])
    by by_compute.
  assert (Hscore : (score_text (r_text r) (r_job_field r) (world a)).1
                   = Returned (Some 0.5%float)) by by_compute.
  pose proof (feedback_three_buckets (sk := toy) a 2 r [] (Some 0.5%float)
                Huid Hrole Hlatest Hscore) as H.
  cbv beta iota in H.
  change (round (0.5 * 100)%float) with (Returned 50 : result Z) in H.
  cbv beta iota in H.
  destruct H as (feedback_message & Hrun & _ & Hmid & _).
  rewrite Hrun, Hmid by lia. reflexivity.
Defined.

(** ** Where a model file can come from *)

Section Provenance.
Context `{sk : Sklearn}.
Implicit Types (w : World) (d : DB) (job_field : string).

(** The field has a recorded swipe: some swipe is on a resume of the field. *)
Lemma swipe_count_pos d job_field :
  0 < select_swipe_count d job_field
  <-> exists s r, s ∈ swipes d /\ r ∈ resumes d
                  /\ s_resume_id s = r_id r /\ r_job_field r = job_field.
Proof.
  unfold select_swipe_count, swipes_join_resumes. split.
  - intros Hpos.
    destruct (swipes d ≫= _) as [|[s r] l] eqn:Hjoin; [simpl in Hpos; lia|].
    assert (Hin : (s, r) ∈ (s, r) :: l) by apply list_elem_of_here.
    rewrite <- Hjoin in Hin.
    apply list_elem_of_bind in Hin as (s' & Hin & Hs').
    apply list_elem_of_bind in Hin as (r' & Hin & Hr').
    apply list_elem_of_singleton in Hin. injection Hin as -> ->.
    apply list_elem_of_filter in Hr' as [[Hid Hfield] Hr'].
    by exists s', r'.
  - intros (s & r & Hs & Hr & Hid & Hfield).
    assert (Hin : (s, r) ∈ swipes d ≫= (fun s =>
              filter (fun r => s_resume_id s = r_id r
                               /\ r_job_field r = job_field) (resumes d)
              ≫= fun r => [(s, r)])).
    { apply list_elem_of_bind. exists s. split; [|done].
      apply list_elem_of_bind. exists r. split.
      - by apply list_elem_of_singleton.
      - by apply list_elem_of_filter. }
    destruct (swipes d ≫= _); [by apply elem_of_nil in Hin|]. simpl. lia.
Qed.

Lemma train_model_files_have_swipes job_field w :
  files_have_swipes w -> files_have_swipes (train_model job_field w).2.
Proof.
  intros Hw path.
  rewrite (proj1 (train_model_frame job_field w)).
  destruct (decide (path = _model_path job_field)) as [->|Hne];
    [|rewrite train_model_other_paths by done; apply Hw].
  unfold train_model, bind, modify, gets, ret, lift.
  cbn [note_train_call db fst snd].
  remember (select_training_rows (db w) job_field) as rows eqn:Hrows.
  assert (Hcount : rows <> [] -> 0 < select_swipe_count (db w) job_field).
  { intros Hne. unfold select_swipe_count. subst rows.
    unfold select_training_rows in Hne.
    destruct (swipes_join_resumes _ _); [done|]. simpl. lia. }
  destruct rows as [|r rs]; [apply Hw|].
  destruct (len_set _ <? 2); [apply Hw|].
  destruct (fit_transform _ _) as [[v X]|e]; [|apply Hw].
  destruct (fit _ _ _) as [m|e]; [|apply Hw].
  intros _. exists job_field. split; [done|]. by apply Hcount.
Qed.

Lemma grow_files_have_swipes (f : DB -> DB) w :
  (forall x, x ∈ swipes (db w) -> x ∈ swipes (f (db w))) ->
  (forall x, x ∈ resumes (db w) -> x ∈ resumes (f (db w))) ->
  files_have_swipes w -> files_have_swipes (set_db f w).
Proof.
  intros Hs Hr Hw path Hpath.
  destruct (Hw path Hpath) as (g & Hg & Hcount).
  exists g. split; [done|]. cbn [set_db db].
  apply swipe_count_pos in Hcount as (s & r & ? & ? & ? & ?).
  apply swipe_count_pos. exists s, r. auto.
Qed.

Lemma reachable_files_have_swipes w : reachable w -> files_have_swipes w.
Proof.
  induction 1 as [w [Hfiles Hswipes] | w w' _ IH Hstep].
  - intros path [b Hb]. rewrite Hfiles in Hb. by rewrite lookup_empty in Hb.
  - destruct Hstep as [w u | w r | shuffle method form s w | s w | f w].
    + apply grow_files_have_swipes; [done..|exact IH].
    + apply grow_files_have_swipes; [done| |exact IH].
      intros x Hx. cbn [add_resume resumes]. apply elem_of_app. by left.
    + apply (preserves_swipe files_have_swipes) with
        (a := {| session := s; world := w |}); [| | |exact IH].
      * intros rid uid label w0 _ Hw0.
        apply grow_files_have_swipes; [|done|exact Hw0].
        intros x Hx. cbn [insert_swipe swipes]. apply elem_of_app. by left.
      * intros g w0. apply train_model_files_have_swipes.
      * intros l w0 Hw0. exact Hw0.
    + apply (preserves_feedback files_have_swipes
               {| session := s; world := w |} IH).
    + by apply train_model_files_have_swipes.
Qed.

(** X27. In a reachable world, the score of a field is absent when no field
    with the same model file has a recorded swipe. *)
Lemma score_text_absent_without_swipes text job_field w :
  reachable w ->
  (forall g, _model_path g = _model_path job_field ->
             select_swipe_count (db w) g = 0) ->
  score_text text job_field w = (Returned None, w).
Proof.
  intros Hreach Hnone.
  assert (Hfile : files w !! _model_path job_field = None).
  { destruct (files w !! _model_path job_field) as [b|] eqn:Hb; [|done].
    destruct (reachable_files_have_swipes w Hreach (_model_path job_field))
      as (g & Hg & Hcount); [by eexists|].
    rewrite (Hnone g Hg) in Hcount. lia. }
  unfold score_text, _load_model_bundle, bind, gets, ret.
  by rewrite Hfile.
Qed.

End Provenance.

(** * Further properties of the code *)

(** ** [ml_model.py] *)

Section ModelStoreMore.
Context `{sk : Sklearn}.
Implicit Types (w : World) (job_field text path : string).

Lemma size_list_to_set_le (l : list Z) :
  (size (list_to_set l : gset Z) <= length l)%nat.
Proof.
  induction l as [|x l IH].
  - rewrite list_to_set_nil, size_empty. simpl. lia.
  - rewrite list_to_set_cons, size_union_alt, size_singleton. simpl.
    assert (Hsub : (list_to_set l : gset Z) ∖ {[x]} ⊆ list_to_set l)
      by (by apply subseteq_difference_l).
    apply subseteq_size in Hsub. lia.
Qed.

(** X1. Two field names share a model file exactly when they agree after the
    replacement of slashes and spaces; names that hold neither have files of
    their own. *)
Theorem model_path_sharing (f g : string) :
  (_model_path f = _model_path g
   <-> replace " "%char "_"%char (replace "/"%char "_"%char f)
       = replace " "%char "_"%char (replace "/"%char "_"%char g))
  /\ (plain f -> plain g -> _model_path f = _model_path g -> f = g).
Proof.
  split; [apply _model_path_eq_iff | apply _model_path_plain_inj].
Qed.

Lemma model_path_sharing_witness :
  _model_path "a b/c" = _model_path "a/b c"
  /\ (_model_path "data" = _model_path "Data" -> "data" = "Data").
Proof.
  split.
  - apply (proj1 (model_path_sharing "a b/c" "a/b c")). reflexivity.
  - apply (proj2 (model_path_sharing "data" "Data")); reflexivity.
Defined.

(** X2. Whatever [train_model] does for a field (return or raise), it never
    writes the database, and it leaves every file but the field's own as it
    was. *)
Theorem train_model_writes_only_its_file job_field w path :
  path <> _model_path job_field ->
  files (train_model job_field w).2 !! path = files w !! path
  /\ db (train_model job_field w).2 = db w.
Proof.
  intros Hne. split.
  - by apply train_model_other_paths.
  - apply train_model_frame.
Qed.

(** X3. When [train_model] returns, it returns either 0 with no file
    changed, or the number of swipes recorded for the field, which is then at
    least 2, with a bundle written at the field's path. *)
Theorem train_model_returns job_field w n w' :
  train_model job_field w = (Returned n, w') ->
  (n = 0 /\ files w' = files w)
  \/ (2 <= n /\ n = select_swipe_count (db w) job_field
      /\ is_Some (files w' !! _model_path job_field)).
Proof.
  unfold train_model, bind, modify, gets, ret, lift.
  cbn [note_train_call db fst snd].
  assert (Hcount : Z.of_nat (length (select_training_rows (db w) job_field))
                   = select_swipe_count (db w) job_field).
  { unfold select_training_rows, select_swipe_count. by rewrite length_fmap. }
  remember (select_training_rows (db w) job_field) as rows eqn:Hrows.
  destruct rows as [|r rs]; [intros [= <- <-]; by left|].
  destruct (len_set _ <? 2) eqn:Hlen; [intros [= <- <-]; by left|].
  apply Z.ltb_ge in Hlen.
  destruct (fit_transform _ _) as [[v X]|e]; [|discriminate].
  destruct (fit _ _ _) as [m|e]; [|discriminate].
  destruct (open_wb _); [|discriminate].
  intros [= <- <-]. right.
  unfold len_set in Hlen.
  pose proof (size_list_to_set_le (label <$> r :: rs)) as Hle.
  rewrite length_fmap in Hle. rewrite length_fmap. cbn [length] in Hle, Hcount.
  split; [lia|]. split; [exact Hcount|].
  cbn [set_files files]. rewrite lookup_insert_eq. by eexists.
Qed.

(** X4. [score_text] never changes the world, whether it returns or raises,
    and it returns [None] exactly when no file exists at the field's path. *)
Theorem score_text_reads_only text job_field w :
  (score_text text job_field w).2 = w
  /\ ((score_text text job_field w).1 = Returned None
      <-> files w !! _model_path job_field = None).
Proof.
  split; [apply score_text_pure | apply score_text_absent_iff].
Qed.

End ModelStoreMore.

Lemma train_model_writes_only_its_file_witness :
  files (train_model "software" (world after_ten_swipes)).2
    !! _model_path "data science"
  = files (world after_ten_swipes) !! _model_path "data science".
Proof.
  apply (train_model_writes_only_its_file (sk := toy) "software"
           (world after_ten_swipes) (_model_path "data science")).
  discriminate.
Defined.

Lemma train_model_returns_witness :
  2 <= 2 /\ 2 = select_swipe_count db_mixed "software".
Proof.
  destruct (train_model_returns (sk := toy) "software" (world_of db_mixed) 2
              (train_model "software" (world_of db_mixed)).2)
    as [[Hzero _] | (Hn & Hcount & _)].
  - by_compute.
  - discriminate.
  - split; [exact Hn | exact Hcount].
Defined.

Lemma score_text_absent_without_swipes_witness :
  score_text "welder" "finance" (world_of db_ten)
  = (Returned None, world_of db_ten).
Proof.
  apply (score_text_absent_without_swipes (sk := toy)).
  - apply reachable_initial. by split.
  - intros g _. reflexivity.
Defined.

(** ** [swipe], beyond the tenth-swipe rule *)

Section SwipeMore.
Context `{sk : Sklearn}.
Implicit Types (a : App) (w : World) (job_field : string) (form : Form).

(** The route keeps a property of the world as soon as its POST branch does. *)
Lemma preserves_swipe_from_post (I : World -> Prop) shuffle method form :
  (method = POST ->
   forall job_field index, preserves I (swipe_post job_field form index)) ->
  preserves I (swipe shuffle method form).
Proof.
  intros Hpost.
  unfold swipe, login_required, flash.
  apply preserves_bind; [apply preserves_gets|]. intros [uid|]; cycle 1.
  { apply preserves_bind; [apply preserves_set_session|]. intros _.
    apply preserves_ret. }
  apply preserves_bind; [apply preserves_gets|]. intros role.
  destruct (negb _).
  { apply preserves_bind; [apply preserves_set_session|]. intros _.
    apply preserves_ret. }
  apply preserves_bind; [apply preserves_gets|]. intros [[|c f]|];
    try (apply preserves_bind; [apply preserves_set_session|]; intros _;
         apply preserves_ret).
  apply preserves_bind; [apply preserves_swipe_init_order|].
  intros [response|]; [apply preserves_ret|].
  apply preserves_bind; [apply preserves_session_item|]. intros order.
  apply preserves_bind; [apply preserves_gets|]. intros index.
  apply preserves_bind; [|intros; apply preserves_swipe_render].
  destruct method; [apply preserves_ret | by apply Hpost].
Qed.

(** The POST branch inserts only after its query found no row. *)
Lemma preserves_swipe_post_guarded (I : World -> Prop) job_field form index :
  (forall rid uid label w,
      label = 0 \/ label = 1 ->
      select_existing_swipe (db w) rid uid = [] ->
      I w -> I (set_db (insert_swipe rid uid label) w)) ->
  (forall g w, I w -> I (train_model g w).2) ->
  (forall l w, I w -> I (print l w)) ->
  preserves I (swipe_post job_field form index).
Proof.
  intros Hinsert Htrain Hprint a Ha.
  destruct (resume_id form) as [rid|e] eqn:Hrid; cycle 1.
  { unfold swipe_post, bind, lift. by rewrite Hrid. }
  destruct (user_id (session a)) as [uid|] eqn:Huid; cycle 1.
  { unfold swipe_post, session_item, bind, lift, gets, raise.
    by rewrite Hrid, Huid. }
  destruct (select_existing_swipe (db (world a)) rid uid) as [|x xs] eqn:Hex.
  - rewrite (swipe_post_fresh job_field form index a uid rid Huid Hrid Hex).
    set (label := if is_like (choice form) then 1 else 0).
    assert (Hw1 : I (set_db (insert_swipe rid uid label) (world a))).
    { apply Hinsert; [|done..]. unfold label. destruct (is_like _); auto. }
    destruct (_ =? 0); [|exact Hw1].
    specialize (Htrain job_field _ Hw1).
    destruct (train_model job_field _) as [[used|e] w2]; cbn [snd world] in *.
    + by apply Hprint.
    + exact Htrain.
  - rewrite (swipe_post_duplicate job_field form index a uid rid Huid Hrid);
      [exact Ha | by rewrite Hex].
Qed.

(** An invariant of the worlds the application can reach: it holds at the
    start and every step keeps it. *)
Lemma reachable_invariant (I : World -> Prop) :
  (forall w, initial w -> I w) ->
  (forall f w, swipes (f (db w)) = swipes (db w) -> I w -> I (set_db f w)) ->
  (forall rid uid label w,
      label = 0 \/ label = 1 ->
      select_existing_swipe (db w) rid uid = [] ->
      I w -> I (set_db (insert_swipe rid uid label) w)) ->
  (forall g w, I w -> I (train_model g w).2) ->
  (forall l w, I w -> I (print l w)) ->
  forall w, reachable w -> I w.
Proof.
  intros Hinit Hrows Hinsert Htrain Hprint w Hreach.
  induction Hreach as [w Hw | w w' _ IH Hstep]; [by apply Hinit|].
  destruct Hstep as [w u | w r | shuffle method form s w | s w | g w].
  - by apply Hrows.
  - by apply Hrows.
  - apply (preserves_swipe_from_post I shuffle method form) with
      (a := {| session := s; world := w |}); [|exact IH].
    intros _ job_field index.
    by apply preserves_swipe_post_guarded.
  - apply (preserves_feedback I {| session := s; world := w |} IH).
  - by apply Htrain.
Qed.

(** X5. Every swipe the application records carries the label 0 or 1. *)
Theorem reachable_labels_binary w :
  reachable w -> binary_labels (db w).
Proof.
  apply (reachable_invariant (fun w => binary_labels (db w))).
  - intros w0 [_ Hswipes]. unfold binary_labels. rewrite Hswipes. constructor.
  - intros f w0 Hsame Hw0. unfold binary_labels in *. cbn [set_db db].
    by rewrite Hsame.
  - intros rid uid label w0 Hlabel _ Hw0. unfold binary_labels in *.
    cbn [set_db db insert_swipe swipes].
    apply Forall_app. split; [done|]. by apply Forall_singleton.
  - intros g w0 Hw0. by rewrite (proj1 (train_model_frame g w0)).
  - intros l w0 Hw0. exact Hw0.
Qed.

(** X6. The application never records two swipes of one recruiter on one
    resume. *)
Theorem reachable_no_duplicate_swipes w :
  reachable w -> no_duplicate_swipes (db w).
Proof.
  apply (reachable_invariant (fun w => no_duplicate_swipes (db w))).
  - intros w0 [_ Hswipes]. unfold no_duplicate_swipes. rewrite Hswipes.
    constructor.
  - intros f w0 Hsame Hw0. unfold no_duplicate_swipes in *. cbn [set_db db].
    by rewrite Hsame.
  - intros rid uid label w0 _ Hnone Hw0. unfold no_duplicate_swipes in *.
    cbn [set_db db insert_swipe swipes].
    rewrite fmap_app. apply NoDup_app. split; [exact Hw0|]. split.
    + intros [rid' uid'] Hin Hnew.
      apply list_elem_of_singleton in Hnew. injection Hnew as -> ->.
      apply list_elem_of_fmap in Hin as (s & Hkey & Hs).
      injection Hkey as Hr Hu.
      unfold select_existing_swipe in Hnone. apply fmap_nil_inv in Hnone.
      eapply (elem_of_nil s). rewrite <- Hnone.
      apply list_elem_of_filter. by repeat split.
    + apply NoDup_singleton.
  - intros g w0 Hw0. by rewrite (proj1 (train_model_frame g w0)).
  - intros l w0 Hw0. exact Hw0.
Qed.

End SwipeMore.

Lemma reachable_labels_binary_witness :
  binary_labels (db (world after_ten_swipes)).
Proof.
  apply (reachable_labels_binary (sk := toy)).
  exact after_ten_swipes_reachable.
Defined.

Lemma reachable_no_duplicate_swipes_witness :
  no_duplicate_swipes (db (world after_ten_swipes)).
Proof.
  apply (reachable_no_duplicate_swipes (sk := toy)).
  exact after_ten_swipes_reachable.
Defined.

Section SwipeRequests.
Context `{sk : Sklearn}.
Variable shuffle : list Z -> list Z.
Implicit Types (a : App) (w : World) (job_field : string) (form : Form).

(** X7. A request to [/swipe] from a session that is not logged in, is not a
    recruiter's, or has no chosen field, is answered by a redirect and
    changes nothing in the world. *)
Theorem swipe_refuses method form a :
  user_id (session a) = None
  \/ role (session a) <> Some "recruiter"
  \/ swipe_field (session a) = None
  \/ swipe_field (session a) = Some "" ->
  exists endpoint,
    (swipe shuffle method form a).1 = Returned (redirect endpoint)
    /\ world (swipe shuffle method form a).2 = world a.
Proof.
  intros Hwho.
  unfold swipe, login_required, flash, set_session, bind, gets, ret, modify.
  destruct (user_id (session a)) as [uid|]; [|by eexists].
  destruct (bool_decide (role (session a) = Some "recruiter")) eqn:Hrole;
    cbn [negb]; [|by eexists].
  apply bool_decide_eq_true in Hrole.
  destruct (swipe_field (session a)) as [[|c f]|]; [by eexists| |by eexists].
  destruct Hwho as [? | [? | [? | ?]]]; done.
Qed.

(** X8. A GET of [/swipe] never changes the world: no row, no file, no
    call of the trainer. *)
Theorem swipe_GET_reads_only form a :
  world (swipe shuffle GET form a).2 = world a.
Proof.
  symmetry.
  apply (preserves_swipe_from_post (fun w => world a = w) shuffle GET form);
    [discriminate | reflexivity].
Qed.

(** A recruiter's POST with an order in the session, in full. *)
Lemma swipe_POST_known_order_run form a uid c f order :
  user_id (session a) = Some uid ->
  role (session a) = Some "recruiter" ->
  swipe_field (session a) = Some (String c f) ->
  swipe_order (session a) = Some order ->
  swipe shuffle POST form a
  = match swipe_post (String c f) form
            (default 0 (swipe_index (session a))) a with
    | (Returned index, a1) => swipe_render order index a1
    | (Raised e, a1) => (Raised e, a1)
    end.
Proof.
  intros Huid Hrole Hfield Horder.
  unfold swipe, login_required, swipe_init_order, session_item,
    bind, gets, ret.
  rewrite Huid. cbv beta iota. rewrite Hrole.
  rewrite bool_decide_eq_true_2 by done. cbv beta iota. cbn [negb].
  rewrite Hfield. cbv beta iota. rewrite Horder. cbv beta iota.
  rewrite Horder. cbv beta iota.
  by destruct (swipe_post _ _ _ _) as [[index|e] a1].
Qed.



Lemma train_model_raised_files job_field w e w' :
  train_model job_field w = (Raised e, w') -> files w' = files w.
Proof.
  unfold train_model, bind, modify, gets, ret, lift.
  cbn [note_train_call db fst snd].
  destruct (select_training_rows (db w) job_field) as [|r rs]; [discriminate|].
  destruct (len_set _ <? 2); [discriminate|].
  destruct (fit_transform _ _) as [[v X]|e1]; [|by intros [= <- <-]].
  destruct (fit _ _ _) as [m|e2]; [|by intros [= <- <-]].
  destruct (open_wb _) as [|e3]; [discriminate|by intros [= <- <-]].
Qed.

(** X10. When the trainer raises inside a POST (a fit that fails on the
    tenth swipe), the request raises with it, the swipe it had inserted stays
    recorded, and no model file has changed. *)
Theorem swipe_training_failure form a uid job_field order rid e w2 :
  user_id (session a) = Some uid ->
  role (session a) = Some "recruiter" ->
  swipe_field (session a) = Some job_field ->
  job_field <> "" ->
  swipe_order (session a) = Some order ->
  resume_id form = Returned rid ->
  select_existing_swipe (db (world a)) rid uid = [] ->
  let label := if is_like (choice form) then 1 else 0 in
  let w1 := set_db (insert_swipe rid uid label) (world a) in
  select_swipe_count (db w1) job_field mod 10 = 0 ->
  train_model job_field w1 = (Raised e, w2) ->
  (swipe shuffle POST form a).1 = Raised e
  /\ db (world (swipe shuffle POST form a).2)
     = insert_swipe rid uid label (db (world a))
  /\ files (world (swipe shuffle POST form a).2) = files (world a).
Proof.
  intros Huid Hrole Hfield Hne Horder Hrid Hnew label w1 Hten Hraise.
  destruct job_field as [|c f]; [done|].
  rewrite (swipe_POST_known_order_run form a uid c f order) by done.
  rewrite (swipe_post_fresh (String c f) form _ a uid rid Huid Hrid Hnew).
  fold label. fold w1. apply Z.eqb_eq in Hten. rewrite Hten, Hraise.
  cbn [fst snd world].
  pose proof (train_model_frame (String c f) w1) as [Hdb _].
  rewrite Hraise in Hdb. cbn [snd] in Hdb.
  apply train_model_raised_files in Hraise.
  by repeat split.
Qed.

End SwipeRequests.

Lemma swipe_refuses_witness :
  exists endpoint,
    (swipe no_shuffle POST (like_even 1)
           {| session := anonymous_session; world := world_of db_ten |}).1
    = Returned (redirect endpoint)
    /\ world (swipe no_shuffle POST (like_even 1)
                    {| session := anonymous_session;
                       world := world_of db_ten |}).2
       = world_of db_ten.
Proof.
  apply (swipe_refuses (sk := toy) no_shuffle POST (like_even 1)
           {| session := anonymous_session; world := world_of db_ten |}).
  left. reflexivity.
Defined.


Lemma swipe_training_failure_witness :
  (swipe no_shuffle POST (like_even 10) blank_nine).1 = Raised ValueError
  /\ length (swipes (db (world (swipe no_shuffle POST (like_even 10)
                                       blank_nine).2))) = 10%nat.
Proof.
  destruct (swipe_training_failure (sk := toy) no_shuffle (like_even 10)
              blank_nine 1 "software" ten 10 ValueError
              (train_model "software"
                 (set_db (insert_swipe 10 1 1) (world blank_nine))).2)
    as (Hraised & Hdb & _);
    [by_compute | by_compute | by_compute | discriminate | by_compute
    | reflexivity | by_compute | by_compute | by_compute | ].
  split; [exact Hraised|]. rewrite Hdb. reflexivity.
Defined.

(** ** [swipe_select], [swipe_reset], [logout] and [uploaded_file] *)

Section OtherRoutes.
Context `{sk : Sklearn}.
Variable shuffle : list Z -> list Z.
Implicit Types (a : App) (w : World) (form : Form).

(** A GET of [/swipe] by a recruiter whose session has a field and no order
    builds the order from all resumes of the field and starts at 0. *)
Lemma swipe_GET_fresh_order form a uid c f :
  user_id (session a) = Some uid ->
  role (session a) = Some "recruiter" ->
  swipe_field (session a) = Some (String c f) ->
  swipe_order (session a) = None ->
  select_resume_ids (db (world a)) (String c f) <> [] ->
  (swipe shuffle GET form a).2
  = {| session :=
         with_swipe_index 0
           (with_swipe_order
              (shuffle (select_resume_ids (db (world a)) (String c f)))
              (session a));
       world := world a |}.
Proof.
  intros Huid Hrole Hfield Horder Hids.
  unfold swipe, login_required, swipe_init_order, session_item,
    set_swipe_order, set_swipe_index, set_session, flash,
    bind, gets, ret, modify.
  rewrite Huid. cbv beta iota. rewrite Hrole.
  rewrite bool_decide_eq_true_2 by done. cbv beta iota. cbn [negb].
  rewrite Hfield. cbv beta iota. rewrite Horder. cbv beta iota.
  destruct (select_resume_ids _ _) as [|r0 ids]; [done|].
  cbv beta iota.
  cbn [session world swipe_order swipe_index with_swipe_index
       with_swipe_order default from_option].
  apply swipe_render_state.
Qed.

(** A GET of [/swipe] by a recruiter whose session has a field without
    resumes and no order stores nothing and sends back to the select page. *)
Lemma swipe_GET_no_resumes form a uid c f :
  user_id (session a) = Some uid ->
  role (session a) = Some "recruiter" ->
  swipe_field (session a) = Some (String c f) ->
  swipe_order (session a) = None ->
  select_resume_ids (db (world a)) (String c f) = [] ->
  swipe shuffle GET form a
  = (Returned (redirect "swipe_select"),
     {| session := with_flash "No resumes available yet for this field."
                              (session a);
        world := world a |}).
Proof.
  intros Huid Hrole Hfield Horder Hids.
  unfold swipe, login_required, swipe_init_order, session_item,
    set_swipe_order, set_swipe_index, set_session, flash,
    bind, gets, ret, modify.
  rewrite Huid. cbv beta iota. rewrite Hrole.
  rewrite bool_decide_eq_true_2 by done. cbv beta iota. cbn [negb].
  rewrite Hfield. cbv beta iota. rewrite Horder. cbv beta iota.
  by rewrite Hids.
Qed.

(** X11. A recruiter's POST of any non-empty field name to [/swipe/select]
    (the name is not checked against the list shown) is answered by the
    redirect to [/swipe] and drops the order and the index of the session.
    The next GET of [/swipe] changes nothing in the world and keeps the new
    field; when the field has resumes it stores their shuffled ids and
    index 0, whatever the session held before, and when it has none it sends
    back to the select page and stores neither order nor index. *)
Theorem swipe_select_then_swipe chosen form a uid :
  user_id (session a) = Some uid ->
  role (session a) = Some "recruiter" ->
  chosen <> "" ->
  let selected := swipe_select POST (Some chosen) a in
  let next := swipe shuffle GET form selected.2 in
  let ids := select_resume_ids (db (world a)) chosen in
  selected.1 = Returned (respond (redirect "swipe"))
  /\ world next.2 = world a
  /\ swipe_field (session next.2) = Some chosen
  /\ match ids with
     | [] => next.1 = Returned (redirect "swipe_select")
             /\ swipe_order (session next.2) = None
             /\ swipe_index (session next.2) = None
     | _ :: _ => swipe_order (session next.2) = Some (shuffle ids)
                 /\ swipe_index (session next.2) = Some 0
     end.
Proof.
  intros Huid Hrole Hne selected next ids.
  destruct chosen as [|c f]; [done|].
  assert (Hsel : selected
                 = (Returned (respond (redirect "swipe")),
                    {| session := pop_swipe_index
                                    (pop_swipe_order
                                       (with_swipe_field (String c f)
                                                         (session a)));
                       world := world a |})).
  { unfold selected, swipe_select, login_required_as, set_session,
      bind, gets, ret, modify.
    rewrite Huid. cbv beta iota. rewrite Hrole.
    by rewrite bool_decide_eq_true_2 by done. }
  subst next. rewrite Hsel. cbn [fst snd]. split; [reflexivity|].
  destruct ids as [|r0 rest] eqn:Hids; subst ids.
  - by rewrite (swipe_GET_no_resumes form _ uid c f).
  - rewrite (swipe_GET_fresh_order form _ uid c f); try done.
    + cbn [session world]. by rewrite Hids.
    + cbn [world]. by rewrite Hids.
Qed.

(** X12. A recruiter's [/swipe/reset] is answered by the redirect to
    [/swipe], and the next GET of [/swipe] leaves the world untouched. When
    the chosen field has resumes, that GET starts again at position 0 over
    an order that holds every resume of the field, the ones the recruiter has
    already swiped included; when it has none, it sends back to the select
    page and stores neither order nor index. *)
Theorem swipe_reset_then_swipe form a uid job_field :
  (forall ids, shuffle ids ≡ₚ ids) ->
  user_id (session a) = Some uid ->
  role (session a) = Some "recruiter" ->
  swipe_field (session a) = Some job_field ->
  job_field <> "" ->
  let next := swipe shuffle GET form (swipe_reset a).2 in
  let ids := select_resume_ids (db (world a)) job_field in
  (swipe_reset a).1 = Returned (respond (redirect "swipe"))
  /\ world next.2 = world a
  /\ match ids with
     | [] => next.1 = Returned (redirect "swipe_select")
             /\ swipe_order (session next.2) = None
             /\ swipe_index (session next.2) = None
     | _ :: _ => swipe_index (session next.2) = Some 0
                 /\ exists order,
                      swipe_order (session next.2) = Some order
                      /\ order ≡ₚ ids
     end.
Proof.
  intros Hperm Huid Hrole Hfield Hne next ids.
  destruct job_field as [|c f]; [done|].
  assert (Hreset : swipe_reset a
                   = (Returned (respond (redirect "swipe")),
                      {| session := pop_swipe_order
                                      (pop_swipe_index (session a));
                         world := world a |})).
  { unfold swipe_reset, login_required_as, set_session,
      bind, gets, ret, modify.
    rewrite Huid. cbv beta iota. rewrite Hrole.
    by rewrite bool_decide_eq_true_2 by done. }
  subst next. rewrite Hreset. cbn [fst snd]. split; [reflexivity|].
  destruct ids as [|r0 rest] eqn:Hids; subst ids.
  - by rewrite (swipe_GET_no_resumes form _ uid c f).
  - rewrite (swipe_GET_fresh_order form _ uid c f); try done.
    + cbn [session world swipe_index swipe_order with_swipe_index
           with_swipe_order].
      repeat split. eexists. split; [reflexivity|].
      rewrite Hids. apply Hperm.
    + cbn [world]. by rewrite Hids.
Qed.

(** X13. Once [logout] has run, every route behind [login_required]
    answers with the redirect to the login page and leaves the world alone. *)
Theorem logout_locks_routes a method form chosen filename :
  let a0 := (logout a).2 in
  world a0 = world a
  /\ swipe shuffle method form a0
     = (Returned (redirect "login"),
        {| session := with_flash "Please log in first." (session a0);
           world := world a |})
  /\ (feedback a0).1 = Returned (redirect "login")
  /\ world (feedback a0).2 = world a
  /\ swipe_select method chosen a0
     = (Returned (respond (redirect "login")),
        {| session := with_flash "Please log in first." (session a0);
           world := world a |})
  /\ (swipe_reset a0).1 = Returned (respond (redirect "login"))
  /\ world (swipe_reset a0).2 = world a
  /\ (uploaded_file filename a0).1 = Returned (respond (redirect "login"))
  /\ world (uploaded_file filename a0).2 = world a.
Proof. repeat split. Qed.

(** X14. [uploaded_file] offers the file exactly when some resume row has
    that filename and the caller is a recruiter or the owner of the first
    such row; in every case the world is left as it was. *)
Theorem uploaded_file_rule filename a uid :
  user_id (session a) = Some uid ->
  ((uploaded_file filename a).1
   = Returned (send_from_directory UPLOAD_FOLDER filename)
   <-> exists r rest,
         filter (fun r => r_filename r = filename) (resumes (db (world a)))
         = r :: rest
         /\ (role (session a) = Some "recruiter" \/ r_user_id r = uid))
  /\ world (uploaded_file filename a).2 = world a.
Proof.
  intros Huid.
  unfold uploaded_file, login_required_as, select_resume_by_filename,
    flash, set_session, bind, gets, ret, modify.
  rewrite Huid. cbv beta iota.
  destruct (filter _ (resumes (db (world a)))) as [|r rest] eqn:Hrows.
  { cbn. split; [|done]. split; [discriminate|]. by intros (r & rest & ? & _). }
  cbn [fmap list_fmap take fst snd]. rewrite Huid. cbv beta iota.
  destruct (bool_decide (role (session a) = Some "recruiter")) eqn:Hrole;
    cbn [negb andb].
  { apply bool_decide_eq_true in Hrole. split; [|done].
    split; [|done]. intros _. exists r, rest. auto. }
  apply bool_decide_eq_false in Hrole.
  destruct (bool_decide (Some uid = Some (r_user_id r))) eqn:Howner;
    cbn [negb].
  - apply bool_decide_eq_true in Howner. injection Howner as Howner.
    split; [|done]. split; [|done]. intros _. exists r, rest. auto.
  - apply bool_decide_eq_false in Howner. cbn. split; [|done].
    split; [discriminate|].
    intros (r' & rest' & [= <- <-] & [Hrec | Hown]); [done|].
    destruct Howner. by rewrite Hown.
Qed.

End OtherRoutes.

Lemma swipe_select_then_swipe_witness :
  let a' := (swipe no_shuffle GET (like_even 1)
                   (swipe_select POST (Some "software")
                                 cross_field_before).2).2 in
  swipe_field (session a') = Some "software"
  /\ swipe_order (session a') = Some [1]
  /\ swipe_index (session a') = Some 0.
Proof.
  assert (Hne : "software" <> "") by discriminate.
  pose proof (swipe_select_then_swipe (sk := toy) no_shuffle "software"
                (like_even 1) cross_field_before 1 eq_refl eq_refl Hne) as H.
  vm_compute in H. destruct H as (_ & _ & Hfield & Horder & Hindex).
  vm_compute. by repeat split.
Defined.

Lemma swipe_reset_then_swipe_witness :
  swipe_index
    (session (swipe no_shuffle GET (like_even 1)
                    (swipe_reset after_ten_swipes).2).2)
  = Some 0.
Proof.
  assert (Hne : "data science" <> "") by discriminate.
  assert (Hperm : forall ids, no_shuffle ids ≡ₚ ids) by done.
  assert (Huid : user_id (session after_ten_swipes) = Some 1) by by_compute.
  assert (Hrole : role (session after_ten_swipes) = Some "recruiter")
    by by_compute.
  assert (Hfield : swipe_field (session after_ten_swipes)
                   = Some "data science") by by_compute.
  pose proof (swipe_reset_then_swipe (sk := toy) no_shuffle (like_even 1)
                after_ten_swipes 1 "data science" Hperm Huid Hrole Hfield
                Hne) as H.
  cbv zeta in H. destruct H as (_ & _ & H).
  set (ids := select_resume_ids _ _) in H.
  vm_compute in ids. subst ids. cbv iota in H.
  by destruct H as [Hindex _].
Defined.

Lemma uploaded_file_rule_witness :
  (uploaded_file "cv.pdf"
     {| session := candidate_session; world := world_of db_mixed |}).1
  = Returned (send_from_directory "uploads" "cv.pdf").
Proof.
  apply (proj1 (uploaded_file_rule (sk := toy) "cv.pdf"
                  {| session := candidate_session;
                     world := world_of db_mixed |} 2 eq_refl)).
  eexists _, _. split; [by_compute|]. right. reflexivity.
Defined.

(** ** [allowed_file] *)

Lemma contains_char_cons (sep c : ascii) (s : string) :
  contains (String sep "") (String c s)
  = bool_decide (sep = c) || contains (String sep "") s.
Proof.
  cbn [contains String.prefix].
  destruct (ascii_dec sep c) as [->|Hne].
  - rewrite bool_decide_eq_true_2 by done. by destruct s.
  - by rewrite bool_decide_eq_false_2 by done.
Qed.

(** The two shapes of [rsplit1]: no separator and the string itself, or the
    parts around the last separator. *)
Lemma rsplit1_cases (sep : ascii) (s : string) :
  (rsplit1 sep s = [s] /\ contains (String sep "") s = false)
  \/ (exists head tail,
        rsplit1 sep s = [head; tail]
        /\ s = head +:+ String sep tail
        /\ contains (String sep "") tail = false
        /\ contains (String sep "") s = true).
Proof.
  induction s as [|c s IH].
  - left. by split.
  - rewrite contains_char_cons. cbn [rsplit1].
    destruct IH as [[Hone Hno] | (head & tail & Htwo & Hs & Hno & Hyes)].
    + rewrite Hone, Hno.
      destruct (Ascii.eqb c sep) eqn:Hc.
      * apply Ascii.eqb_eq in Hc as ->. right. exists "", s.
        rewrite bool_decide_eq_true_2 by done. by repeat split.
      * apply Ascii.eqb_neq in Hc. left.
        rewrite bool_decide_eq_false_2 by congruence. by split.
    + rewrite Htwo, Hyes, orb_true_r. right. exists (String c head), tail.
      repeat split; [|done]. by rewrite Hs.
Qed.

Lemma rsplit1_last (sep : ascii) (base ext : string) :
  contains (String sep "") ext = false ->
  rsplit1 sep (base +:+ String sep ext) = [base; ext].
Proof.
  intros Hno. induction base as [|c base IH].
  - change ("" +:+ String sep ext) with (String sep ext). cbn [rsplit1].
    destruct (rsplit1_cases sep ext)
      as [[-> _] | (head & tail & _ & _ & _ & Hyes)]; [|congruence].
    by rewrite Ascii.eqb_refl.
  - change (String c base +:+ String sep ext)
      with (String c (base +:+ String sep ext)).
    cbn [rsplit1]. by rewrite IH.
Qed.

(** X15. [allowed_file] never raises, and it accepts exactly the names whose
    part after the last dot lowercases to "pdf"; what stands before that dot
    (nothing, or other extensions) plays no part. *)
Theorem allowed_file_spec (lower : string -> string) (filename : string) :
  (exists b, allowed_file lower filename = Returned b)
  /\ (allowed_file lower filename = Returned true
      <-> exists base ext,
            filename = base +:+ "." +:+ ext
            /\ contains "." ext = false
            /\ lower ext = "pdf").
Proof.
  unfold allowed_file.
  destruct (rsplit1_cases "."%char filename)
    as [[Hone Hno] | (head & tail & Htwo & Hs & Hno & Hyes)].
  - rewrite Hno. split; [by eexists|]. split; [discriminate|].
    intros (base & ext & -> & Hext & _).
    change (base +:+ "." +:+ ext) with (base +:+ String "."%char ext) in Hone.
    by rewrite rsplit1_last in Hone.
  - rewrite Hyes, Htwo.
    change (getitem [head; tail] 1) with (Returned (A := string) tail).
    split; [by eexists|]. split.
    + intros [= Hpdf]. apply bool_decide_eq_true in Hpdf.
      apply list_elem_of_singleton in Hpdf. by exists head, tail.
    + intros (base & ext & Hfile & Hext & Hpdf).
      change (base +:+ "." +:+ ext) with (base +:+ String "."%char ext)
        in Hfile.
      pose proof (rsplit1_last "."%char base ext Hext) as Hsplit.
      rewrite <- Hfile, Htwo in Hsplit. injection Hsplit as -> ->.
      f_equal. apply bool_decide_eq_true.
      by apply list_elem_of_singleton.
Qed.

Lemma allowed_file_spec_witness :
  allowed_file ascii_lower "resume.final.PDF" = Returned true
  /\ allowed_file ascii_lower ".pdf" = Returned true.
Proof.
  split.
  - apply (proj2 (allowed_file_spec ascii_lower "resume.final.PDF")).
    exists "resume.final", "PDF". by repeat split.
  - apply (proj2 (allowed_file_spec ascii_lower ".pdf")).
    exists "", "pdf". by repeat split.
Defined.

(** ** [guess_job_field] *)

Lemma add_score_at field weight pre v post :
  field ∉ pre.*1 ->
  add_score field weight (pre ++ (field, v) :: post)%list
  = (pre ++ (field, v + weight) :: post)%list.
Proof.
  induction pre as [|[k x] pre IH]; intros Hpre; simpl.
  - by rewrite String.eqb_refl.
  - rewrite fmap_cons in Hpre. apply not_elem_of_cons in Hpre as [Hk Hpre].
    simpl in Hk. destruct (String.eqb k field) eqn:Heq.
    + apply String.eqb_eq in Heq. congruence.
    + by rewrite IH.
Qed.

(** After [bump], the field's score has grown by the weight once for each
    of its keywords found in the text; the other entries are as before. *)
Lemma bump_at combined field kws weight pre v post :
  field ∉ pre.*1 ->
  bump combined field kws weight (pre ++ (field, v) :: post)%list
  = (pre ++ (field, v + weight * hits combined kws) :: post)%list.
Proof.
  intros Hpre. unfold bump, hits. revert v.
  induction kws as [|kw kws IH]; intros v; simpl.
  - by rewrite Z.mul_0_r, Z.add_0_r.
  - rewrite filter_cons. destruct (contains kw combined) eqn:Hkw.
    + rewrite add_score_at by done. rewrite IH.
      rewrite decide_True by done. simpl length.
      do 3 f_equal. lia.
    + rewrite IH. by rewrite decide_False by done.
Qed.

Ltac not_in_list :=
  rewrite list_elem_of_In; vm_compute; intuition discriminate.

Lemma scores_for_hits (combined : string) :
  scores_for combined
  = (fun field => (field, 2 * hits combined (keywords_of field)))
      <$> job_fields.
Proof.
  unfold scores_for, initial_scores.
  epose proof (bump_at combined "software" _ 2 [] 0 _) as H1.
  cbn [app] in H1. rewrite H1; [|not_in_list]. clear H1.
  epose proof (bump_at combined "data" _ 2 [(_, _)] 0 _) as H1.
  cbn [app] in H1. rewrite H1; [|not_in_list]. clear H1.
  epose proof (bump_at combined "finance" _ 2 [(_, _); (_, _)] 0 _) as H1.
  cbn [app] in H1. rewrite H1; [|not_in_list]. clear H1.
  epose proof (bump_at combined "consulting" _ 2
                 [(_, _); (_, _); (_, _)] 0 _) as H1.
  cbn [app] in H1. rewrite H1; [|not_in_list]. clear H1.
  epose proof (bump_at combined "marketing" _ 2
                 [(_, _); (_, _); (_, _); (_, _)] 0 _) as H1.
  cbn [app] in H1. rewrite H1; [|not_in_list]. clear H1.
  epose proof (bump_at combined "product" _ 2
                 [(_, _); (_, _); (_, _); (_, _); (_, _)] 0 _) as H1.
  cbn [app] in H1. rewrite H1; [|not_in_list]. clear H1.
  reflexivity.
Qed.

Lemma score_of_job_field (v : string -> Z) (g : string) :
  g ∈ job_fields ->
  score_of ((fun f => (f, v f)) <$> job_fields) g = v g.
Proof.
  intros Hg. unfold job_fields in Hg.
  repeat (apply elem_of_cons in Hg as [-> | Hg]; [reflexivity|]).
  by apply elem_of_nil in Hg.
Qed.

Ltac first_max k pre post :=
  exists k, pre, post;
  (split; [reflexivity|]); (split; [reflexivity|]);
  split; repeat constructor; lia.

(** [max] walks the dictionary in order and changes its mind only for a
    strictly larger score: the key it returns has the largest score, and
    every key before it has a strictly smaller one. *)
Lemma max_key_first (v : string -> Z) :
  exists k pre post,
    max_key ((fun f => (f, v f)) <$> job_fields) = Returned k
    /\ job_fields = (pre ++ k :: post)%list
    /\ Forall (fun g => v g < v k) pre
    /\ Forall (fun g => v g <= v k) post.
Proof.
  pose proof (score_of_job_field v) as Hscore.
  unfold max_key. cbn [job_fields fmap list_fmap foldl fst snd] in Hscore |- *.
  repeat match goal with
         | |- context [score_of ?S ?k <? score_of ?S ?g] =>
             lazymatch k with
             | String _ _ =>
                 rewrite (Hscore k), (Hscore g) by in_list;
                 destruct (v k <? v g) eqn:?
             end
         end;
    rewrite ?Z.ltb_lt, ?Z.ltb_ge in *;
    first
      [ first_max "software" (@nil string)
                  ["data"; "finance"; "consulting"; "marketing"; "product"]
      | first_max "data" ["software"]
                  ["finance"; "consulting"; "marketing"; "product"]
      | first_max "finance" ["software"; "data"]
                  ["consulting"; "marketing"; "product"]
      | first_max "consulting" ["software"; "data"; "finance"]
                  ["marketing"; "product"]
      | first_max "marketing" ["software"; "data"; "finance"; "consulting"]
                  ["product"]
      | first_max "product"
                  ["software"; "data"; "finance"; "consulting"; "marketing"]
                  (@nil string) ].
Qed.

Section GuessFacts.
Variable lower : string -> string.
Variable strip : string -> string.

Lemma job_field_listed (k : string) :
  k ∈ job_fields -> k ∈ swipe_select_fields.*1 /\ plain k /\ k <> "general".
Proof.
  intros Hk. unfold job_fields in Hk.
  repeat (apply elem_of_cons in Hk as [-> | Hk];
          [split; [in_list | split; [reflexivity | discriminate]]|]).
  by apply elem_of_nil in Hk.
Qed.

(** X16. [guess_job_field] never raises, and whatever the text it answers
    one of the seven fields of the select page, none of which holds a space
    or a slash: two resumes the importer files under different fields never
    share a model file. *)
Theorem guess_job_field_range text filename pdf_title :
  exists field,
    guess_job_field lower strip text filename pdf_title = Returned field
    /\ field ∈ swipe_select_fields.*1
    /\ plain field.
Proof.
  unfold guess_job_field.
  destruct (String.eqb (strip _) ""); [exists "general"; split; [done|]|].
  { split; [in_list | reflexivity]. }
  rewrite scores_for_hits.
  destruct (max_key_first (fun f => 2 * hits (lower (join " "
              [default "" text; default "" filename; default "" pdf_title]))
              (keywords_of f)))
    as (k & pre & post & -> & Hdec & _).
  assert (Hk : k ∈ job_fields).
  { rewrite Hdec. apply elem_of_app. right. apply list_elem_of_here. }
  destruct (_ =? 0).
  - exists "general". split; [done|]. split; [in_list | reflexivity].
  - exists k. split; [done|].
    destruct (job_field_listed k Hk) as (? & ? & _). by split.
Qed.

(** X17. The guess is a vote by keywords. It is "general" exactly when the
    text is blank or none of the keywords occurs in it; otherwise it is the
    field with the most of its keywords occurring in the text, the first such
    field in the order software, data, finance, consulting, marketing,
    product. *)
Theorem guess_job_field_vote text filename pdf_title :
  let combined :=
    lower (join " " [default "" text; default "" filename;
                     default "" pdf_title]) in
  let count := fun field => hits combined (keywords_of field) in
  let guess := guess_job_field lower strip text filename pdf_title in
  (guess = Returned "general"
   <-> strip combined = "" \/ Forall (fun g => count g = 0) job_fields)
  /\ (forall field,
        guess = Returned field -> field <> "general" ->
        exists pre post,
          job_fields = (pre ++ field :: post)%list
          /\ 0 < count field
          /\ Forall (fun g => count g < count field) pre
          /\ Forall (fun g => count g <= count field) post).
Proof.
  intros combined count guess. subst guess. unfold guess_job_field.
  fold combined.
  destruct (String.eqb (strip combined) "") eqn:Hblank.
  { apply String.eqb_eq in Hblank. split; [by split; [left|]|].
    intros field [= <-]. done. }
  apply String.eqb_neq in Hblank.
  rewrite scores_for_hits.
  assert (Hnonneg : forall g, 0 <= count g).
  { intros g. unfold count, hits. lia. }
  change (fun field => (field, 2 * hits combined (keywords_of field)))
    with (fun field => (field, (fun f => 2 * count f) field)).
  destruct (max_key_first (fun f => 2 * count f))
    as (k & pre & post & -> & Hdec & Hpre & Hpost).
  assert (Hk : k ∈ job_fields).
  { rewrite Hdec. apply elem_of_app. right. apply list_elem_of_here. }
  rewrite (score_of_job_field (fun f => 2 * count f) k Hk).
  destruct (job_field_listed k Hk) as (_ & _ & Hgen).
  destruct (2 * count k =? 0) eqn:Hzero.
  - apply Z.eqb_eq in Hzero. split.
    + split; [|done]. intros _. right. rewrite Hdec.
      apply Forall_app. split.
      * eapply Forall_impl; [exact Hpre|]. simpl. intros g Hg.
        specialize (Hnonneg g). lia.
      * constructor; [lia|].
        eapply Forall_impl; [exact Hpost|]. simpl. intros g Hg.
        specialize (Hnonneg g). lia.
    + intros field [= <-]. done.
  - apply Z.eqb_neq in Hzero. split.
    + split; [intros [= Heq]; congruence|].
      intros [Hb | Hall]; [done|].
      rewrite Forall_forall in Hall. specialize (Hall k Hk). lia.
    + intros field [= <-] _. exists pre, post.
      split; [exact Hdec|]. specialize (Hnonneg k). split; [lia|]. split.
      * eapply Forall_impl; [exact Hpre|]. simpl. lia.
      * eapply Forall_impl; [exact Hpost|]. simpl. lia.
Qed.

End GuessFacts.

Lemma guess_job_field_vote_witness :
  guess_job_field ascii_lower ascii_strip
    (Some "Built a REST API in Python; reports in SQL") (Some "cv.pdf") None
  = Returned "software"
  /\ hits "built a rest api in python; reports in sql cv.pdf "
          software_keywords = 2.
Proof.
  destruct (proj2 (guess_job_field_vote ascii_lower ascii_strip
                     (Some "Built a REST API in Python; reports in SQL")
                     (Some "cv.pdf") None)
              "software")
    as (pre & post & _ & _ & _ & _); [by_compute | discriminate |].
  split; by_compute.
Defined.

(** Keywords are looked for as substrings: "digital" holds "git". *)
Example guess_job_field_substring :
  guess_job_field ascii_lower ascii_strip (Some "Digital ads") None None
  = Returned "software".
Proof. vm_compute. reflexivity. Qed.

(** ** Who is logged in, and what the routes do to it *)

Section SessionFacts.
Context `{sk : Sklearn}.
Variable J : Session -> Prop.

Lemma keeps_session_ret {A} (x : A) : keeps_session J (ret x).
Proof. intros a Ha. exact Ha. Qed.

Lemma keeps_session_raise {A} (e : exn) : keeps_session J (raise (A := A) e).
Proof. intros a Ha. exact Ha. Qed.

Lemma keeps_session_gets {A} (f : App -> A) : keeps_session J (gets f).
Proof. intros a Ha. exact Ha. Qed.

Lemma keeps_session_lift {A} (r : result A) : keeps_session J (lift r).
Proof. intros a Ha. exact Ha. Qed.

Lemma keeps_session_on_world {A} (c : M World A) :
  keeps_session J (on_world c).
Proof.
  intros a Ha. unfold on_world. by destruct (c (world a)).
Qed.

Lemma keeps_session_set (f : Session -> Session) :
  (forall s, J s -> J (f s)) -> keeps_session J (set_session f).
Proof. intros Hf a Ha. by apply Hf. Qed.

Lemma keeps_session_bind {A B} (c : M App A) (k : A -> M App B) :
  keeps_session J c -> (forall x, keeps_session J (k x)) ->
  keeps_session J (bind c k).
Proof.
  intros Hc Hk a Ha. unfold bind. specialize (Hc a Ha).
  destruct (c a) as [[x|e] a']; simpl in *; [by apply Hk | done].
Qed.

Lemma keeps_session_item {A} (get : Session -> option A) :
  keeps_session J (session_item get).
Proof.
  apply keeps_session_bind; [apply keeps_session_gets|].
  intros [x|]; [apply keeps_session_ret | apply keeps_session_raise].
Qed.

(** The updates the routes below make, none of which says who is logged in. *)
Hypothesis J_flash : forall m s, J s -> J (with_flash m s).
Hypothesis J_order : forall o s, J s -> J (with_swipe_order o s).
Hypothesis J_index : forall i s, J s -> J (with_swipe_index i s).
Hypothesis J_field : forall f s, J s -> J (with_swipe_field f s).
Hypothesis J_pop_order : forall s, J s -> J (pop_swipe_order s).
Hypothesis J_pop_index : forall s, J s -> J (pop_swipe_index s).

Ltac keeps_step :=
  first
    [ apply keeps_session_ret
    | apply keeps_session_raise
    | apply keeps_session_gets
    | apply keeps_session_lift
    | apply keeps_session_on_world
    | apply keeps_session_item
    | apply keeps_session_set; first
        [ apply J_flash | apply J_order | apply J_index | apply J_field
        | apply J_pop_order | apply J_pop_index ]
    | apply keeps_session_bind; [|intros ?] ].

Lemma keeps_session_swipe shuffle method form :
  keeps_session J (swipe shuffle method form).
Proof.
  unfold swipe, login_required, swipe_init_order, swipe_post, swipe_render,
    flash, set_swipe_order, set_swipe_index.
  repeat first
    [ keeps_step
    | match goal with
      | |- keeps_session _ (match ?x with _ => _ end) => destruct x
      | |- keeps_session _ (if ?b then _ else _) => destruct b
      end ].
Qed.

Lemma keeps_session_feedback : keeps_session J feedback.
Proof.
  unfold feedback, login_required, flash.
  repeat first
    [ keeps_step
    | match goal with
      | |- keeps_session _ (match ?x with _ => _ end) => destruct x
      | |- keeps_session _ (if ?b then _ else _) => destruct b
      end ].
Qed.

Lemma keeps_session_swipe_select method chosen :
  keeps_session J (swipe_select method chosen).
Proof.
  unfold swipe_select, login_required_as, flash.
  repeat first
    [ keeps_step
    | match goal with
      | |- keeps_session _ (match ?x with _ => _ end) => destruct x
      | |- keeps_session _ (if ?b then _ else _) => destruct b
      end ].
Qed.

Lemma keeps_session_swipe_reset : keeps_session J swipe_reset.
Proof.
  unfold swipe_reset, login_required_as, flash.
  repeat first
    [ keeps_step
    | match goal with
      | |- keeps_session _ (match ?x with _ => _ end) => destruct x
      | |- keeps_session _ (if ?b then _ else _) => destruct b
      end ].
Qed.

Lemma keeps_session_uploaded_file filename :
  keeps_session J (uploaded_file filename).
Proof.
  unfold uploaded_file, login_required_as, flash.
  repeat first
    [ keeps_step
    | match goal with
      | |- keeps_session _ (match ?x with _ => _ end) => destruct x
      | |- keeps_session _ (if ?b then _ else _) => destruct b
      end ].
Qed.

End SessionFacts.

Section RoutesWorld.
Context `{sk : Sklearn}.
Variable I : World -> Prop.

Ltac preserves_step :=
  first
    [ apply preserves_ret
    | apply preserves_raise
    | apply preserves_gets
    | apply preserves_lift
    | apply preserves_set_session
    | apply preserves_session_item
    | apply preserves_bind; [|intros ?]
    | match goal with
      | |- preserves _ (match ?x with _ => _ end) => destruct x
      | |- preserves _ (if ?b then _ else _) => destruct b
      end ].

(** The routes that only read the tables and write the session. *)
Lemma preserves_swipe_select method chosen :
  preserves I (swipe_select method chosen).
Proof. unfold swipe_select, login_required_as, flash. repeat preserves_step. Qed.

Lemma preserves_swipe_reset : preserves I swipe_reset.
Proof. unfold swipe_reset, login_required_as, flash. repeat preserves_step. Qed.

Lemma preserves_uploaded_file filename :
  preserves I (uploaded_file filename).
Proof. unfold uploaded_file, login_required_as, flash. repeat preserves_step. Qed.

Lemma preserves_logout : preserves I logout.
Proof. unfold logout, flash. repeat preserves_step. Qed.

End RoutesWorld.

Section SwipeDatabase.
Context `{sk : Sklearn}.
Implicit Types (a : App) (form : Form).

Lemma swipe_post_db_cases job_field form index a :
  db (world (swipe_post job_field form index a).2) = db (world a)
  \/ exists uid rid label,
       user_id (session a) = Some uid
       /\ (label = 0 \/ label = 1)
       /\ select_existing_swipe (db (world a)) rid uid = []
       /\ db (world (swipe_post job_field form index a).2)
          = insert_swipe rid uid label (db (world a)).
Proof.
  destruct (resume_id form) as [rid|e] eqn:Hrid; cycle 1.
  { left. unfold swipe_post, bind, lift. by rewrite Hrid. }
  destruct (user_id (session a)) as [uid|] eqn:Huid; cycle 1.
  { left. unfold swipe_post, session_item, bind, lift, gets, raise.
    by rewrite Hrid, Huid. }
  destruct (select_existing_swipe (db (world a)) rid uid) as [|x xs] eqn:Hex.
  - right. exists uid, rid, (if is_like (choice form) then 1 else 0).
    split; [done|]. split; [destruct (is_like _); auto|]. split; [done|].
    rewrite (swipe_post_fresh job_field form index a uid rid Huid Hrid Hex).
    set (w1 := set_db _ (world a)).
    pose proof (train_model_frame job_field w1) as [Hdb _].
    destruct (_ =? 0); [|reflexivity].
    by destruct (train_model job_field w1) as [[used|e] w2].
  - left.
    rewrite (swipe_post_duplicate job_field form index a uid rid Huid Hrid);
      [done | by rewrite Hex].
Qed.

Lemma swipe_world_unless_recruiter shuffle method form a :
  user_id (session a) = None
  \/ role (session a) <> Some "recruiter"
  \/ swipe_field (session a) = None
  \/ swipe_field (session a) = Some "" ->
  world (swipe shuffle method form a).2 = world a.
Proof.
  intros Hwho.
  unfold swipe, login_required, flash, set_session, bind, gets, ret, modify.
  destruct (user_id (session a)) as [uid|]; [|done].
  destruct (bool_decide (role (session a) = Some "recruiter")) eqn:Hrole;
    cbn [negb]; [|done].
  apply bool_decide_eq_true in Hrole.
  destruct (swipe_field (session a)) as [[|c f]|]; [done| |done].
  destruct Hwho as [? | [? | [? | ?]]]; done.
Qed.

(** What [/swipe] can do to the tables: nothing, or one new swipe row under
    the id of the session, which is then a recruiter's. *)
Lemma swipe_db_cases shuffle method form a :
  db (world (swipe shuffle method form a).2) = db (world a)
  \/ exists uid rid label,
       user_id (session a) = Some uid
       /\ role (session a) = Some "recruiter"
       /\ (label = 0 \/ label = 1)
       /\ select_existing_swipe (db (world a)) rid uid = []
       /\ db (world (swipe shuffle method form a).2)
          = insert_swipe rid uid label (db (world a)).
Proof.
  destruct (user_id (session a)) as [uid|] eqn:Huid; cycle 1.
  { left. rewrite (swipe_world_unless_recruiter shuffle method form a);
      auto. }
  destruct (decide (role (session a) = Some "recruiter")) as [Hrole|Hrole];
    cycle 1.
  { left. rewrite (swipe_world_unless_recruiter shuffle method form a);
      auto. }
  destruct (swipe_field (session a)) as [[|c f]|] eqn:Hfield;
    [left; rewrite (swipe_world_unless_recruiter shuffle method form a);
       auto
    | |left; rewrite (swipe_world_unless_recruiter shuffle method form a);
       auto].
  destruct method.
  { left. f_equal. symmetry.
    apply (preserves_swipe_from_post (fun w => world a = w) shuffle GET form);
      [discriminate | reflexivity]. }
  destruct (decide (swipe_order (session a) = None
                    /\ select_resume_ids (db (world a)) (String c f) = []))
    as [[Horder Hids]|Hsome].
  { left.
    unfold swipe, login_required, swipe_init_order, flash, set_session,
      bind, gets, ret, modify.
    rewrite Huid. cbv beta iota. rewrite Hrole.
    rewrite bool_decide_eq_true_2 by done. cbv beta iota. cbn [negb].
    rewrite Hfield. cbv beta iota. rewrite Horder. cbv beta iota.
    by rewrite Hids. }
  destruct (swipe_POST_world shuffle form a uid c f Huid Hrole Hfield)
    as (s0 & index & Hs0 & ->).
  { intros Horder Hids. apply Hsome. by split. }
  destruct (swipe_post_db_cases (String c f) form index
              {| session := s0; world := world a |})
    as [Hsame | (uid' & rid & label & Huid' & Hlabel & Hnew & Hins)].
  - by left.
  - right. cbn [session world] in *. rewrite Hs0 in Huid'.
    injection Huid' as <-. by exists uid, rid, label.
Qed.

End SwipeDatabase.

(** X26. [feedback] only reads: whatever it answers, the tables, the model
    files and the output are as before. A visitor without a session is sent
    to the login page, a logged-in user who is not a candidate to the index,
    and a candidate without a resume to the upload page. *)
Theorem feedback_reads_only `{sk : Sklearn} (a : App) :
  world (feedback a).2 = world a
  /\ (user_id (session a) = None ->
      (feedback a).1 = Returned (redirect "login"))
  /\ (forall uid, user_id (session a) = Some uid ->
                  role (session a) <> Some "candidate" ->
                  (feedback a).1 = Returned (redirect "index"))
  /\ (forall uid, user_id (session a) = Some uid ->
                  role (session a) = Some "candidate" ->
                  select_latest_resume (db (world a)) uid = [] ->
                  (feedback a).1 = Returned (redirect "upload")).
Proof.
  split.
  { symmetry. by apply (preserves_feedback (fun w => world a = w)). }
  unfold feedback, login_required, session_item, flash, set_session, bind,
    gets, ret, modify.
  repeat split.
  - by intros ->.
  - intros uid -> Hrole. cbv beta iota.
    by rewrite bool_decide_false.
  - intros uid Huid Hrole Hnone. rewrite Huid. cbv beta iota.
    rewrite bool_decide_true by done. cbn [negb]. cbv beta iota.
    rewrite Huid. cbv beta iota. by rewrite Hnone.
Qed.

(** ** [register], [login] and [upload] *)

Section AccountFacts.
Context `{sk : Sklearn} {Pdf : Type}.
Variable generate_password_hash : string -> string.
Variable check_password_hash : string -> string -> bool.
Variable secure_filename : string -> string.
Variable extract_pages : Pdf -> result (list string).
Variable lower : string -> string.
Variable strip : string -> string.
Implicit Types (s : Site (Pdf := Pdf)) (form : RegisterForm).

Lemma max_id_lt (ids : list Z) (x : Z) :
  x ∈ ids -> x < 1 + fold_right Z.max 0 ids.
Proof.
  induction ids as [|y ids IH]; intros Hx; [by apply elem_of_nil in Hx|].
  simpl. apply elem_of_cons in Hx as [-> | Hx]; [lia|].
  specialize (IH Hx). lia.
Qed.

Lemma select_accounts_insert s username hash role first last email phone :
  select_accounts s username = [] ->
  select_accounts (insert_user username hash role first last email phone s)
                  username
  = [{| a_id := next_user_id (site_db s); a_username := username;
        a_hash := hash; a_role := role; a_email := email;
        a_phone := phone |}].
Proof.
  unfold select_accounts. cbn [accounts insert_user]. intros Hfree.
  rewrite filter_app, Hfree, filter_cons, decide_True by done.
  reflexivity.
Qed.

Lemma register_cases method form s :
  let s' := (register generate_password_hash method form s).2 in
  quiet s s'
  \/ (method = POST
      /\ forallb truthy [reg_username form; reg_password form;
                         reg_confirmation form; reg_role form;
                         reg_first_name form; reg_last_name form;
                         reg_email form; reg_phone form] = true
      /\ reg_password form = reg_confirmation form
      /\ select_accounts s (default "" (reg_username form)) = []
      /\ exists acc,
           accounts s' = (accounts s ++ [acc])%list
           /\ a_id acc = next_user_id (site_db s)
           /\ Some (a_username acc) = reg_username form
           /\ Some (a_role acc) = reg_role form
           /\ (a_role acc = "candidate" \/ a_role acc = "recruiter")
           /\ a_hash acc
              = generate_password_hash (default "" (reg_password form))
           /\ site_db s'
              = add_user {| u_id := a_id acc;
                            u_first_name := default "" (reg_first_name form);
                            u_last_name := default "" (reg_last_name form) |}
                         (site_db s)
           /\ files (world (site_app s')) = files (world (site_app s))
           /\ uploads s' = uploads s
           /\ user_id (session (site_app s')) = Some (a_id acc)
           /\ role (session (site_app s')) = Some (a_role acc)).
Proof.
  intros s'. subst s'. unfold register.
  destruct method; [by left|].
  destruct (forallb truthy _) eqn:Hall; cbn [negb]; [|by left].
  destruct (bool_decide (reg_password form = reg_confirmation form))
    eqn:Hpw; cbn [negb]; [|by left].
  apply bool_decide_eq_true in Hpw.
  destruct (bool_decide (reg_role form = Some "candidate"
                         \/ reg_role form = Some "recruiter")) eqn:Hrole;
    cbn [negb]; [|by left].
  apply bool_decide_eq_true in Hrole.
  unfold bind, modify, gets, lift, on_app, set_session, flash, ret.
  cbv beta.
  destruct (select_accounts s (default "" (reg_username form)))
    as [|x xs] eqn:Hfree; [|by left].
  right. split; [done|]. split; [done|]. split; [done|]. split; [done|].
  rewrite select_accounts_insert by done.
  change (getitem [?x] 0) with (Returned x). cbv beta iota.
  cbn [fst snd site_app accounts uploads insert_user session world].
  eexists. split; [reflexivity|].
  cbn [a_id a_username a_role a_hash with_user_id with_role with_flash
       user_id role site_db site_app world session set_db db files].
  assert (Huser : truthy (reg_username form) = true).
  { cbn [forallb] in Hall. by apply andb_prop in Hall as [? _]. }
  assert (Hr : truthy (reg_role form) = true).
  { cbn [forallb] in Hall. repeat (apply andb_prop in Hall as [? Hall]).
    done. }
  destruct (reg_username form) as [u|]; [|done].
  destruct (reg_role form) as [r|]; [|done].
  repeat split; try done.
  destruct Hrole as [[= ->] | [= ->]]; auto.
Qed.

(** X18. [register] leaves everything as it was (a flash apart) unless the
    request is a POST with all eight fields filled, equal passwords, one of
    the two roles and a user name nobody has. Then it adds one account, with
    that name and role and the hash of the password, under an id larger than
    every id in use, and the session is logged in as that account. *)
Theorem register_outcome method form s :
  let s' := (register generate_password_hash method form s).2 in
  quiet s s'
  \/ (method = POST
      /\ forallb truthy [reg_username form; reg_password form;
                         reg_confirmation form; reg_role form;
                         reg_first_name form; reg_last_name form;
                         reg_email form; reg_phone form] = true
      /\ reg_password form = reg_confirmation form
      /\ select_accounts s (default "" (reg_username form)) = []
      /\ exists acc,
           accounts s' = (accounts s ++ [acc])%list
           /\ a_id acc = next_user_id (site_db s)
           /\ Some (a_username acc) = reg_username form
           /\ Some (a_role acc) = reg_role form
           /\ (a_role acc = "candidate" \/ a_role acc = "recruiter")
           /\ a_hash acc
              = generate_password_hash (default "" (reg_password form))
           /\ site_db s'
              = add_user {| u_id := a_id acc;
                            u_first_name := default "" (reg_first_name form);
                            u_last_name := default "" (reg_last_name form) |}
                         (site_db s)
           /\ files (world (site_app s')) = files (world (site_app s))
           /\ uploads s' = uploads s
           /\ user_id (session (site_app s')) = Some (a_id acc)
           /\ role (session (site_app s')) = Some (a_role acc)).
Proof. apply register_cases. Qed.

Lemma login_cases method username password s :
  let s' := (login check_password_hash method username password s).2 in
  accounts s' = accounts s
  /\ uploads s' = uploads s
  /\ world (site_app s') = world (site_app s)
  /\ swipe_field (session (site_app s')) = None
  /\ swipe_order (session (site_app s')) = None
  /\ swipe_index (session (site_app s')) = None
  /\ ((user_id (session (site_app s')) = None
       /\ role (session (site_app s')) = None)
      \/ (method = POST
          /\ exists acc u p,
               username = Some u /\ password = Some p
               /\ select_accounts s u = [acc]
               /\ check_password_hash (a_hash acc) p = true
               /\ user_id (session (site_app s')) = Some (a_id acc)
               /\ role (session (site_app s')) = Some (a_role acc))).
Proof.
  intros s'. subst s'. unfold login.
  unfold bind, modify, gets, lift, on_app, set_session, flash, ret.
  cbv beta. cbn [fst snd site_app accounts uploads world session].
  destruct method; [by repeat split; try left|].
  destruct (truthy username) eqn:Hu; cbn [negb orb];
    [|by repeat split; try left].
  destruct (truthy password) eqn:Hp; cbn [negb orb];
    [|by repeat split; try left].
  destruct username as [u|]; [|done]. destruct password as [p|]; [|done].
  cbn -[select_accounts].
  change (select_accounts _ u) with (select_accounts s u).
  destruct (select_accounts s u) as [|acc [|acc2 rest]] eqn:Hrows;
    [by repeat split; try left| |by repeat split; try left].
  destruct (check_password_hash (a_hash acc) p) eqn:Hcheck; cbn [negb];
    [|by repeat split; try left].
  repeat split. right. split; [done|]. by exists acc, u, p.
Qed.

(** X19. [login] first clears the session, on a GET as on a POST: whoever
    was logged in no longer is, and the chosen field and order are gone. It
    then logs in only on a POST whose user name has exactly one account and
    whose password passes [check_password_hash] against that account's hash;
    the session gets the id and the role of that account. Nothing else
    changes. *)
Theorem login_outcome method username password s :
  let s' := (login check_password_hash method username password s).2 in
  accounts s' = accounts s
  /\ uploads s' = uploads s
  /\ world (site_app s') = world (site_app s)
  /\ swipe_field (session (site_app s')) = None
  /\ swipe_order (session (site_app s')) = None
  /\ swipe_index (session (site_app s')) = None
  /\ ((user_id (session (site_app s')) = None
       /\ role (session (site_app s')) = None)
      \/ (method = POST
          /\ exists acc u p,
               username = Some u /\ password = Some p
               /\ select_accounts s u = [acc]
               /\ check_password_hash (a_hash acc) p = true
               /\ user_id (session (site_app s')) = Some (a_id acc)
               /\ role (session (site_app s')) = Some (a_role acc))).
Proof. apply login_cases. Qed.

(** X20. A user name and password that [register] has accepted log in
    afterwards, under the id and role of the new account, as long as
    [check_password_hash] accepts what [generate_password_hash] made. *)
Theorem register_then_login form s u p :
  (forall pw, check_password_hash (generate_password_hash pw) pw = true) ->
  reg_username form = Some u ->
  reg_password form = Some p ->
  let s1 := (register generate_password_hash POST form s).2 in
  accounts s1 <> accounts s ->
  let s2 := (login check_password_hash POST (Some u) (Some p) s1).2 in
  user_id (session (site_app s2)) = Some (next_user_id (site_db s))
  /\ role (session (site_app s2)) = reg_role form.
Proof.
  intros Hlaw Hu Hp s1 Hnew s2.
  destruct (register_cases POST form s)
    as [(Hsame & _) | (_ & Hall & _ & Hfree & acc & Haccs & Hid & Hname
                       & Hrole & _ & Hhash & _)]; [done|].
  fold s1 in Haccs.
  rewrite Hu in Hname, Hfree. injection Hname as Hname.
  rewrite Hp in Hhash. cbn [default from_option] in Hfree, Hhash.
  unfold id in Hfree, Hhash.
  assert (Hrows : select_accounts s1 u = [acc]).
  { unfold select_accounts in Hfree |- *. rewrite Haccs, filter_app, Hfree.
    rewrite filter_cons, decide_True by done. reflexivity. }
  assert (Hrun : user_id (session (site_app s2)) = Some (a_id acc)
                 /\ role (session (site_app s2)) = Some (a_role acc)).
  { subst s2. unfold login.
    unfold bind, modify, gets, lift, on_app, set_session, flash, ret.
    cbn -[select_accounts truthy].
    assert (Hp' : truthy (Some p) = true).
    { cbn [forallb] in Hall. rewrite Hp in Hall.
      apply andb_prop in Hall as [_ Hall].
      by apply andb_prop in Hall as [? _]. }
    assert (Hu' : truthy (Some u) = true).
    { cbn [forallb] in Hall. rewrite Hu in Hall.
      by apply andb_prop in Hall as [? _]. }
    rewrite Hu', Hp'. cbn -[select_accounts].
    change (select_accounts _ u) with (select_accounts s1 u).
    rewrite Hrows, Hhash, Hlaw. by cbn. }
  destruct Hrun as [-> ->]. by rewrite Hid.
Qed.

Ltac unchanged Hrun H :=
  unfold bind, modify, gets, lift, on_app, on_world, set_session, flash, ret
    in Hrun;
  cbn in Hrun; injection Hrun as _ <-; cbn; rewrite ?H; repeat split;
  try left; done.

Lemma upload_cases method resume job_field now s :
  let s' := (upload secure_filename extract_pages lower strip
                    method resume job_field now s).2 in
  accounts s' = accounts s
  /\ user_id (session (site_app s')) = user_id (session (site_app s))
  /\ role (session (site_app s')) = role (session (site_app s))
  /\ users (site_db s') = users (site_db s)
  /\ swipes (site_db s') = swipes (site_db s)
  /\ files (world (site_app s')) = files (world (site_app s))
  /\ (resumes (site_db s') = resumes (site_db s)
      \/ exists uid file f text,
           method = POST /\ resume = Some file /\ job_field = Some f
           /\ user_id (session (site_app s)) = Some uid
           /\ role (session (site_app s)) = Some "candidate"
           /\ allowed_file lower (fs_filename file) = Returned true
           /\ f <> "" /\ text <> ""
           /\ (text = extract_text extract_pages strip (fs_content file)
               \/ (extract_text extract_pages strip (fs_content file) = ""
                   /\ text = NO_TEXT))
           /\ select_same_resume (site_db s) uid text f = []
           /\ resumes (site_db s')
              = (resumes (site_db s)
                 ++ [{| r_id := next_resume_id (site_db s);
                        r_user_id := uid;
                        r_filename := secure_filename (fs_filename file);
                        r_text := text; r_job_field := f;
                        r_uploaded_at := now |}])%list).
Proof.
  intros s'. subst s'.
  destruct (upload _ _ _ _ _ _ _ _ s) as [r s'] eqn:Hrun. cbn [snd].
  unfold upload in Hrun.
  unfold bind at 1 in Hrun. unfold gets at 1 in Hrun. cbv beta iota in Hrun.
  destruct (user_id (session (site_app s))) as [uid|] eqn:Huid;
    cbv beta iota in Hrun; [|unchanged Hrun Huid].
  unfold bind at 1 in Hrun. unfold gets at 1 in Hrun. cbv beta iota in Hrun.
  case_bool_decide as Hrole; cbn [negb] in Hrun; cbv beta iota in Hrun;
    [|unchanged Hrun Huid].
  destruct method; [unchanged Hrun Huid|].
  destruct resume as [file|]; [|unchanged Hrun Huid].
  destruct (String.eqb (fs_filename file) "") eqn:Hname;
    [unchanged Hrun Huid|].
  destruct (truthy job_field) eqn:Hfield; cbn [negb] in Hrun;
    [|unchanged Hrun Huid].
  destruct job_field as [f|]; [|done].
  assert (Hf : f <> "") by (by intros ->).
  cbn [default from_option] in Hrun. unfold id in Hrun.
  unfold bind at 1 in Hrun. unfold lift at 1 in Hrun.
  destruct (allowed_file lower (fs_filename file)) as [[|]|e] eqn:Hallowed;
    cbn [negb] in Hrun; cbv beta iota in Hrun;
    [|unchanged Hrun Huid|cbn in Hrun; injection Hrun as _ <-;
                           rewrite ?Huid; by repeat split; try left].
  set (text := if String.eqb (extract_text _ _ _) "" then _ else _) in Hrun.
  assert (Htext : text <> ""
                  /\ (text = extract_text extract_pages strip (fs_content file)
                      \/ (extract_text extract_pages strip (fs_content file)
                            = "" /\ text = NO_TEXT))).
  { subst text.
    destruct (String.eqb_spec
                (extract_text extract_pages strip (fs_content file)) "")
      as [->|Hne]; [by split; [|right]|by split; [|left]]. }
  destruct Htext as [Hne Htext].
  unfold bind, modify, gets, lift, on_app, on_world, session_item,
    set_session, flash, ret, save in Hrun.
  cbn -[select_same_resume text open_wb] in Hrun.
  destruct (open_wb _) as [[]|e] eqn:Hopen;
    cbn -[select_same_resume text] in Hrun;
    [|injection Hrun as _ <-; rewrite ?Huid; by repeat split; try left].
  rewrite Huid in Hrun. cbn -[select_same_resume text] in Hrun.
  change (select_same_resume _ uid text f)
    with (select_same_resume (site_db s) uid text f) in Hrun.
  destruct (select_same_resume (site_db s) uid text f) eqn:Hnone;
    cbn -[text] in Hrun; injection Hrun as _ <-; cbn -[text];
    rewrite ?Huid; [|by repeat split; try left].
  repeat split. right.
  by exists uid, file, f, text.
Qed.

(** X21. [upload] changes no account, no swipe, no model file and nobody's
    identity. It adds at most one row to [resumes], at the end, and only on a
    POST from a logged-in candidate with a file whose name [allowed_file]
    accepts and a job field that is not empty: the row is owned by the
    session's user, named by [secure_filename], its text is the extracted
    text or, when that is empty, the fallback sentence, so never empty, and
    no row of that user had the same text and field. *)
Theorem upload_outcome method resume job_field now s :
  let s' := (upload secure_filename extract_pages lower strip
                    method resume job_field now s).2 in
  accounts s' = accounts s
  /\ user_id (session (site_app s')) = user_id (session (site_app s))
  /\ role (session (site_app s')) = role (session (site_app s))
  /\ users (site_db s') = users (site_db s)
  /\ swipes (site_db s') = swipes (site_db s)
  /\ files (world (site_app s')) = files (world (site_app s))
  /\ (resumes (site_db s') = resumes (site_db s)
      \/ exists uid file f text,
           method = POST /\ resume = Some file /\ job_field = Some f
           /\ user_id (session (site_app s)) = Some uid
           /\ role (session (site_app s)) = Some "candidate"
           /\ allowed_file lower (fs_filename file) = Returned true
           /\ f <> "" /\ text <> ""
           /\ (text = extract_text extract_pages strip (fs_content file)
               \/ (extract_text extract_pages strip (fs_content file) = ""
                   /\ text = NO_TEXT))
           /\ select_same_resume (site_db s) uid text f = []
           /\ resumes (site_db s')
              = (resumes (site_db s)
                 ++ [{| r_id := next_resume_id (site_db s);
                        r_user_id := uid;
                        r_filename := secure_filename (fs_filename file);
                        r_text := text; r_job_field := f;
                        r_uploaded_at := now |}])%list).
Proof. apply upload_cases. Qed.

(** X22. [upload] saves the file before it looks at the content. On a POST
    from a candidate with an allowed file name and a job field: when
    [uploads/<secure name>] can be opened for writing, the content is left
    there, over whatever was stored under that name, also when the resume is
    then turned down as a duplicate; when it cannot (a secure name that is
    empty or longer than [NAME_MAX] bytes), the request raises what [open]
    raised and nothing at all has changed. *)
Theorem upload_saves_first resume_file f now s uid :
  user_id (session (site_app s)) = Some uid ->
  role (session (site_app s)) = Some "candidate" ->
  fs_filename resume_file <> "" ->
  f <> "" ->
  allowed_file lower (fs_filename resume_file) = Returned true ->
  let filepath :=
    UPLOAD_FOLDER +:+ "/" +:+ secure_filename (fs_filename resume_file) in
  let run := upload secure_filename extract_pages lower strip
                    POST (Some resume_file) (Some f) now s in
  (open_wb filepath = Returned tt ->
   uploads run.2 = <[filepath := fs_content resume_file]> (uploads s))
  /\ (forall e, open_wb filepath = Raised e -> run = (Raised e, s)).
Proof.
  intros Huid Hrole Hname Hf Hallowed filepath run. subst run.
  destruct (upload _ _ _ _ _ _ _ _ s) as [r s'] eqn:Hrun. cbn [snd].
  unfold upload in Hrun.
  unfold bind at 1 in Hrun. unfold gets at 1 in Hrun. cbv beta iota in Hrun.
  rewrite Huid in Hrun. cbv beta iota in Hrun.
  unfold bind at 1 in Hrun. unfold gets at 1 in Hrun. cbv beta iota in Hrun.
  rewrite Hrole in Hrun.
  rewrite bool_decide_true in Hrun by done. cbn [negb] in Hrun.
  apply String.eqb_neq in Hname. rewrite Hname in Hrun.
  assert (Hfield : truthy (Some f) = true) by (by destruct f).
  rewrite Hfield in Hrun. cbn [negb default from_option] in Hrun.
  unfold id in Hrun.
  unfold bind at 1 in Hrun. unfold lift at 1 in Hrun.
  rewrite Hallowed in Hrun. cbn [negb] in Hrun. cbv beta iota in Hrun.
  set (text := if String.eqb (extract_text _ _ _) "" then _ else _) in Hrun.
  fold filepath in Hrun.
  unfold bind, modify, gets, lift, on_app, on_world, session_item,
    set_session, flash, ret, save in Hrun.
  cbn -[select_same_resume text open_wb filepath] in Hrun.
  split.
  - intros Hopen. rewrite Hopen in Hrun.
    cbn -[select_same_resume text filepath] in Hrun.
    rewrite Huid in Hrun. cbn -[select_same_resume text filepath] in Hrun.
    by destruct (select_same_resume _ uid text f);
      cbn -[text filepath] in Hrun; injection Hrun as _ <-.
  - intros e Hopen. rewrite Hopen in Hrun. cbn in Hrun.
    injection Hrun as <- <-. by destruct s.
Qed.

(** *** The invariants of the whole application *)

Lemma on_app_site {A} (c : M App A) s :
  accounts (on_app c s).2 = accounts s
  /\ uploads (on_app c s).2 = uploads s
  /\ site_app (on_app c s).2 = (c (site_app s)).2.
Proof. unfold on_app. by destruct (c (site_app s)). Qed.

Lemma has_role_more accs more uid r :
  has_role accs uid r -> has_role (accs ++ more) uid r.
Proof.
  intros (a & Ha & Hid & Hr). exists a. split; [|done].
  apply elem_of_app. by left.
Qed.

Lemma session_ok_more accs more c :
  session_ok accs c -> session_ok (accs ++ more) c.
Proof.
  unfold session_ok. destruct (user_id c); [|done].
  intros (a & Ha & Hid & Hr). exists a. split; [|done].
  apply elem_of_app. by left.
Qed.

Lemma session_ok_role accs c uid r :
  session_ok accs c -> user_id c = Some uid -> role c = Some r ->
  has_role accs uid r.
Proof.
  unfold session_ok. intros Hok Huid Hrole. rewrite Huid in Hok.
  destruct Hok as (a & Ha & Hid & Hr). exists a. split; [done|].
  split; [done|]. rewrite Hrole in Hr. by injection Hr.
Qed.

(** A request that writes no table and keeps the identity of the session
    keeps the invariants. *)
Lemma quiet_keeps s s' :
  accounts s' = accounts s ->
  site_db s' = site_db s ->
  user_id (session (site_app s')) = user_id (session (site_app s)) ->
  role (session (site_app s')) = role (session (site_app s)) ->
  accounts_ok s -> rows_ok s ->
  session_ok (accounts s) (session (site_app s)) ->
  accounts_ok s' /\ rows_ok s'
  /\ session_ok (accounts s') (session (site_app s'))
  /\ exists more, accounts s' = (accounts s ++ more)%list.
Proof.
  intros Haccs Hdb Huid Hrole Hok Hrows Hsess.
  unfold accounts_ok, rows_ok, session_ok in *.
  rewrite Haccs, Hdb, Huid, Hrole.
  repeat split; try tauto. exists []. by rewrite app_nil_r.
Qed.

(** The routes of the first part keep the identity of the session. *)
Lemma identity_flash a (c : Session) m :
  user_id c = user_id (session a) /\ role c = role (session a) ->
  user_id (with_flash m c) = user_id (session a)
  /\ role (with_flash m c) = role (session a).
Proof. done. Qed.

Lemma app_route_keeps {A} (c : M App A) s :
  (forall a, user_id (session (c a).2) = user_id (session a)
             /\ role (session (c a).2) = role (session a)) ->
  (forall a, db (world (c a).2) = db (world a)) ->
  accounts_ok s -> rows_ok s ->
  session_ok (accounts s) (session (site_app s)) ->
  accounts_ok (on_app c s).2 /\ rows_ok (on_app c s).2
  /\ session_ok (accounts (on_app c s).2) (session (site_app (on_app c s).2))
  /\ exists more, accounts (on_app c s).2 = (accounts s ++ more)%list.
Proof.
  intros Hid Hdb. destruct (on_app_site c s) as (Haccs & _ & Happ).
  destruct (Hid (site_app s)) as [Hu Hr].
  apply quiet_keeps; try done.
  - unfold site_db. rewrite Happ. apply Hdb.
  - by rewrite Happ.
  - by rewrite Happ.
Qed.

Ltac identity_kept lemma :=
  let a := fresh "a" in
  intros a;
  apply (lemma (fun c => user_id c = user_id (session a)
                         /\ role c = role (session a)));
  done.

Lemma swipe_identity shuffle method (choice : Form) (a : App) :
  user_id (session (swipe shuffle method choice a).2) = user_id (session a)
  /\ role (session (swipe shuffle method choice a).2) = role (session a).
Proof.
  by apply (keeps_session_swipe
              (fun c => user_id c = user_id (session a)
                        /\ role c = role (session a))).
Qed.

Lemma serve_keeps r s :
  accounts_ok s -> rows_ok s ->
  session_ok (accounts s) (session (site_app s)) ->
  let s' := serve generate_password_hash check_password_hash secure_filename
                  extract_pages lower strip r s in
  accounts_ok s' /\ rows_ok s'
  /\ session_ok (accounts s') (session (site_app s'))
  /\ exists more, accounts s' = (accounts s ++ more)%list.
Proof.
  intros Hok Hrows Hsess.
  destruct r as [|method form|method username password| |method resume
                 job_field now|shuffle method form|method chosen| |filename|];
    cbn [serve]; cbv zeta.
  - (* index *)
    by apply app_route_keeps.
  - (* register *)
    destruct (register_cases method form s)
      as [(Haccs & _ & Hworld & Hu & Hr)
         | (_ & _ & _ & Hfree & acc & Haccs & Hid & Hname & _ & Hrole & _
            & Hdb & _ & _ & Hu & Hr)].
    { apply quiet_keeps; try done. unfold site_db. by rewrite Hworld. }
    set (s' := (register _ _ _ _).2) in *.
    destruct Hok as (Hids & Hnames & Hnodup & Hroles).
    destruct Hrows as [Hswipes Hresumes].
    assert (Hacc : acc ∈ accounts s').
    { rewrite Haccs. apply elem_of_app. right. apply list_elem_of_here. }
    repeat split.
    + rewrite Hdb, Haccs. cbn [users add_user]. rewrite !fmap_app.
      cbn [fmap list_fmap u_id]. by rewrite Hids, Hid.
    + rewrite Haccs, fmap_app. cbn [fmap list_fmap].
      apply NoDup_app. split; [done|]. split; [|apply NoDup_singleton].
      intros name Hin Hnew. apply list_elem_of_singleton in Hnew.
      apply list_elem_of_fmap in Hin as (a & Ha & Hin).
      assert (Hsel : a ∈ select_accounts s (default "" (reg_username form))).
      { unfold select_accounts. apply list_elem_of_filter. split; [|done].
        rewrite <- Hname in *. cbn [default from_option]. unfold id.
        congruence. }
      rewrite Hfree in Hsel. by apply elem_of_nil in Hsel.
    + rewrite Haccs, fmap_app. cbn [fmap list_fmap].
      apply NoDup_app. split; [done|]. split; [|apply NoDup_singleton].
      intros i Hin Hnew. apply list_elem_of_singleton in Hnew.
      rewrite <- Hids in Hin. apply max_id_lt in Hin.
      unfold next_user_id in Hid. lia.
    + rewrite Haccs. apply Forall_app. split; [done|].
      by apply Forall_singleton.
    + rewrite Hdb, Haccs. cbn [swipes add_user].
      eapply Forall_impl; [exact Hswipes|]. intros sw.
      apply has_role_more.
    + rewrite Hdb, Haccs. cbn [resumes add_user].
      eapply Forall_impl; [exact Hresumes|]. intros x.
      apply has_role_more.
    + unfold session_ok. rewrite Hu. exists acc. by repeat split.
    + by exists [acc].
  - (* login *)
    destruct (login_cases method username password s)
      as (Haccs & _ & Hworld & _ & _ & _ & Hwho).
    set (s' := (login _ _ _ _ _).2) in *.
    assert (Hdb : site_db s' = site_db s) by (unfold site_db; by rewrite Hworld).
    unfold accounts_ok, rows_ok in *. rewrite Haccs, Hdb.
    repeat split; try tauto; [|exists []; by rewrite app_nil_r].
    unfold session_ok.
    destruct Hwho as [[-> _] | (_ & acc & u & p & _ & _ & Hsel & _ & -> & ->)];
      [done|].
    exists acc. split; [|done].
    assert (Hin : acc ∈ select_accounts s u)
      by (rewrite Hsel; apply list_elem_of_here).
    unfold select_accounts in Hin.
    by apply list_elem_of_filter in Hin as [_ ?].
  - (* logout *)
    destruct (on_app_site logout s) as (Haccs & _ & Happ).
    set (s' := (on_app logout s).2) in *.
    assert (Hdb : site_db s' = site_db s).
    { unfold site_db. rewrite Happ. symmetry.
      by apply (preserves_logout (fun w => db (world (site_app s)) = db w)). }
    unfold accounts_ok, rows_ok in *. rewrite Haccs, Hdb.
    repeat split; try tauto. exists []. by rewrite app_nil_r.
  - (* upload *)
    destruct (upload_cases method resume job_field now s)
      as (Haccs & Hu & Hr & Husers & Hswipes & _ & Hres).
    set (s' := (upload _ _ _ _ _ _ _ _ _).2) in *.
    destruct Hok as (Hids & Hnames & Hnodup & Hroles).
    destruct Hrows as [Hsw Hresumes].
    unfold accounts_ok, rows_ok, session_ok.
    rewrite Haccs, Husers, Hswipes, Hu, Hr.
    repeat split; try done; [|exists []; by rewrite app_nil_r].
    destruct Hres as [-> | (uid & file & f & text & _ & _ & _ & Huid & Hrole
                            & _ & _ & _ & _ & _ & ->)]; [done|].
    apply Forall_app. split; [done|]. apply Forall_singleton.
    cbn [r_user_id]. by apply (session_ok_role _ (session (site_app s))).
  - (* swipe *)
    destruct (on_app_site (swipe shuffle method form) s)
      as (Haccs & _ & Happ).
    set (s' := (on_app _ s).2) in *.
    destruct (swipe_identity shuffle method form (site_app s)) as [Hu Hr].
    destruct Hok as (Hids & Hnames & Hnodup & Hroles).
    destruct Hrows as [Hsw Hresumes].
    destruct (swipe_db_cases shuffle method form (site_app s))
      as [Hdb | (uid & rid & label & Huid & Hrole & _ & _ & Hdb)].
    { apply quiet_keeps; try done; [|by rewrite Happ..].
      unfold site_db. by rewrite Happ. }
    assert (Hdb' : site_db s' = insert_swipe rid uid label (site_db s)).
    { unfold site_db. by rewrite Happ. }
    unfold accounts_ok, rows_ok, session_ok.
    rewrite Haccs, Hdb', Happ, Hu, Hr. cbn [users resumes swipes insert_swipe].
    repeat split; try done; [|exists []; by rewrite app_nil_r].
    apply Forall_app. split; [done|]. apply Forall_singleton.
    cbn [s_user_id]. by apply (session_ok_role _ (session (site_app s))).
  - (* swipe_select *)
    apply app_route_keeps; try done.
    + identity_kept (@keeps_session_swipe_select sk).
    + intros a. symmetry.
      by apply (preserves_swipe_select (fun w => db (world a) = db w)).
  - (* swipe_reset *)
    apply app_route_keeps; try done.
    + identity_kept (@keeps_session_swipe_reset sk).
    + intros a. symmetry.
      by apply (preserves_swipe_reset (fun w => db (world a) = db w)).
  - (* uploaded_file *)
    apply app_route_keeps; try done.
    + identity_kept (@keeps_session_uploaded_file sk).
    + intros a. symmetry.
      by apply (preserves_uploaded_file (fun w => db (world a) = db w)).
  - (* feedback *)
    apply app_route_keeps; try done.
    + identity_kept (@keeps_session_feedback sk).
    + intros a. symmetry.
      by apply (preserves_feedback (fun w => db (world a) = db w)).
Qed.

Lemma served_invariant S :
  served generate_password_hash check_password_hash secure_filename
         extract_pages lower strip S ->
  accounts_ok (server S) /\ rows_ok (server S)
  /\ Forall (session_ok (accounts (server S))) (cookies S).
Proof.
  induction 1 as [S (Hc & Hu & Hr & Hs & Ha & _)
                 |S c r _ (Hok & Hrows & Hcookies) Hc].
  - unfold accounts_ok, rows_ok. rewrite Hu, Hr, Hs, Ha, Hc.
    repeat split; by constructor.
  - cbn [server cookies].
    destruct (serve_keeps r (with_cookie c (server S)))
      as (Hok' & Hrows' & Hsess & more & Hmore); try done.
    { rewrite Forall_forall in Hcookies. by apply Hcookies. }
    split; [done|]. split; [done|].
    apply Forall_cons. split; [done|].
    rewrite Hmore. cbn [accounts with_cookie].
    eapply Forall_impl; [exact Hcookies|]. intros c'.
    apply session_ok_more.
Qed.

(** X23. Whatever requests the clients send, and with whichever session the
    server ever handed out, the accounts stay consistent: user names are
    unique, ids are unique, and every role is "candidate" or "recruiter". *)
Theorem served_accounts_ok S :
  served generate_password_hash check_password_hash secure_filename
         extract_pages lower strip S ->
  accounts_ok (server S).
Proof. intros HS. by destruct (served_invariant S HS) as (? & _). Qed.

(** X24. Whatever requests the clients send, every swipe in the table was
    recorded for an account whose role is "recruiter", and every resume for
    an account whose role is "candidate". *)
Theorem served_rows_ok S :
  served generate_password_hash check_password_hash secure_filename
         extract_pages lower strip S ->
  rows_ok (server S).
Proof. intros HS. by destruct (served_invariant S HS) as (_ & ? & _). Qed.

(** X25. As long as every request comes with a session that the server
    itself handed out, every session it hands out is nobody's or carries the
    id of an account together with that account's role. The condition is
    part of the statement: [served] admits no session made outside the
    server, which the constant signing key of [app.py] does not rule out. *)
Theorem served_sessions_ok S c :
  served generate_password_hash check_password_hash secure_filename
         extract_pages lower strip S ->
  c ∈ cookies S ->
  session_ok (accounts (server S)) c.
Proof.
  intros HS Hc. destruct (served_invariant S HS) as (_ & _ & Hall).
  rewrite Forall_forall in Hall. by apply Hall.
Qed.

End AccountFacts.

Lemma served_ada_system :
  served toy_hash toy_check id toy_pages ascii_lower ascii_strip ada_system.
Proof.
  apply (served_request toy_hash toy_check id toy_pages ascii_lower
           ascii_strip fresh_system no_session (ToRegister POST ada_form)).
  - apply served_fresh. by repeat split.
  - apply list_elem_of_here.
Defined.

Lemma served_ada_upload_system :
  served toy_hash toy_check id toy_pages ascii_lower ascii_strip
         ada_upload_system.
Proof.
  apply (served_request toy_hash toy_check id toy_pages ascii_lower
           ascii_strip ada_system
           (session (site_app (server ada_system)))
           (ToUpload POST (Some ada_cv) (Some "data") 0)).
  - apply served_ada_system.
  - apply list_elem_of_here.
Defined.

Lemma register_then_login_witness :
  user_id (session (site_app
             (login toy_check POST (Some "ada") (Some "pw") ada_site).2))
  = Some 1
  /\ role (session (site_app
              (login toy_check POST (Some "ada") (Some "pw") ada_site).2))
     = Some "candidate".
Proof.
  apply (register_then_login toy_hash toy_check ada_form fresh_site
           "ada" "pw").
  - intros pw. unfold toy_check. apply String.eqb_refl.
  - reflexivity.
  - reflexivity.
  - intros Hsame. vm_compute in Hsame. discriminate.
Defined.

Lemma upload_saves_first_witness :
  uploads (upload id toy_pages ascii_lower ascii_strip POST (Some ada_cv)
                  (Some "data") 0 ada_site).2
  = <["uploads/cv.PDF" := ["Python"; ""; " SQL "]]> (uploads ada_site).
Proof.
  apply (upload_saves_first id toy_pages ascii_lower ascii_strip ada_cv
           "data" 0 ada_site 1).
  - by_compute.
  - by_compute.
  - discriminate.
  - discriminate.
  - by_compute.
  - by_compute.
Defined.

Lemma served_accounts_ok_witness : accounts_ok (server ada_system).
Proof.
  apply (served_accounts_ok toy_hash toy_check id toy_pages ascii_lower
           ascii_strip ada_system).
  apply served_ada_system.
Defined.

Lemma served_rows_ok_witness : rows_ok (server ada_upload_system).
Proof.
  apply (served_rows_ok toy_hash toy_check id toy_pages ascii_lower
           ascii_strip ada_upload_system).
  apply served_ada_upload_system.
Defined.

Lemma served_sessions_ok_witness :
  session_ok (accounts (server ada_upload_system))
             (session (site_app (server ada_system))).
Proof.
  apply (served_sessions_ok toy_hash toy_check id toy_pages ascii_lower
           ascii_strip ada_upload_system).
  - apply served_ada_upload_system.
  - apply list_elem_of_further, list_elem_of_here.
Defined.
